(** * xmljsonview: the JSON formatter and the number-preserving encoder

    A shallow embedding of [jsonformatter] and [safe-encode-numbers] as they
    are bundled in [build/content.js], together with the properties of the
    rendering core.

    JavaScript strings are sequences of UTF-16 code units, so a string is a
    [list N] of code units here.  Closure variables that the source mutates
    ([wasInQuotes], [startIndex]) are threaded explicitly. *)

From Stdlib Require Import String Ascii.
From Stdlib Require Import NArith Bool Arith Lia List Sorted.
From Stdlib Require Decimal.
Import ListNotations.

Set Implicit Arguments.
Set Warnings "-register-all".

(* ================================================================== *)
(** * Strings of UTF-16 code units *)
(* ================================================================== *)

Abbreviation char16 := N (only parsing).
Abbreviation jsstring := (list N) (only parsing).

(** An ASCII literal as a JavaScript string. *)
Definition lit (s : string) : jsstring :=
  List.map N_of_ascii (list_ascii_of_string s).

(** A piece of an HTML template.  The templates of the source contain double
    quotes and never an apostrophe; in the literals below an apostrophe
    stands for the double quote (code unit 34). *)
Definition html (s : string) : jsstring :=
  List.map (fun c => if N.eqb c 39 then 34%N else c) (lit s).

Definition c_tab   : char16 := 9%N.
Definition c_lf    : char16 := 10%N.
Definition c_cr    : char16 := 13%N.
Definition c_quote : char16 := 34%N.   (* the double quote *)
Definition c_amp   : char16 := 38%N.
Definition c_lt    : char16 := 60%N.
Definition c_gt    : char16 := 62%N.
Definition c_bslash : char16 := 92%N.
Definition c_marker : char16 := 8203%N. (* U+200B, zero width space *)
Definition c_nul   : char16 := 0%N.
Definition c_fffd  : char16 := 65533%N. (* U+FFFD *)

Definition jseqb (a b : jsstring) : bool :=
  if list_eq_dec N.eq_dec a b then true else false.

Definition in_range (lo hi c : N) : bool := N.leb lo c && N.leb c hi.

Definition is_digit (c : char16) : bool := in_range 48 57 c.
Definition is_upper (c : char16) : bool := in_range 65 90 c.
Definition is_lower (c : char16) : bool := in_range 97 122 c.

(** [s.substring(a, b)] : the arguments are clamped to the length and swapped
    when [a > b]. *)
Definition substring (s : jsstring) (a b : nat) : jsstring :=
  let a' := Nat.min a (length s) in
  let b' := Nat.min b (length s) in
  let lo := Nat.min a' b' in
  let hi := Nat.max a' b' in
  firstn (hi - lo) (skipn lo s).

(** [s.substring(a)] *)
Definition substring_from (s : jsstring) (a : nat) : jsstring := skipn a s.

(** [s.slice(1)] *)
Definition slice1 (s : jsstring) : jsstring := tl s.

(** [s.slice(1, -1)] *)
Definition slice_1_m1 (s : jsstring) : jsstring := removelast (tl s).

(** [s.replace(/c/g, rep)] for a one-character pattern. *)
Definition replace_all_char (c : char16) (rep : jsstring) (s : jsstring) : jsstring :=
  flat_map (fun x => if N.eqb x c then rep else [x]) s.

(** [s.replace("c", rep)] with a string pattern: only the first occurrence
    is replaced. *)
Fixpoint replace_first_char (c : char16) (rep : jsstring) (s : jsstring) : jsstring :=
  match s with
  | [] => []
  | x :: r => if N.eqb x c then rep ++ r else x :: replace_first_char c rep r
  end.

(** Decimal digits of an array index, as [String(i)] gives them. *)
Fixpoint uint_to_js (u : Decimal.uint) : jsstring :=
  match u with
  | Decimal.Nil => []
  | Decimal.D0 r => 48%N :: uint_to_js r
  | Decimal.D1 r => 49%N :: uint_to_js r
  | Decimal.D2 r => 50%N :: uint_to_js r
  | Decimal.D3 r => 51%N :: uint_to_js r
  | Decimal.D4 r => 52%N :: uint_to_js r
  | Decimal.D5 r => 53%N :: uint_to_js r
  | Decimal.D6 r => 54%N :: uint_to_js r
  | Decimal.D7 r => 55%N :: uint_to_js r
  | Decimal.D8 r => 56%N :: uint_to_js r
  | Decimal.D9 r => 57%N :: uint_to_js r
  end.

Definition nat_to_js (n : nat) : jsstring := uint_to_js (Nat.to_uint n).

(* ================================================================== *)
(** * Platform functions the formatter calls *)
(* ================================================================== *)

(** White space and line terminators of ECMAScript: the class [\s] of regular
    expressions and the characters [ToNumber] trims from a string. *)
Definition is_js_space (c : char16) : bool :=
  in_range 9 13 c || N.eqb c 32 || N.eqb c 160 || N.eqb c 5760
  || in_range 8192 8202 c || N.eqb c 8232 || N.eqb c 8233
  || N.eqb c 8239 || N.eqb c 8287 || N.eqb c 12288 || N.eqb c 65279.

(** Line terminators: what [.] does not match and where [^] and [$] match
    under the [m] flag. *)
Definition is_line_terminator (c : char16) : bool :=
  N.eqb c 10 || N.eqb c 13 || N.eqb c 8232 || N.eqb c 8233.

Fixpoint span (p : char16 -> bool) (s : jsstring) : jsstring * jsstring :=
  match s with
  | [] => ([], [])
  | c :: r => if p c then let (a, b) := span p r in (c :: a, b) else ([], s)
  end.

Fixpoint drop_while (p : char16 -> bool) (s : jsstring) : jsstring :=
  match s with
  | [] => []
  | c :: r => if p c then drop_while p r else s
  end.

Definition trim (s : jsstring) : jsstring :=
  rev (drop_while is_js_space (rev (drop_while is_js_space s))).

Definition is_nil (s : jsstring) : bool :=
  match s with [] => true | _ => false end.

Definition is_sign (c : char16) : bool := N.eqb c 43 || N.eqb c 45.
Definition is_e (c : char16) : bool := N.eqb c 101 || N.eqb c 69.

Definition strip_sign (s : jsstring) : jsstring :=
  match s with
  | c :: r => if is_sign c then r else s
  | [] => []
  end.

(** ExponentPart, optional, up to the end of the string. *)
Definition exponent_opt_end (s : jsstring) : bool :=
  match s with
  | [] => true
  | c :: r =>
      is_e c &&
      (let (d, rest) := span is_digit (strip_sign r) in
       negb (is_nil d) && is_nil rest)
  end.

(** StrUnsignedDecimalLiteral *)
Definition str_unsigned_decimal (s : jsstring) : bool :=
  if jseqb s (lit "Infinity") then true else
  let (ip, r1) := span is_digit s in
  match r1 with
  | c :: r2 =>
      if N.eqb c 46 then
        let (fp, r3) := span is_digit r2 in
        negb (is_nil ip && is_nil fp) && exponent_opt_end r3
      else negb (is_nil ip) && exponent_opt_end r1
  | [] => negb (is_nil ip) && exponent_opt_end r1
  end.

Definition is_hex_digit (c : char16) : bool :=
  is_digit c || in_range 65 70 c || in_range 97 102 c.

(** NonDecimalIntegerLiteral: 0x, 0o and 0b literals. *)
Definition non_decimal_integer (s : jsstring) : bool :=
  match s with
  | 48%N :: k :: r =>
      negb (is_nil r) &&
      (if N.eqb k 120 || N.eqb k 88 then forallb is_hex_digit r
       else if N.eqb k 111 || N.eqb k 79 then forallb (in_range 48 55) r
       else if N.eqb k 98 || N.eqb k 66 then forallb (in_range 48 49) r
       else false)
  | _ => false
  end.

(** StrNumericLiteral *)
Definition str_numeric_literal (s : jsstring) : bool :=
  str_unsigned_decimal (strip_sign s) || non_decimal_integer s.

(** The global [isNaN] at a string: [ToNumber] trims white space, reads the
    empty string as 0 and anything outside StrNumericLiteral as NaN. *)
Definition isNaN (s : jsstring) : bool :=
  let t := trim s in
  if is_nil t then false else negb (str_numeric_literal t).

Definition hex_digit (n : N) : char16 :=
  if N.ltb n 10 then (48 + n)%N else (87 + n)%N.

(** [\uXXXX] with lower-case hexadecimal digits. *)
Definition unicode_escape (c : char16) : jsstring :=
  [c_bslash; 117%N;
   hex_digit (N.modulo (N.div c 4096) 16); hex_digit (N.modulo (N.div c 256) 16);
   hex_digit (N.modulo (N.div c 16) 16); hex_digit (N.modulo c 16)].

Definition is_lead_surrogate (c : char16) : bool := in_range 55296 56319 c.
Definition is_trail_surrogate (c : char16) : bool := in_range 56320 57343 c.

(** One code unit that is not part of a surrogate pair, as QuoteJSONString
    writes it. *)
Definition quote_unit (c : char16) : jsstring :=
  if N.eqb c 8 then lit "\b"
  else if N.eqb c 9 then lit "\t"
  else if N.eqb c 10 then lit "\n"
  else if N.eqb c 12 then lit "\f"
  else if N.eqb c 13 then lit "\r"
  else if N.eqb c c_quote then [c_bslash; c_quote]
  else if N.eqb c c_bslash then [c_bslash; c_bslash]
  else if N.ltb c 32 then unicode_escape c
  else if is_lead_surrogate c || is_trail_surrogate c then unicode_escape c
  else [c].

(** The characters between the quotes of [JSON.stringify(s)]. *)
Fixpoint quote_body (s : jsstring) : jsstring :=
  match s with
  | [] => []
  | c :: r =>
      match r with
      | d :: r' =>
          if is_lead_surrogate c && is_trail_surrogate d
          then c :: d :: quote_body r'
          else quote_unit c ++ quote_body r
      | [] => quote_unit c
      end
  end.

(** [JSON.stringify(s)] at a string. *)
Definition JSON_stringify (s : jsstring) : jsstring :=
  [c_quote] ++ quote_body s ++ [c_quote].

(** Comparison of a subject character with a pattern character under the [i]
    flag (no [u] flag): both are canonicalised with [toUpperCase], and a
    character outside ASCII never canonicalises to an ASCII one.  The
    pattern characters used below are lower-case letters, [:] and [/]. *)
Definition ci_eqb (p c : char16) : bool :=
  N.eqb c p || (is_lower p && N.eqb c (p - 32)).

Fixpoint strip_prefix_ci (p s : jsstring) : option jsstring :=
  match p with
  | [] => Some s
  | a :: p' =>
      match s with
      | c :: s' => if ci_eqb a c then strip_prefix_ci p' s' else None
      | [] => None
      end
  end.

(** [/^(http|https|file):\/\/[^\s]+$/i.test(value)] *)
Definition is_url (value : jsstring) : bool :=
  existsb
    (fun scheme =>
       match strip_prefix_ci (lit scheme ++ lit "://") value with
       | Some rest => negb (is_nil rest) && forallb (fun c => negb (is_js_space c)) rest
       | None => false
       end)
    ["http"; "https"; "file"]%string.

(* ================================================================== *)
(** * jsonformatter: the renderer *)
(* ================================================================== *)

(** Encode a string to be used in HTML.  The argument is the string
    [t.toString()]; the [undefined]/[null] case is [htmlEncode_undef]. *)
Definition htmlEncode (t : jsstring) : jsstring :=
  replace_all_char c_gt (lit "&gt;")
    (replace_all_char c_lt (lit "&lt;")
       (replace_all_char c_quote (lit "&quot;")
          (replace_all_char c_amp (lit "&amp;") t))).

Definition htmlEncode_undef (t : option jsstring) : jsstring :=
  match t with
  | Some s => htmlEncode s
  | None => []
  end.

(** Completely escape a json string *)
Definition jsString (s : jsstring) : jsstring :=
  let s := slice_1_m1 (JSON_stringify s) in
  htmlEncode s.

Definition is_bare_first (c : char16) : bool :=
  is_upper c || is_lower c || N.eqb c 95 || N.eqb c 36.

Definition is_bare_rest (c : char16) : bool :=
  is_upper c || is_lower c || is_digit c || N.eqb c 95 || N.eqb c 45 || N.eqb c 36.

(** Is this a valid "bare" property name?
    [/^[A-Za-z_$][A-Za-z0-9_\-$]*$/.test(prop)] *)
Definition isBareProp (prop : jsstring) : bool :=
  match prop with
  | c :: r => is_bare_first c && forallb is_bare_rest r
  | [] => false
  end.

(** Surround value with a span, including the given className *)
Definition decorateWithSpan (value className : jsstring) : jsstring :=
  html "<span class='" ++ className ++ html "'>" ++ htmlEncode value ++ html "</span>".

(** A value as [JSON.parse] delivers it.  A Number is carried as the text its
    [toString()] yields, the only thing the renderer asks of it.  An object
    is its own enumerable properties in the order [for ... in] and
    [Object.keys] visit them; [VUndefined] stands for a value of any other
    type. *)
Inductive value : Type :=
| VNull
| VBool (b : bool)
| VNum (shown : jsstring)
| VStr (s : jsstring)
| VArr (elems : list value)
| VObj (props : list (jsstring * value))
| VUndefined.

Section Loops.
Variable valueToHTML : value -> jsstring -> jsstring.

(** The [for] loop of [arrayToHTML]; [len] is [json.length], [rest] the
    elements from index [i] on. *)
Fixpoint arrayToHTML_loop (len : nat) (rest : list value) (i : nat)
         (path output : jsstring) : jsstring :=
  match rest with
  | [] => output
  | x :: rest' =>
      let subPath := path ++ lit "[" ++ nat_to_js i ++ lit "]" in
      let output := output ++ html "<li>" ++ valueToHTML x subPath in
      let output := if i <? len - 1 then output ++ lit "," else output in
      let output := output ++ html "</li>" in
      arrayToHTML_loop len rest' (S i) path output
  end.

(** The [for ... in] loop of [objectToHTML]; [rest] is what is left to
    enumerate. *)
Fixpoint objectToHTML_loop (rest : list (jsstring * value)) (numProps : nat)
         (path output : jsstring) : jsstring :=
  match rest with
  | [] => output
  | (prop, v) :: rest' =>
      let escapedProp := slice_1_m1 (JSON_stringify prop) in
      let bare := isBareProp prop in
      let subPath := if bare then path ++ lit "." ++ escapedProp else [] in
      let output :=
        output ++ html "<li><span class='prop" ++ (if bare then [] else lit " quoted")
               ++ html "' title='" ++ htmlEncode subPath
               ++ html "'><span class='q'>&quot;</span>" ++ jsString prop
               ++ html "<span class='q'>&quot;</span></span>: "
               ++ valueToHTML v subPath in
      let output := if 1 <? numProps then output ++ lit "," else output in
      let output := output ++ html "</li>" in
      objectToHTML_loop rest' (numProps - 1) path output
  end.
End Loops.

(** Convert a basic JSON datatype (number, string, boolean, null, object,
    array) into an HTML fragment. *)
Fixpoint valueToHTML (v : value) (path : jsstring) {struct v} : jsstring :=
  match v with
  | VNull => decorateWithSpan (lit "null") (lit "null")
  | VArr json =>
      (* arrayToHTML *)
      if length json =? 0 then lit "[ ]"
      else
        let output := arrayToHTML_loop valueToHTML (length json) json 0 path [] in
        (if length json =? 0 then [] else html "<span class='collapser'></span>")
          ++ html "[<ul class='array collapsible'>" ++ output ++ html "</ul>]"
  | VObj json =>
      (* objectToHTML *)
      let numProps := length json in
      if numProps =? 0 then lit "{ }"
      else
        let output := objectToHTML_loop valueToHTML json numProps path [] in
        html "<span class='collapser'></span>{<ul class='obj collapsible'>"
          ++ output ++ html "</ul>}"
  | VNum shown => decorateWithSpan shown (lit "num")
  | VStr s =>
      if (match s with c :: _ => N.eqb c 8203 | [] => false end)
         && negb (isNaN (slice1 s))
      then decorateWithSpan (slice1 s) (lit "num")
      else if is_url s
      then html "<a href='" ++ htmlEncode s ++ html "'><span class='q'>&quot;</span>"
             ++ jsString s ++ html "<span class='q'>&quot;</span></a>"
      else html "<span class='string'>&quot;" ++ jsString s ++ html "&quot;</span>"
  | VBool b => decorateWithSpan (if b then lit "true" else lit "false") (lit "bool")
  | VUndefined => []
  end.

(** Convert an array into an HTML fragment *)
Definition arrayToHTML (json : list value) (path : jsstring) : jsstring :=
  valueToHTML (VArr json) path.

(** Convert a JSON object to an HTML fragment *)
Definition objectToHTML (json : list (jsstring * value)) (path : jsstring) : jsstring :=
  valueToHTML (VObj json) path.

(** Convert a whole JSON value into an HTML body, without title and scripts *)
Definition jsonToHTMLBody (json : value) : jsstring :=
  html "<div id='json'>" ++ valueToHTML json (lit "<root>") ++ html "</div>".


(* ================================================================== *)
(** * jsonformatter: the error page *)
(* ================================================================== *)

(** The number a string of decimal digits writes. *)
Definition digits_value (d : jsstring) : N :=
  fold_left (fun acc c => (10 * acc + (c - 48))%N) d 0%N.

(** A Number that [Number(digits)] can return: a non-negative integer that
    a double holds, or [Infinity]. *)
Inductive jsnum : Type :=
| Fin (n : N)
| Inf.

(** The double nearest to a natural number, ties going to the even
    significand: below 2^53 the number itself; from there on the 53 leading
    bits, rounded; [Infinity] from 2^1024 - 2^970 on. *)
Definition round_double (n : N) : jsnum :=
  if N.ltb n (2 ^ 53) then Fin n
  else
    let e := (N.log2 n - 52)%N in
    let q := N.shiftr n e in
    let r := (n - N.shiftl q e)%N in
    let half := N.shiftl 1 (e - 1) in
    let q := if N.ltb half r || (N.eqb r half && N.odd q) then (q + 1)%N else q in
    let m := N.shiftl q e in
    if N.ltb m (2 ^ 1024) then Fin m else Inf.

(** [Number(digits)] for a string of decimal digits: the double nearest to
    the number the digits write (as the engines compute it; the
    specification also lets them drop the digits after the twentieth
    first). *)
Definition Number_digits (d : jsstring) : jsnum := round_double (digits_value d).

(** The error [JSON.parse] throws: the formatter reads only its [message]
    (the empty string also stands for a missing message, both are falsy).
    An [Error] carries no [line] or [column] property. *)
Record Error : Type := { message : jsstring }.

(** What [massageError] returns: a message and, when extracted, a position. *)
Record ErrorInfo : Type :=
  { info_message : jsstring; info_line : option jsnum; info_column : option jsnum }.

(** A pattern character, [None] for the wildcard [.] *)
Fixpoint strip_prefix_pat (p : list (option char16)) (s : jsstring) : option jsstring :=
  match p with
  | [] => Some s
  | a :: p' =>
      match s with
      | c :: s' =>
          if match a with Some x => N.eqb c x | None => negb (is_line_terminator c) end
          then strip_prefix_pat p' s' else None
      | [] => None
      end
  end.

Definition exact (s : jsstring) : list (option char16) := List.map Some s.

(** [s.replace(/^JSON.parse: /, '')]; the dot of the pattern is a wildcard. *)
Definition strip_JSON_parse (s : jsstring) : jsstring :=
  match strip_prefix_pat (exact (lit "JSON") ++ [None] ++ exact (lit "parse: ")) s with
  | Some rest => rest
  | None => s
  end.

(** [s.replace(/pat/, '')] for a literal pattern: the first occurrence goes. *)
Fixpoint remove_first (pat : jsstring) (s : jsstring) : jsstring :=
  match strip_prefix_pat (exact pat) s with
  | Some rest => rest
  | None => match s with
            | [] => []
            | c :: r => c :: remove_first pat r
            end
  end.

(** The pattern [line (\d+) column (\d+)] tried at the start of [s]. *)
Definition line_column_at (s : jsstring) : option (jsstring * jsstring) :=
  match strip_prefix_pat (exact (lit "line ")) s with
  | None => None
  | Some r1 =>
      let (d1, r2) := span is_digit r1 in
      if is_nil d1 then None else
      match strip_prefix_pat (exact (lit " column ")) r2 with
      | None => None
      | Some r3 =>
          let (d2, _) := span is_digit r3 in
          if is_nil d2 then None else Some (d1, d2)
      end
  end.

(** [/line (\d+) column (\d+)/.exec(message)]: the leftmost match. *)
Fixpoint line_column_exec (s : jsstring) : option (jsstring * jsstring) :=
  match line_column_at s with
  | Some p => Some p
  | None => match s with
            | [] => None
            | _ :: r => line_column_exec r
            end
  end.

(** Clean up a JSON parsing error message *)
Definition massageError (error : Error) : ErrorInfo :=
  if is_nil (message error)
  then {| info_message := message error; info_line := None; info_column := None |}
  else
    let message' := remove_first (lit "of the JSON data") (strip_JSON_parse (message error)) in
    match line_column_exec message' with
    | None => {| info_message := message error; info_line := None; info_column := None |}
    | Some (p1, p2) =>
        {| info_message := htmlEncode message';
           info_line := Some (Number_digits p1);
           info_column := Some (Number_digits p2) |}
    end.

(** [data.match(/^.*((\r\n|\n|\r)|$)/gm)]: every match starts where [^]
    holds (offset 0 or just after a line terminator), [.*] takes the
    characters up to the next line terminator, then [\r\n], [\n] or [\r] is
    taken with the line; before U+2028 or U+2029 only [$] matches, so that
    terminator belongs to no line.  At the end of the text the last match
    (possibly empty) is made.  [cur] is what [.*] has taken so far. *)
Fixpoint split_lines (s cur : jsstring) : list jsstring :=
  match s with
  | [] => [cur]
  | c :: r =>
      if N.eqb c 13 then
        match r with
        | 10%N :: r' => (cur ++ [13%N; 10%N]) :: split_lines r' []
        | _ => (cur ++ [13%N]) :: split_lines r []
        end
      else if N.eqb c 10 then (cur ++ [10%N]) :: split_lines r []
      else if N.eqb c 8232 || N.eqb c 8233 then cur :: split_lines r []
      else split_lines r (cur ++ [c])
  end.

Definition falsy (n : option N) : bool :=
  match n with
  | None => true
  | Some k => N.eqb k 0
  end.

Definition char_at (s : jsstring) (i : nat) : option jsstring :=
  match nth_error s i with
  | Some c => Some [c]
  | None => None
  end.

Fixpoint highlightError_loop (lines : list jsstring) (i : nat) (lineNum columnNum : N)
         (output : jsstring) : jsstring :=
  match lines with
  | [] => output
  | line :: rest =>
      let output :=
        if N.eqb (N.of_nat i) (lineNum - 1) then
          output ++ html "<span class='errorline'>"
            ++ (htmlEncode (substring line 0 (N.to_nat (columnNum - 1)))
                  ++ html "<span class='errorcolumn'>"
                  ++ htmlEncode_undef (char_at line (N.to_nat (columnNum - 1)))
                  ++ html "</span>"
                  ++ htmlEncode (substring_from line (N.to_nat columnNum)))
            ++ html "</span>"
        else output ++ htmlEncode line in
      highlightError_loop rest (S i) lineNum columnNum output
  end.

Definition highlightError (data : jsstring) (lineNum columnNum : option N) : jsstring :=
  if falsy lineNum || falsy columnNum then htmlEncode data
  else
    match lineNum, columnNum with
    | Some l, Some c => highlightError_loop (split_lines data []) 0 l c []
    | _, _ => htmlEncode data
    end.

(** The line or column as [highlightError] uses it.  It compares the line
    with the indices of the lines and cuts a line at the column, and there
    [Infinity] acts as every number past the end of the text: it is handed
    on as 2^1024, the least number [Number] rounds to [Infinity]. *)
Definition position (n : option jsnum) : option N :=
  match n with
  | Some (Fin k) => Some k
  | Some Inf => Some (2 ^ 1024)%N
  | None => None
  end.

(** Produce an error content for when parsing fails.  [errorParsing] is the
    text [chrome.i18n.getMessage('errorParsing')] returns. *)
Definition errorPageBody (errorParsing : jsstring) (error : Error) (data : jsstring) : jsstring :=
  (* Escape unicode nulls *)
  let data := replace_first_char c_nul [c_fffd] data in
  let errorInfo := massageError error in
  let output := html "<div id='error'>" ++ errorParsing in
  let output :=
    if negb (is_nil (info_message errorInfo))
    then output ++ html "<div class='errormessage'>" ++ info_message errorInfo ++ html "</div>"
    else output in
  let output :=
    output ++ html "</div><div id='json'>"
      ++ highlightError data (position (info_line errorInfo))
           (position (info_column errorInfo)) ++ html "</div>" in
  output.

(* ================================================================== *)
(** * safe-encode-numbers *)
(* ================================================================== *)

(** ** The regular expression [numberFinder]

    The pattern is an optional minus sign, then [0] or a digit from 1 to 9
    followed by digits, then optionally a dot and one or more digits, then
    optionally [e] or [E], an optional sign and one or more digits.  The
    functions below try it at the start of a text.  Each function returns the characters it matched and the rest.
    Everything after a greedy quantifier is optional, so the first, greedy
    attempt of each part is the one the match keeps; without its minus sign
    the integer part would have to start at the minus, so giving the sign
    back never helps. *)

Definition re_minus (s : jsstring) : jsstring * jsstring :=
  match s with
  | c :: r => if N.eqb c 45 then ([c], r) else ([], s)
  | [] => ([], s)
  end.

Definition re_int (s : jsstring) : option (jsstring * jsstring) :=
  match s with
  | c :: r =>
      if N.eqb c 48 then Some ([c], r)
      else if in_range 49 57 c then let (d, r') := span is_digit r in Some (c :: d, r')
      else None
  | [] => None
  end.

Definition re_frac (s : jsstring) : jsstring * jsstring :=
  match s with
  | c :: r =>
      if N.eqb c 46 then
        let (d, r') := span is_digit r in
        if is_nil d then ([], s) else (c :: d, r')
      else ([], s)
  | [] => ([], s)
  end.

Definition re_sign (s : jsstring) : jsstring * jsstring :=
  match s with
  | c :: r => if is_sign c then ([c], r) else ([], s)
  | [] => ([], s)
  end.

Definition re_exp (s : jsstring) : jsstring * jsstring :=
  match s with
  | c :: r =>
      if is_e c then
        let (sg, r1) := re_sign r in
        let (d, r2) := span is_digit r1 in
        if is_nil d then ([], s) else (c :: sg ++ d, r2)
      else ([], s)
  | [] => ([], s)
  end.

Definition numberFinder_at (s : jsstring) : option (jsstring * jsstring) :=
  let (m, r0) := re_minus s in
  match re_int r0 with
  | None => None
  | Some (i, r1) =>
      let (f, r2) := re_frac r1 in
      let (e, r3) := re_exp r2 in
      Some (m ++ i ++ f ++ e, r3)
  end.

(** One [exec] of the regular expression: the leftmost match in the text [s]
    that starts at offset [i] of the whole string, as (index, match, rest). *)
Fixpoint numberFinder_exec (s : jsstring) (i : nat) : option (nat * jsstring * jsstring) :=
  match numberFinder_at s with
  | Some (m, r) => Some (i, m, r)
  | None => match s with
            | [] => None
            | _ :: s' => numberFinder_exec s' (S i)
            end
  end.

(** All the matches of the global regular expression, left to right, each
    search starting where the previous match ended ([numberFinder] never
    matches the empty string).  [fuel] bounds the number of matches. *)
Fixpoint numberFinder_matches (fuel : nat) (s : jsstring) (lastIndex : nat)
  : list (nat * jsstring) :=
  match fuel with
  | 0 => []
  | S fuel' =>
      match numberFinder_exec s lastIndex with
      | None => []
      | Some (index, m, r) => (index, m) :: numberFinder_matches fuel' r (index + length m)
      end
  end.

(** ** The closures of [safeStringEncodeNums] *)

(** The inner [for] loop of [isInsideQuotes]: [n] is [lookback + 1]. *)
Fixpoint lookback_loop (str : jsstring) (n : nat) (escaped : bool) : bool :=
  match n with
  | 0 => escaped
  | S lookback =>
      if N.eqb (nth lookback str 0%N) c_bslash
      then lookback_loop str lookback (negb escaped)
      else escaped
  end.

(** The outer [for] loop of [isInsideQuotes]: [todo] iterations are left,
    the next one at index [i]. *)
Fixpoint quotes_loop (str : jsstring) (todo i : nat) (inQuotes : bool) : bool :=
  match todo with
  | 0 => inQuotes
  | S todo' =>
      let inQuotes :=
        if N.eqb (nth i str 0%N) c_quote then
          let escaped := lookback_loop str i false in
          if negb escaped then negb inQuotes else inQuotes
        else inQuotes in
      quotes_loop str todo' (S i) inQuotes
  end.

(** [isInsideQuotes(str)]; the closure variable [wasInQuotes] is passed in,
    and the value returned is also the value stored back into it. *)
Definition isInsideQuotes (wasInQuotes : bool) (str : jsstring) : bool :=
  let inQuotes := quotes_loop str (length str) 0 false in
  let inQuotes := if wasInQuotes then negb inQuotes else inQuotes in
  inQuotes.

(** The state the two closures share. *)
Record enc_state : Type := { wasInQuotes : bool; startIndex : nat }.

Definition wrap_number (m : jsstring) : jsstring :=
  [c_quote; c_marker] ++ m ++ [c_quote].

(** [replaceNumbers(match, index)] *)
Definition replaceNumbers (viewString : jsstring) (st : enc_state)
           (match_ : jsstring) (index : nat) : jsstring * enc_state :=
  (* Substring should be copy-on-write, and thus cheap *)
  let lookback := substring viewString (startIndex st) index in
  let insideQuotes := isInsideQuotes (wasInQuotes st) lookback in
  (if insideQuotes then match_ else wrap_number match_,
   {| wasInQuotes := insideQuotes; startIndex := index + length match_ |}).

(** [viewString.replace(numberFinder, replaceNumbers)]: the replacer is
    called once per match, in order; the text between the matches is copied. *)
Fixpoint replace_matches (viewString : jsstring) (ms : list (nat * jsstring))
         (st : enc_state) (nextSourcePosition : nat) (acc : jsstring) : jsstring :=
  match ms with
  | [] => acc ++ substring_from viewString nextSourcePosition
  | (index, m) :: ms' =>
      let (replacement, st') := replaceNumbers viewString st m index in
      replace_matches viewString ms' st' (index + length m)
        (acc ++ substring viewString nextSourcePosition index ++ replacement)
  end.

Definition double_markers (jsonString : jsstring) : jsstring :=
  replace_all_char c_marker [c_marker; c_marker] jsonString.

Definition safeStringEncodeNums (jsonString : jsstring) : jsstring :=
  let viewString := double_markers jsonString in
  replace_matches viewString
    (numberFinder_matches (S (length viewString)) viewString 0)
    {| wasInQuotes := false; startIndex := 0 |} 0 [].

(* ================================================================== *)
(** * The platform's [JSON.parse] *)
(* ================================================================== *)

(** ** Objects: property creation and enumeration order

    [for ... in] and [Object.keys] visit the array-index keys first, in
    ascending numeric order, then the other keys in the order they were
    created.  An object is kept as its properties in that order, and
    creating a property puts it at its place. *)

(** A canonical array index: decimal digits without a leading zero, at most
    2^32 - 2. *)
Definition is_array_index (k : jsstring) : bool :=
  match k with
  | [] => false
  | c :: r =>
      forallb is_digit k && (negb (N.eqb c 48) || is_nil r)
      && N.leb (digits_value k) 4294967294
  end.

Fixpoint has_key (k : jsstring) (props : list (jsstring * value)) : bool :=
  match props with
  | [] => false
  | (k', _) :: r => jseqb k k' || has_key k r
  end.

Fixpoint obj_replace (k : jsstring) (v : value) (props : list (jsstring * value))
  : list (jsstring * value) :=
  match props with
  | [] => []
  | (k', v') :: r => if jseqb k k' then (k', v) :: r else (k', v') :: obj_replace k v r
  end.

Fixpoint obj_insert_index (k : jsstring) (v : value) (props : list (jsstring * value))
  : list (jsstring * value) :=
  match props with
  | [] => [(k, v)]
  | (k', v') :: r =>
      if is_array_index k' && N.ltb (digits_value k') (digits_value k)
      then (k', v') :: obj_insert_index k v r
      else (k, v) :: props
  end.

(** CreateDataProperty on an ordinary object. *)
Definition obj_define (props : list (jsstring * value)) (k : jsstring) (v : value)
  : list (jsstring * value) :=
  if has_key k props then obj_replace k v props
  else if is_array_index k then obj_insert_index k v props
  else props ++ [(k, v)].

(** ** The parser *)

Definition is_json_ws (c : char16) : bool :=
  N.eqb c 32 || N.eqb c 9 || N.eqb c 10 || N.eqb c 13.

Definition skip_ws (s : jsstring) : jsstring := drop_while is_json_ws s.

Definition hex_value (c : char16) : option N :=
  if is_digit c then Some (c - 48)%N
  else if in_range 65 70 c then Some (c - 55)%N
  else if in_range 97 102 c then Some (c - 87)%N
  else None.

Definition hex4 (a b c d : char16) : option char16 :=
  match hex_value a, hex_value b, hex_value c, hex_value d with
  | Some x, Some y, Some z, Some w => Some (4096 * x + 256 * y + 16 * z + w)%N
  | _, _, _, _ => None
  end.

(** A single-character escape after the backslash. *)
Definition simple_escape (c : char16) : option char16 :=
  if N.eqb c c_quote then Some c_quote
  else if N.eqb c c_bslash then Some c_bslash
  else if N.eqb c 47 then Some 47%N
  else if N.eqb c 98 then Some 8%N
  else if N.eqb c 102 then Some 12%N
  else if N.eqb c 110 then Some 10%N
  else if N.eqb c 114 then Some 13%N
  else if N.eqb c 116 then Some 9%N
  else None.

(** The characters of a string literal after its opening quote: the value
    read and the text after the closing quote. *)
Fixpoint parse_string_body (s : jsstring) (acc : jsstring) : option (jsstring * jsstring) :=
  match s with
  | [] => None
  | c :: r =>
      if N.eqb c c_quote then Some (acc, r)
      else if N.eqb c c_bslash then
        match r with
        | [] => None
        | e :: r' =>
            if N.eqb e 117 then
              match r' with
              | h1 :: h2 :: h3 :: h4 :: r'' =>
                  match hex4 h1 h2 h3 h4 with
                  | Some u => parse_string_body r'' (acc ++ [u])
                  | None => None
                  end
              | _ => None
              end
            else
              match simple_escape e with
              | Some u => parse_string_body r' (acc ++ [u])
              | None => None
              end
        end
      else if N.ltb c 32 then None
      else parse_string_body r (acc ++ [c])
  end.

(** The fraction of a number token: a dot must be followed by digits. *)
Definition lex_frac (s : jsstring) : option (jsstring * jsstring) :=
  match s with
  | c :: r =>
      if N.eqb c 46 then
        let (d, r') := span is_digit r in
        if is_nil d then None else Some (c :: d, r')
      else Some ([], s)
  | [] => Some ([], s)
  end.

(** The exponent of a number token: [e] must be followed by digits. *)
Definition lex_exp (s : jsstring) : option (jsstring * jsstring) :=
  match s with
  | c :: r =>
      if is_e c then
        let (sg, r1) := re_sign r in
        let (d, r2) := span is_digit r1 in
        if is_nil d then None else Some (c :: sg ++ d, r2)
      else Some ([], s)
  | [] => Some ([], s)
  end.

Definition lex_number (s : jsstring) : option (jsstring * jsstring) :=
  let (m, r0) := re_minus s in
  match re_int r0 with
  | None => None
  | Some (i, r1) =>
      match lex_frac r1 with
      | None => None
      | Some (f, r2) =>
          match lex_exp r2 with
          | None => None
          | Some (e, r3) => Some (m ++ i ++ f ++ e, r3)
          end
      end
  end.

Fixpoint strip_prefix (p s : jsstring) : option jsstring :=
  match p with
  | [] => Some s
  | a :: p' =>
      match s with
      | c :: s' => if N.eqb c a then strip_prefix p' s' else None
      | [] => None
      end
  end.

Section Parser.
(** The text [toString()] gives for the Number a literal is read as
    (rounding to a double and printing it back are the platform's). *)
Variable number_shown : jsstring -> jsstring.

Definition parse_atom (s : jsstring) : option (value * jsstring) :=
  match strip_prefix (lit "true") s with
  | Some r => Some (VBool true, r)
  | None =>
  match strip_prefix (lit "false") s with
  | Some r => Some (VBool false, r)
  | None =>
  match strip_prefix (lit "null") s with
  | Some r => Some (VNull, r)
  | None =>
  match lex_number s with
  | Some (l, r) => Some (VNum (number_shown l), r)
  | None => None
  end end end end.

(** Recursive descent; [fuel] bounds the depth of the calls.  [None] is a
    SyntaxError. *)
Fixpoint parse_value (fuel : nat) (s : jsstring) {struct fuel} : option (value * jsstring) :=
  match fuel with
  | 0 => None
  | S fuel' =>
      match skip_ws s with
      | [] => None
      | c :: r =>
          if N.eqb c 123 then
            match skip_ws r with
            | c' :: r' =>
                if N.eqb c' 125 then Some (VObj [], r') else parse_members fuel' r []
            | [] => parse_members fuel' r []
            end
          else if N.eqb c 91 then
            match skip_ws r with
            | c' :: r' =>
                if N.eqb c' 93 then Some (VArr [], r') else parse_elements fuel' r []
            | [] => parse_elements fuel' r []
            end
          else if N.eqb c c_quote then
            match parse_string_body r [] with
            | Some (str, r') => Some (VStr str, r')
            | None => None
            end
          else parse_atom (c :: r)
      end
  end
with parse_elements (fuel : nat) (s : jsstring) (acc : list value) {struct fuel}
     : option (value * jsstring) :=
  match fuel with
  | 0 => None
  | S fuel' =>
      match parse_value fuel' s with
      | None => None
      | Some (v, r) =>
          match skip_ws r with
          | 44%N :: r' => parse_elements fuel' r' (acc ++ [v])
          | 93%N :: r' => Some (VArr (acc ++ [v]), r')
          | _ => None
          end
      end
  end
with parse_members (fuel : nat) (s : jsstring) (acc : list (jsstring * value)) {struct fuel}
     : option (value * jsstring) :=
  match fuel with
  | 0 => None
  | S fuel' =>
      match skip_ws s with
      | 34%N :: r =>
          match parse_string_body r [] with
          | None => None
          | Some (k, r1) =>
              match skip_ws r1 with
              | 58%N :: r2 =>
                  match parse_value fuel' r2 with
                  | None => None
                  | Some (v, r3) =>
                      match skip_ws r3 with
                      | 44%N :: r4 => parse_members fuel' r4 (obj_define acc k v)
                      | 125%N :: r4 => Some (VObj (obj_define acc k v), r4)
                      | _ => None
                      end
                  end
              | _ => None
              end
          end
      | _ => None
      end
  end.

(** [JSON.parse(text)], without a reviver. *)
Definition JSON_parse (text : jsstring) : option value :=
  match parse_value (S (length text)) text with
  | Some (v, r) => if is_nil (skip_ws r) then Some v else None
  | None => None
  end.

(** The success path of the host: encode, parse, render the body, the
    renderer having all the room it needs ([render_document_in] has the
    bounded stack). *)
Definition render_document (content : jsstring) : option jsstring :=
  match JSON_parse (safeStringEncodeNums content) with
  | Some jsonObj => Some (jsonToHTMLBody jsonObj)
  | None => None
  end.
End Parser.

(* ================================================================== *)
(** * The renderer on a bounded call stack *)
(* ================================================================== *)

(** [valueToHTML], [arrayToHTML] and [objectToHTML] call each other once
    for each level of nesting of the value, and a call made when the stack
    is full throws a [RangeError], which the callers of the formatter catch.
    [room] is the number of nested calls the stack still has room for,
    counting the calls of these three functions and of [jsonToHTMLBody] and
    [jsonToHTML] above them; the helpers called at a leaf go no deeper than
    two calls, whose room is taken to be there.  [None] stands for the
    exception. *)
Section LoopsIn.
Variable valueToHTML_in : value -> jsstring -> option jsstring.

Fixpoint arrayToHTML_loop_in (len : nat) (rest : list value) (i : nat)
         (path output : jsstring) : option jsstring :=
  match rest with
  | [] => Some output
  | x :: rest' =>
      let subPath := path ++ lit "[" ++ nat_to_js i ++ lit "]" in
      match valueToHTML_in x subPath with
      | None => None
      | Some item =>
          let output := output ++ html "<li>" ++ item in
          let output := if i <? len - 1 then output ++ lit "," else output in
          let output := output ++ html "</li>" in
          arrayToHTML_loop_in len rest' (S i) path output
      end
  end.

Fixpoint objectToHTML_loop_in (rest : list (jsstring * value)) (numProps : nat)
         (path output : jsstring) : option jsstring :=
  match rest with
  | [] => Some output
  | (prop, v) :: rest' =>
      let escapedProp := slice_1_m1 (JSON_stringify prop) in
      let bare := isBareProp prop in
      let subPath := if bare then path ++ lit "." ++ escapedProp else [] in
      match valueToHTML_in v subPath with
      | None => None
      | Some item =>
          let output :=
            output ++ html "<li><span class='prop" ++ (if bare then [] else lit " quoted")
                   ++ html "' title='" ++ htmlEncode subPath
                   ++ html "'><span class='q'>&quot;</span>" ++ jsString prop
                   ++ html "<span class='q'>&quot;</span></span>: "
                   ++ item in
          let output := if 1 <? numProps then output ++ lit "," else output in
          let output := output ++ html "</li>" in
          objectToHTML_loop_in rest' (numProps - 1) path output
      end
  end.
End LoopsIn.

Fixpoint valueToHTML_in (room : nat) (v : value) (path : jsstring) {struct room}
  : option jsstring :=
  match room with
  | 0 => None
  | S room =>
      match v with
      | VNull => Some (decorateWithSpan (lit "null") (lit "null"))
      | VArr json =>
          (* arrayToHTML *)
          match room with
          | 0 => None
          | S room =>
              if length json =? 0 then Some (lit "[ ]")
              else
                match arrayToHTML_loop_in (valueToHTML_in room) (length json) json 0 path [] with
                | None => None
                | Some output =>
                    Some ((if length json =? 0 then []
                           else html "<span class='collapser'></span>")
                            ++ html "[<ul class='array collapsible'>" ++ output
                            ++ html "</ul>]")
                end
          end
      | VObj json =>
          (* objectToHTML *)
          match room with
          | 0 => None
          | S room =>
              let numProps := length json in
              if numProps =? 0 then Some (lit "{ }")
              else
                match objectToHTML_loop_in (valueToHTML_in room) json numProps path [] with
                | None => None
                | Some output =>
                    Some (html "<span class='collapser'></span>{<ul class='obj collapsible'>"
                            ++ output ++ html "</ul>}")
                end
          end
      | VNum shown => Some (decorateWithSpan shown (lit "num"))
      | VStr s =>
          if (match s with c :: _ => N.eqb c 8203 | [] => false end)
             && negb (isNaN (slice1 s))
          then Some (decorateWithSpan (slice1 s) (lit "num"))
          else if is_url s
          then Some (html "<a href='" ++ htmlEncode s ++ html "'><span class='q'>&quot;</span>"
                       ++ jsString s ++ html "<span class='q'>&quot;</span></a>")
          else Some (html "<span class='string'>&quot;" ++ jsString s ++ html "&quot;</span>")
      | VBool b => Some (decorateWithSpan (if b then lit "true" else lit "false") (lit "bool"))
      | VUndefined => Some []
      end
  end.



Section ParserIn.
Variable number_shown : jsstring -> jsstring.

End ParserIn.

(* ================================================================== *)
(** * Notions the properties are stated with *)
(* ================================================================== *)

(** The message of an error with the prefix and suffix of the implementation
    taken off, as [massageError] computes it before looking for a position. *)
Definition normalized_message (m : jsstring) : jsstring :=
  remove_first (lit "of the JSON data") (strip_JSON_parse m).

(** The JSON number grammar: the whole text is one number token. *)
Definition json_number_literal (s : jsstring) : bool :=
  match lex_number s with
  | Some (_, r) => is_nil r
  | None => false
  end.

(** The quoted string token of the renderer. *)
Definition string_token (s : jsstring) : jsstring :=
  html "<span class='string'>&quot;" ++ jsString s ++ html "&quot;</span>".

(** The numeric token of the renderer. *)
Definition num_token (digits : jsstring) : jsstring :=
  html "<span class='num'>" ++ digits ++ html "</span>".

Definition is_nil_list {A : Type} (l : list A) : bool :=
  match l with [] => true | _ => false end.

(** List items separated by commas, with no comma after the last one. *)
Fixpoint join_items (items : list jsstring) : jsstring :=
  match items with
  | [] => []
  | x :: r =>
      html "<li>" ++ x ++ (if is_nil_list r then [] else lit ",") ++ html "</li>"
        ++ join_items r
  end.

(** The rendered elements of an array from index [i] on, in index order. *)
Fixpoint array_items (path : jsstring) (elems : list value) (i : nat) : list jsstring :=
  match elems with
  | [] => []
  | x :: r =>
      valueToHTML x (path ++ lit "[" ++ nat_to_js i ++ lit "]") :: array_items path r (S i)
  end.

(** The path handed to the value of a key. *)
Definition sub_path (path prop : jsstring) : jsstring :=
  if isBareProp prop then path ++ lit "." ++ quote_body prop else [].

(** The rendered label and value of one property. *)
Definition prop_item (path : jsstring) (kv : jsstring * value) : jsstring :=
  let (prop, v) := kv in
  html "<span class='prop" ++ (if isBareProp prop then [] else lit " quoted")
    ++ html "' title='" ++ htmlEncode (sub_path path prop)
    ++ html "'><span class='q'>&quot;</span>" ++ jsString prop
    ++ html "<span class='q'>&quot;</span></span>: "
    ++ valueToHTML v (sub_path path prop).

(** The object [JSON.parse] builds from the members of an object literal,
    given in the order of the document. *)
Definition obj_of_members (members : list (jsstring * value)) : list (jsstring * value) :=
  fold_left (fun o kv => obj_define o (fst kv) (snd kv)) members [].

(** The enumeration order of [for ... in]: a key that is an array index is
    only preceded by array indices that are not greater. *)
Definition enum_before (k1 k2 : jsstring) : Prop :=
  is_array_index k2 = true ->
  is_array_index k1 = true /\ (digits_value k1 <= digits_value k2)%N.

Definition enum_ordered (props : list (jsstring * value)) : Prop :=
  StronglySorted enum_before (List.map fst props).

(** A non-empty object rendered with one list item per pair of [members],
    in the order of that list. *)
Definition object_in_order (members : list (jsstring * value)) (path : jsstring)
  : jsstring :=
  html "<span class='collapser'></span>{<ul class='obj collapsible'>"
    ++ join_items (List.map (prop_item path) members)
    ++ html "</ul>}".

(** A non-empty array rendered with one list item per element, in index
    order. *)
Definition array_in_order (elems : list value) (path : jsstring) : jsstring :=
  html "<span class='collapser'></span>" ++ html "[<ul class='array collapsible'>"
    ++ join_items (array_items path elems 0)
    ++ html "</ul>]".

(** ** HTML-neutral text and fragments *)

Definition starts_with (p s : jsstring) : bool :=
  match strip_prefix p s with
  | Some _ => true
  | None => false
  end.


(** What [htmlEncode] writes for one code unit. *)
Definition html_entity (c : char16) : jsstring :=
  if N.eqb c c_amp then lit "&amp;"
  else if N.eqb c c_quote then lit "&quot;"
  else if N.eqb c c_lt then lit "&lt;"
  else if N.eqb c c_gt then lit "&gt;"
  else [c].



(** ** The encoder seen match by match *)

Definition enc_init : enc_state := {| wasInQuotes := false; startIndex := 0 |}.

(** The matches of [numberFinder] in the text the encoder scans. *)
Definition encoder_matches (viewString : jsstring) : list (nat * jsstring) :=
  numberFinder_matches (S (length viewString)) viewString 0.

(** What the successive calls of [replaceNumbers] answer: for each match its
    index, its text, whether it was classified as inside a string, and its
    replacement. *)
Fixpoint callbacks (viewString : jsstring) (ms : list (nat * jsstring)) (st : enc_state)
  : list (nat * jsstring * bool * jsstring) :=
  match ms with
  | [] => []
  | (index, m) :: ms' =>
      let (replacement, st') := replaceNumbers viewString st m index in
      (index, m, wasInQuotes st', replacement) :: callbacks viewString ms' st'
  end.

Definition encoder_callbacks (jsonString : jsstring) :=
  let viewString := double_markers jsonString in
  callbacks viewString (encoder_matches viewString) enc_init.

(** The classification of a match by a scan from scratch: the whole prefix
    of the text up to the match, from offset 0, starting outside a string. *)
Definition rescan_inside (viewString : jsstring) (index : nat) : bool :=
  isInsideQuotes false (substring viewString 0 index).

(** The encoder that scans from the start of the text for every match. *)
Fixpoint replace_matches_rescan (viewString : jsstring) (ms : list (nat * jsstring))
         (nextSourcePosition : nat) (acc : jsstring) : jsstring :=
  match ms with
  | [] => acc ++ substring_from viewString nextSourcePosition
  | (index, m) :: ms' =>
      let replacement := if rescan_inside viewString index then m else wrap_number m in
      replace_matches_rescan viewString ms' (index + length m)
        (acc ++ substring viewString nextSourcePosition index ++ replacement)
  end.

Definition safeStringEncodeNums_rescan (jsonString : jsstring) : jsstring :=
  let viewString := double_markers jsonString in
  replace_matches_rescan viewString (encoder_matches viewString) 0 [].

(** Quote parity as the specification words it: going through the
    characters, a double quote toggles the flag unless it is escaped, that
    is, unless the run of backslashes just before it has odd length.
    [before] holds the characters already passed, the latest first. *)
Fixpoint backslash_run (before : jsstring) : nat :=
  match before with
  | c :: r => if N.eqb c c_bslash then S (backslash_run r) else 0
  | [] => 0
  end.

Fixpoint quote_parity_from (before s : jsstring) (inside : bool) : bool :=
  match s with
  | [] => inside
  | c :: r =>
      quote_parity_from (c :: before) r
        (if N.eqb c c_quote && Nat.even (backslash_run before) then negb inside else inside)
  end.

Definition inside_string (prefix : jsstring) : bool := quote_parity_from [] prefix false.

(** The scan of [isInsideQuotes] as a left-to-right automaton: the flag, and
    whether the run of backslashes just passed has odd length. *)
Definition scan_step (st : bool * bool) (c : char16) : bool * bool :=
  let (q, e) := st in
  if N.eqb c c_quote then ((if e then q else negb q), false)
  else if N.eqb c c_bslash then (q, negb e)
  else (q, false).

Definition scan (s : jsstring) (st : bool * bool) : bool * bool := fold_left scan_step s st.

(** Characters a match of [numberFinder] is made of are neither quotes nor
    backslashes nor control characters. *)
Definition plain_char (c : char16) : bool :=
  negb (N.eqb c c_quote) && negb (N.eqb c c_bslash) && negb (N.ltb c 32).

(** The text [replace] builds from the answers of the replacer: the text
    between the matches is copied, each match gives way to its replacement. *)
Fixpoint assemble (viewString : jsstring) (cbs : list (nat * jsstring * bool * jsstring))
         (nextSourcePosition : nat) (acc : jsstring) : jsstring :=
  match cbs with
  | [] => acc ++ substring_from viewString nextSourcePosition
  | (index, m, _, replacement) :: cbs' =>
      assemble viewString cbs' (index + length m)
        (acc ++ substring viewString nextSourcePosition index ++ replacement)
  end.

(** ** Induction on values, through the lists of arrays and objects *)

Section ValueInduction.
Variable P : value -> Prop.
Hypothesis HNull : P VNull.
Hypothesis HBool : forall b, P (VBool b).
Hypothesis HNum : forall n, P (VNum n).
Hypothesis HStr : forall s, P (VStr s).
Hypothesis HArr : forall l, Forall P l -> P (VArr l).
Hypothesis HObj : forall props, Forall (fun kv => P (snd kv)) props -> P (VObj props).
Hypothesis HUndef : P VUndefined.

Fixpoint value_nested_ind (v : value) : P v :=
  match v with
  | VNull => HNull
  | VBool b => HBool b
  | VNum n => HNum n
  | VStr s => HStr s
  | VArr l =>
      HArr ((fix go (l : list value) : Forall P l :=
               match l with
               | [] => Forall_nil _
               | x :: r => Forall_cons x (value_nested_ind x) (go r)
               end) l)
  | VObj props =>
      HObj ((fix go (l : list (jsstring * value)) : Forall (fun kv => P (snd kv)) l :=
               match l with
               | [] => Forall_nil _
               | kv :: r => Forall_cons kv (value_nested_ind (snd kv)) (go r)
               end) props)
  | VUndefined => HUndef
  end.
End ValueInduction.

(** ** The encoder as a fold over the matches

    The state is the pair the automaton [scan] runs on; after a match the
    run of backslashes is empty.  [fuel] bounds the number of matches. *)
Fixpoint encode_fold (fuel : nat) (s : jsstring) (st : bool * bool) : jsstring :=
  match fuel with
  | 0 => s
  | S fuel' =>
      match numberFinder_exec s 0 with
      | None => s
      | Some (k, m, r) =>
          let q := fst (scan (firstn k s) st) in
          firstn k s ++ (if q then m else wrap_number m) ++ encode_fold fuel' r (q, false)
      end
  end.

(** The text the encoder makes of [s] when the scan enters [s] in state
    [st]. *)
Definition encode_from (s : jsstring) (st : bool * bool) : jsstring :=
  encode_fold (S (length s)) s st.

(* ================================================================== *)
(** * Valid JSON documents *)
(* ================================================================== *)

(** A document is given by its syntax tree, white space included, so that
    every valid JSON text is the text of a well-formed tree. *)

(** The characters of a string literal. *)
Inductive sitem : Type :=
| SChar (c : char16)                (* a character written as it is *)
| SEsc (e : char16)                 (* a backslash and one character *)
| SUni (h1 h2 h3 h4 : char16).      (* a backslash, [u] and four hex digits *)

Definition sitem_ok (i : sitem) : bool :=
  match i with
  | SChar c => negb (N.ltb c 32) && negb (N.eqb c c_quote) && negb (N.eqb c c_bslash)
  | SEsc e => match simple_escape e with Some _ => true | None => false end
  | SUni a b c d => match hex4 a b c d with Some _ => true | None => false end
  end.

Definition sitem_text (i : sitem) : jsstring :=
  match i with
  | SChar c => [c]
  | SEsc e => [c_bslash; e]
  | SUni a b c d => [c_bslash; 117%N; a; b; c; d]
  end.

Definition sitem_value (i : sitem) : jsstring :=
  match i with
  | SChar c => [c]
  | SEsc e => match simple_escape e with Some u => [u] | None => [] end
  | SUni a b c d => match hex4 a b c d with Some u => [u] | None => [] end
  end.

Definition items_text (items : list sitem) : jsstring := flat_map sitem_text items.

Definition string_text (items : list sitem) : jsstring :=
  [c_quote] ++ items_text items ++ [c_quote].

Definition string_value (items : list sitem) : jsstring := flat_map sitem_value items.

Inductive jtext : Type :=
| TNull
| TTrue
| TFalse
| TNum (l : jsstring)
| TStr (items : list sitem)
| TArr0 (w : jsstring)
| TArr (es : jelems)
| TObj0 (w : jsstring)
| TObj (ms : jmembers)
with jelems : Type :=
| EOne (w1 : jsstring) (v : jtext) (w2 : jsstring)
| ECons (w1 : jsstring) (v : jtext) (w2 : jsstring) (rest : jelems)
with jmembers : Type :=
| MOne (w1 : jsstring) (k : list sitem) (w2 w3 : jsstring) (v : jtext) (w4 : jsstring)
| MCons (w1 : jsstring) (k : list sitem) (w2 w3 : jsstring) (v : jtext) (w4 : jsstring)
        (rest : jmembers).

Scheme jtext_mut := Induction for jtext Sort Prop
with jelems_mut := Induction for jelems Sort Prop
with jmembers_mut := Induction for jmembers Sort Prop.
Combined Scheme jtext_mutind from jtext_mut, jelems_mut, jmembers_mut.

(** The text of a tree. *)
Fixpoint text_of (t : jtext) : jsstring :=
  match t with
  | TNull => lit "null"
  | TTrue => lit "true"
  | TFalse => lit "false"
  | TNum l => l
  | TStr items => string_text items
  | TArr0 w => lit "[" ++ w ++ lit "]"
  | TArr es => lit "[" ++ elems_text es ++ lit "]"
  | TObj0 w => lit "{" ++ w ++ lit "}"
  | TObj ms => lit "{" ++ members_text ms ++ lit "}"
  end
with elems_text (es : jelems) : jsstring :=
  match es with
  | EOne w1 v w2 => w1 ++ text_of v ++ w2
  | ECons w1 v w2 rest => w1 ++ text_of v ++ w2 ++ lit "," ++ elems_text rest
  end
with members_text (ms : jmembers) : jsstring :=
  match ms with
  | MOne w1 k w2 w3 v w4 =>
      w1 ++ string_text k ++ w2 ++ lit ":" ++ w3 ++ text_of v ++ w4
  | MCons w1 k w2 w3 v w4 rest =>
      w1 ++ string_text k ++ w2 ++ lit ":" ++ w3 ++ text_of v ++ w4
         ++ lit "," ++ members_text rest
  end.

Definition is_ws (w : jsstring) : bool := forallb is_json_ws w.

(** Well-formed trees: white space is JSON white space, number literals
    follow the number grammar, string literals hold legal characters and
    escapes. *)
Fixpoint wf_text (t : jtext) : bool :=
  match t with
  | TNull | TTrue | TFalse => true
  | TNum l => json_number_literal l
  | TStr items => forallb sitem_ok items
  | TArr0 w => is_ws w
  | TArr es => wf_elems es
  | TObj0 w => is_ws w
  | TObj ms => wf_members ms
  end
with wf_elems (es : jelems) : bool :=
  match es with
  | EOne w1 v w2 => is_ws w1 && wf_text v && is_ws w2
  | ECons w1 v w2 rest => is_ws w1 && wf_text v && is_ws w2 && wf_elems rest
  end
with wf_members (ms : jmembers) : bool :=
  match ms with
  | MOne w1 k w2 w3 v w4 =>
      is_ws w1 && forallb sitem_ok k && is_ws w2 && is_ws w3 && wf_text v && is_ws w4
  | MCons w1 k w2 w3 v w4 rest =>
      is_ws w1 && forallb sitem_ok k && is_ws w2 && is_ws w3 && wf_text v && is_ws w4
      && wf_members rest
  end.

(** The value of a tree; [number_shown] as for [JSON_parse]. *)
Section ValueOf.
Variable number_shown : jsstring -> jsstring.

Fixpoint value_of (t : jtext) : value :=
  match t with
  | TNull => VNull
  | TTrue => VBool true
  | TFalse => VBool false
  | TNum l => VNum (number_shown l)
  | TStr items => VStr (string_value items)
  | TArr0 _ => VArr []
  | TArr es => VArr (elems_values es)
  | TObj0 _ => VObj []
  | TObj ms => VObj (members_object ms [])
  end
with elems_values (es : jelems) : list value :=
  match es with
  | EOne _ v _ => [value_of v]
  | ECons _ v _ rest => value_of v :: elems_values rest
  end
with members_object (ms : jmembers) (acc : list (jsstring * value))
  : list (jsstring * value) :=
  match ms with
  | MOne _ k _ _ v _ => obj_define acc (string_value k) (value_of v)
  | MCons _ k _ _ v _ rest =>
      members_object rest (obj_define acc (string_value k) (value_of v))
  end.
End ValueOf.

(** ** What the encoder makes of a document *)

(** Markers written in a string literal are doubled. *)
Definition double_item (i : sitem) : list sitem :=
  match i with
  | SChar c => if N.eqb c c_marker then [SChar c; SChar c] else [i]
  | _ => [i]
  end.

Definition double_items (items : list sitem) : list sitem := flat_map double_item items.

(** A number literal becomes a string literal that starts with the marker. *)
Definition tagged_number (l : jsstring) : list sitem :=
  SChar c_marker :: List.map SChar l.

Section MapTree.
Variable on_number : jsstring -> jtext.

Fixpoint map_tree (t : jtext) : jtext :=
  match t with
  | TNum l => on_number l
  | TStr items => TStr (double_items items)
  | TArr es => TArr (map_elems es)
  | TObj ms => TObj (map_members ms)
  | TNull | TTrue | TFalse | TArr0 _ | TObj0 _ => t
  end
with map_elems (es : jelems) : jelems :=
  match es with
  | EOne w1 v w2 => EOne w1 (map_tree v) w2
  | ECons w1 v w2 rest => ECons w1 (map_tree v) w2 (map_elems rest)
  end
with map_members (ms : jmembers) : jmembers :=
  match ms with
  | MOne w1 k w2 w3 v w4 => MOne w1 (double_items k) w2 w3 (map_tree v) w4
  | MCons w1 k w2 w3 v w4 rest =>
      MCons w1 (double_items k) w2 w3 (map_tree v) w4 (map_members rest)
  end.
End MapTree.

(** The tree of the encoded text: markers doubled, numbers tagged. *)
Definition encode_tree : jtext -> jtext := map_tree (fun l => TStr (tagged_number l)).

(** The tree with its markers doubled and its numbers kept. *)
Definition double_tree : jtext -> jtext := map_tree TNum.

(** What may follow a number token: the end of the text, or a character
    that continues no number. *)
Definition delimited (rest : jsstring) : bool :=
  match rest with
  | [] => true
  | c :: _ => negb (is_digit c || N.eqb c 46 || is_e c)
  end.

(** The number of markers in a text. *)
Definition count_markers (s : jsstring) : nat := count_occ N.eq_dec s c_marker.

(** The characters number literals are made of. *)
Definition num_char (c : char16) : bool :=
  is_digit c || is_sign c || N.eqb c 46 || is_e c.

(** Characters that start no match of [numberFinder] and leave the scan
    outside a string as it is. *)
Definition inert (c : char16) : bool :=
  negb (N.eqb c 45) && negb (is_digit c) && negb (N.eqb c c_quote) && negb (N.eqb c c_bslash).

Definition map_fst {A B C : Type} (f : A -> C) (o : option (A * B)) : option (C * B) :=
  match o with
  | Some (a, b) => Some (f a, b)
  | None => None
  end.

(** Inside a string: the text up to the closing quote, the first quote that
    is not escaped, and the text after it.  [e] tells whether the run of
    backslashes just passed has odd length. *)
Fixpoint split_at_close (s : jsstring) (e : bool) : option (jsstring * jsstring) :=
  match s with
  | [] => None
  | c :: r =>
      if N.eqb c c_quote then
        if e then map_fst (cons c) (split_at_close r false) else Some ([], r)
      else if N.eqb c c_bslash then map_fst (cons c) (split_at_close r (negb e))
      else map_fst (cons c) (split_at_close r false)
  end.

(** The depth of calls [parse_value] needs for a tree. *)
Fixpoint need (t : jtext) : nat :=
  match t with
  | TArr es => S (need_elems es)
  | TObj ms => S (need_members ms)
  | _ => 1
  end
with need_elems (es : jelems) : nat :=
  match es with
  | EOne _ v _ => S (need v)
  | ECons _ v _ rest => S (Nat.max (need v) (need_elems rest))
  end
with need_members (ms : jmembers) : nat :=
  match ms with
  | MOne _ _ _ _ v _ => S (need v)
  | MCons _ _ _ _ v _ rest => S (Nat.max (need v) (need_members rest))
  end.




(** The hyperlink of the renderer, for a string that looks like a URL. *)
Definition link_token (s : jsstring) : jsstring :=
  html "<a href='" ++ htmlEncode s ++ html "'><span class='q'>&quot;</span>"
    ++ jsString s ++ html "<span class='q'>&quot;</span></a>".

(** A string rendered as a string: quoted, inside a hyperlink or not. *)
Definition quoted_token (s : jsstring) : jsstring :=
  if is_url s then link_token s else string_token s.

(** No escape sequence of the literal stands for the marker: every marker
    of the string is written as it is. *)
Definition literal_markers (items : list sitem) : bool :=
  forallb (fun i => match i with
                    | SUni a b c d =>
                        match hex4 a b c d with
                        | Some u => negb (N.eqb u c_marker)
                        | None => true
                        end
                    | _ => true
                    end) items.

(** ** Notions used in the proofs about the encoder *)

(** The list of matches of a text: each match sits at its index, after the
    end of the previous one. *)
Inductive matches_in (vs : jsstring) : nat -> list (nat * jsstring) -> Prop :=
| matches_nil (lo : nat) : matches_in vs lo []
| matches_cons (lo index : nat) (m : jsstring) (ms : list (nat * jsstring)) :
    lo <= index ->
    (exists post, vs = firstn index vs ++ m ++ post /\ length (firstn index vs) = index) ->
    forallb plain_char m = true -> m <> [] ->
    matches_in vs (index + length m) ms ->
    matches_in vs lo ((index, m) :: ms).

(** Whether the run of backslashes that ends [a] has odd length. *)
Definition odd_run (a : jsstring) : bool := lookback_loop a (length a) false.

(** What the closure variables hold between two calls: the offset where the
    last match ended and the parity of the text up to there, which does not
    end in a backslash. *)
Definition enc_inv (vs : jsstring) (st : enc_state) : Prop :=
  scan (firstn (startIndex st) vs) (false, false) = (wasInQuotes st, false).

(** Characters other than the marker. *)
Definition no_marker (c : char16) : bool := negb (N.eqb c c_marker).

(** What closes an element or a member: a comma, a bracket or a brace. *)
Definition closer (c : char16) : bool :=
  inert c && negb (N.eqb c 46) && negb (is_e c).

(* ================================================================== *)
(** * What reaches the page *)
(* ================================================================== *)


(** [x] is the value [v] or sits somewhere inside it, as an element of an
    array or as the value of a property. *)
Inductive occurs_in (x : value) : value -> Prop :=
| occurs_here : occurs_in x x
| occurs_elem (elems : list value) (v : value) :
    In v elems -> occurs_in x v -> occurs_in x (VArr elems)
| occurs_prop (props : list (jsstring * value)) (k : jsstring) (v : value) :
    In (k, v) props -> occurs_in x v -> occurs_in x (VObj props).






(** The string literal begins with an escape sequence that stands for the
    marker. *)
Definition escaped_marker_first (items : list sitem) : bool :=
  match items with
  | SUni a b c d :: _ =>
      match hex4 a b c d with
      | Some u => N.eqb u c_marker
      | None => false
      end
  | _ => false
  end.

(** ** The enumeration order, from the members of the document *)

(** The keys in the order of their first occurrence, each once. *)
Fixpoint first_keys (ks : list jsstring) : list jsstring :=
  match ks with
  | [] => []
  | k :: r => k :: filter (fun x => negb (jseqb k x)) (first_keys r)
  end.

(** The value of the last member with key [k]. *)
Definition final_value (k : jsstring) (members : list (jsstring * value)) : option value :=
  fold_left (fun r kv => if jseqb k (fst kv) then Some (snd kv) else r) members None.

Definition other_key (k : jsstring) : bool := negb (is_array_index k).

(* ================================================================== *)
(** * The document shell *)
(* ================================================================== *)





(* ================================================================== *)
(** * The background script *)
(* ================================================================== *)

(** ** The content type test

    [/^text\/([a-z]+\+)?xml($|;)/.test(v)].  The optional group matches when
    the run of lower-case letters is not empty and is followed by [+] (a
    shorter run is followed by a letter, so giving letters back never
    helps); when what follows the group does not match, the group is
    skipped. *)

(** [xml($|;)] at the start of [s] *)
Definition xml_end (s : jsstring) : bool :=
  match strip_prefix (lit "xml") s with
  | Some r => match r with
              | [] => true
              | c :: _ => N.eqb c 59
              end
  | None => false
  end.

(** [([a-z]+\+)] at the start of [s]: the text after the group. *)
Definition subtype_group (s : jsstring) : option jsstring :=
  let (letters, r) := span is_lower s in
  if is_nil letters then None
  else match r with
       | c :: r' => if N.eqb c 43 then Some r' else None
       | [] => None
       end.

Definition jsonContentType_test (v : jsstring) : bool :=
  match strip_prefix (lit "text/") v with
  | None => false
  | Some s =>
      (match subtype_group s with
       | Some r => xml_end r
       | None => false
       end)
      || xml_end s
  end.

(** ** Sets of strings

    A JavaScript [Set] keeps its elements in insertion order, each once. *)
Definition set_has (u : jsstring) (s : list jsstring) : bool := existsb (jseqb u) s.

Definition set_add (u : jsstring) (s : list jsstring) : list jsstring :=
  if set_has u s then s else s ++ [u].

Definition set_delete (u : jsstring) (s : list jsstring) : list jsstring :=
  filter (fun x => negb (jseqb u x)) s.

(** ** Headers, requests and the state of the script *)

(** A response header; the value is missing when the header is binary. *)
Record header : Type := { h_name : jsstring; h_value : option jsstring }.

Record details : Type :=
  { d_requestId : N; d_url : jsstring; d_responseHeaders : option (list header) }.

(** What the browser offers: [browser.webRequest.filterResponseData] (seen
    by [detectJSON]) and [chrome.webRequest.filterResponseData] (seen by
    the message listener). *)
Record platform : Type := { browser_filter : bool; chrome_filter : bool }.

(** The state of the background script: the URLs that contain JSON content,
    and the requests a response filter was installed for, one entry per call
    of [transformResponseToJSON]. *)
Record host : Type := { jsonUrls : list jsstring; filters : list (N * jsstring) }.

Definition ascii_lower (c : char16) : char16 :=
  if is_upper c then (c + 32)%N else c.

(** [name.toLowerCase() === "content-type"].  No character outside ASCII
    becomes a letter of [content-type] in lower case, so only the ASCII
    letters matter. *)
Definition is_content_type (name : jsstring) : bool :=
  jseqb (List.map ascii_lower name) (lit "content-type").

(** [header.value && jsonContentType.test(header.value)] *)
Definition json_header_value (v : option jsstring) : bool :=
  match v with
  | Some s => negb (is_nil s) && jsonContentType_test s
  | None => false
  end.

(** The [for ... of] loop of [detectJSON].  The headers are mutated in
    place: the list returned is the array after the loop. *)
Fixpoint detectJSON_loop (p : platform) (event : details) (headers : list header)
         (st : host) : list header * host :=
  match headers with
  | [] => ([], st)
  | h :: rest =>
      let (h', st') :=
        if is_content_type (h_name h) && json_header_value (h_value h) then
          if browser_filter p then
            ({| h_name := h_name h; h_value := Some (lit "text/html") |},
             {| jsonUrls := jsonUrls st;
                filters := filters st ++ [(d_requestId event, d_url event)] |})
          else
            (h, {| jsonUrls := set_add (d_url event) (jsonUrls st); filters := filters st |})
        else (h, st) in
      let (rest', st'') := detectJSON_loop p event rest st' in
      (h' :: rest', st'')
  end.

(** [detectJSON(event)]: the [responseHeaders] of the object returned, when
    one is returned, and the new state. *)
Definition detectJSON (p : platform) (event : details) (st : host)
  : option (list header) * host :=
  match d_responseHeaders event with
  | None => (None, st)
  | Some headers =>
      let (headers', st') := detectJSON_loop p event headers st in
      (Some headers', st')
  end.

Definition ends_with (suffix s : jsstring) : bool := starts_with (rev suffix) (rev s).

(** The listener of [chrome.runtime.onMessage]: what is sent back to the
    content script, and the new state. *)
Definition onMessage (p : platform) (sender_url : jsstring) (st : host) : bool * host :=
  if starts_with (lit "file://") sender_url && ends_with (lit ".json") sender_url
  then (true, st)
  else if chrome_filter p then (false, st)
  else (set_has sender_url (jsonUrls st),
        {| jsonUrls := set_delete sender_url (jsonUrls st); filters := filters st |}).

Section Host.
(** The resources, the message of the locale, the conversion of number
    literals, the error [JSON.parse] throws at a text it rejects, the error
    thrown when the stack is full, and the room the stack has when the
    handler runs. *)
Variables viewer_css viewer_js errorParsing : jsstring.
Variable number_shown : jsstring -> jsstring.
Variable syntaxError : jsstring -> Error.
Variable rangeError : Error.
Variable room : nat.

End Host.

(* ================================================================== *)
(** * The content script *)
(* ================================================================== *)






Section ContentScript.
Variable errorParsing : jsstring.
Variable number_shown : jsstring -> jsstring.
Variable syntaxError : jsstring -> Error.
Variable rangeError : Error.
Variable room : nat.

End ContentScript.

(* ================================================================== *)
(** * Further notions the properties are stated with *)
(* ================================================================== *)

Definition not_digit (c : char16) : bool := negb (is_digit c).


(** A document without number values whose strings hold no marker. *)
Definition item_no_marker (i : sitem) : bool :=
  match i with
  | SChar c => negb (N.eqb c c_marker)
  | _ => true
  end.

Fixpoint plain_tree (t : jtext) : bool :=
  match t with
  | TNum _ => false
  | TStr items => forallb item_no_marker items
  | TArr es => plain_elems es
  | TObj ms => plain_members ms
  | TNull | TTrue | TFalse | TArr0 _ | TObj0 _ => true
  end
with plain_elems (es : jelems) : bool :=
  match es with
  | EOne _ v _ => plain_tree v
  | ECons _ v _ rest => plain_tree v && plain_elems rest
  end
with plain_members (ms : jmembers) : bool :=
  match ms with
  | MOne _ k _ _ v _ => forallb item_no_marker k && plain_tree v
  | MCons _ k _ _ v _ rest => forallb item_no_marker k && plain_tree v && plain_members rest
  end.

(** A value whose rendering mentions no path: its arrays hold such values,
    and the keys of its objects are not bare (their values are rendered at
    the empty path whatever they are). *)
Fixpoint path_free (v : value) : bool :=
  match v with
  | VArr elems => forallb path_free elems
  | VObj props => forallb (fun kv => negb (isBareProp (fst kv))) props
  | _ => true
  end.

Definition not_space (c : char16) : bool := negb (is_js_space c).

(** The characters a line of [highlightError] can hold: all but the two
    Unicode separators, which end a line without belonging to it. *)
Definition not_separator (c : char16) : bool := negb (N.eqb c 8232 || N.eqb c 8233).

(** The line an error is reported in, cut at the column of the error. *)
Definition marked_line (line : jsstring) (columnNum : N) : jsstring :=
  html "<span class='errorline'>"
    ++ htmlEncode (firstn (N.to_nat (columnNum - 1)) line)
    ++ html "<span class='errorcolumn'>"
    ++ htmlEncode (firstn 1 (skipn (N.to_nat (columnNum - 1)) line))
    ++ html "</span>"
    ++ htmlEncode (skipn (N.to_nat columnNum) line)
    ++ html "</span>".

(** The test [detectJSON] makes on a header. *)
Definition is_json_header (h : header) : bool :=
  is_content_type (h_name h) && json_header_value (h_value h).

(** A header as [detectJSON] leaves it when the response is filtered. *)
Definition as_html (h : header) : header :=
  if is_json_header h then {| h_name := h_name h; h_value := Some (lit "text/html") |} else h.

(** The sender is a local file whose name ends in [.json]. *)
Definition local_json (url : jsstring) : bool :=
  starts_with (lit "file://") url && ends_with (lit ".json") url.


(* ================================================================== *)
(** * Properties of the error page *)
(* ================================================================== *)

Lemma htmlEncode_app (a b : jsstring) : htmlEncode (a ++ b) = htmlEncode a ++ htmlEncode b.
Proof.
  unfold htmlEncode, replace_all_char. now rewrite !flat_map_app.
Qed.

Lemma htmlEncode_nul : htmlEncode [c_nul] = [c_nul].
Proof. reflexivity. Qed.

Lemma In_nul_htmlEncode (s : jsstring) : In c_nul s -> In c_nul (htmlEncode s).
Proof.
  intros H. apply in_split in H. destruct H as (a & b & ->).
  rewrite htmlEncode_app. change (c_nul :: b) with ([c_nul] ++ b).
  rewrite htmlEncode_app, htmlEncode_nul.
  apply in_or_app. right. now left.
Qed.

Lemma highlightError_two_nuls (l c : option N) :
  In c_nul (highlightError [c_fffd; c_nul] l c).
Proof.
  unfold highlightError.
  destruct (falsy l || falsy c) eqn:F.
  - apply In_nul_htmlEncode. now right; left.
  - destruct l as [l|]; [|discriminate]. destruct c as [c|]; [|now rewrite orb_true_r in F].
    apply orb_false_iff in F. destruct F as [Fl Fc]. cbn in Fl, Fc.
    apply N.eqb_neq in Fc.
    cbn [split_lines N.eqb c_fffd c_nul Pos.eqb orb app highlightError_loop].
    destruct (N.eqb (N.of_nat 0) (l - 1)).
    + destruct (N.eq_dec c 1) as [->|C1]; [vm_compute; tauto|].
      destruct (N.eq_dec c 2) as [->|C2]; [vm_compute; tauto|].
      assert (E : substring [c_fffd; c_nul] 0 (N.to_nat (c - 1)) = [c_fffd; c_nul]).
      { unfold substring. cbn [length].
        replace (Nat.min (N.to_nat (c - 1)) 2) with 2 by lia. reflexivity. }
      rewrite E. cbn [app]. apply in_or_app. right. apply in_or_app. left.
      apply in_or_app. left. apply In_nul_htmlEncode. now right; left.
    + cbn [app]. apply In_nul_htmlEncode. now right; left.
Qed.

(** C8 (the code keeps every NUL after the first).  [errorPageBody] replaces
    NUL with a string pattern, which rewrites the first occurrence only: for
    the text made of two NUL characters, which [JSON.parse] rejects, the
    error page still contains a literal NUL, whatever the error message and
    whatever position it names. *)
Theorem errorPageBody_second_nul_survives :
  JSON_parse (fun l => l) (safeStringEncodeNums [c_nul; c_nul]) = None /\
  forall (errorParsing : jsstring) (error : Error),
    In c_nul (errorPageBody errorParsing error [c_nul; c_nul]).
Proof.
  split; [reflexivity|].
  intros ep error. unfold errorPageBody.
  change (replace_first_char c_nul [c_fffd] [c_nul; c_nul]) with [c_fffd; c_nul].
  apply in_or_app. right. apply in_or_app. right. apply in_or_app. left.
  apply highlightError_two_nuls.
Qed.

(** What the error page is when the message names no position: the raw
    message, and the escaped text without highlight. *)
Lemma errorPageBody_no_position (errorParsing : jsstring) (error : Error) (data : jsstring) :
  line_column_exec (normalized_message (message error)) = None ->
  massageError error
  = {| info_message := message error; info_line := None; info_column := None |}
  /\ errorPageBody errorParsing error data
     = html "<div id='error'>" ++ errorParsing
         ++ (if is_nil (message error) then []
             else html "<div class='errormessage'>" ++ message error ++ html "</div>")
         ++ html "</div><div id='json'>"
         ++ htmlEncode (replace_first_char c_nul [c_fffd] data) ++ html "</div>".
Proof.
  intros H.
  assert (E : massageError error
              = {| info_message := message error; info_line := None; info_column := None |}).
  { unfold massageError. destruct (is_nil (message error)); [reflexivity|].
    unfold normalized_message in H. now rewrite H. }
  split; [exact E|].
  unfold errorPageBody. rewrite E. cbn [info_message info_line info_column].
  unfold highlightError. cbn [falsy orb].
  destruct (is_nil (message error)); cbn [negb]; now rewrite <- ?app_assoc.
Qed.

(** C7 (the fallback returns the raw message).  For a parse error whose
    message names no line and column, [massageError] hands back the error
    itself: the message element of the page is the raw message, neither
    normalised nor HTML-escaped, while the branch that finds a position
    escapes it.  The body is the escaped raw text without highlight. *)
Theorem massageError_fallback_not_escaped :
  (let error := {| message := lit "JSON.parse: unexpected token < in <b>x</b>" |} in
   line_column_exec (normalized_message (message error)) = None /\
   info_message (massageError error) = lit "JSON.parse: unexpected token < in <b>x</b>" /\
   htmlEncode (normalized_message (message error))
   = lit "unexpected token &lt; in &lt;b&gt;x&lt;/b&gt;" /\
   errorPageBody (lit "Error") error (lit "<b>x</b>")
   = html "<div id='error'>Error<div class='errormessage'>"
       ++ lit "JSON.parse: unexpected token < in <b>x</b>"
       ++ html "</div></div><div id='json'>&lt;b&gt;x&lt;/b&gt;</div>")
  /\ (let error := {| message := lit "Unexpected token < in JSON at position 0" |} in
      JSON_parse (fun l => l) (safeStringEncodeNums (lit "<b>x</b>")) = None /\
      errorPageBody (lit "Error") error (lit "<b>x</b>")
      = html "<div id='error'>Error<div class='errormessage'>"
          ++ lit "Unexpected token < in JSON at position 0"
          ++ html "</div></div><div id='json'>&lt;b&gt;x&lt;/b&gt;</div>").
Proof.
  cbv zeta. repeat split; vm_compute; reflexivity.
Qed.

(* ================================================================== *)
(** * Properties of the renderer *)
(* ================================================================== *)

Lemma is_url_marker (rest : jsstring) : is_url (c_marker :: rest) = false.
Proof. reflexivity. Qed.

Lemma valueToHTML_marker (rest path : jsstring) :
  valueToHTML (VStr (c_marker :: rest)) path
  = if isNaN rest then string_token (c_marker :: rest) else num_token (htmlEncode rest).
Proof.
  cbn [valueToHTML slice1 tl]. change (N.eqb c_marker 8203) with true.
  rewrite is_url_marker. cbn [andb].
  destruct (isNaN rest); reflexivity.
Qed.

(** C3, as the code has it.  A string that begins with the marker and whose
    remainder is not a number for the numeric coercion of the platform
    ([isNaN] holds of it, as for [12a]) is rendered as an ordinary quoted
    string token. *)
Theorem marker_not_numeric_is_quoted (rest path : jsstring) :
  isNaN rest = true ->
  valueToHTML (VStr (c_marker :: rest)) path = string_token (c_marker :: rest).
Proof.
  intros H. now rewrite valueToHTML_marker, H.
Qed.

Lemma marker_not_numeric_is_quoted_witness :
  isNaN (lit "12a") = true /\
  valueToHTML (VStr (c_marker :: lit "12a")) (lit "<root>")
  = string_token (c_marker :: lit "12a").
Proof.
  split; [reflexivity | apply (@marker_not_numeric_is_quoted (lit "12a") (lit "<root>")); reflexivity].
Defined.

(** C3 fails as stated: the empty remainder and a numeral padded with white
    space are outside the JSON number grammar, yet the marker followed by
    either is rendered as a bare numeric token.  The lone marker is the
    value of the document made of the string literal with the escape
    sequence of U+200B. *)
Lemma marker_empty_remainder_is_numeric :
  JSON_parse (fun l => l) (safeStringEncodeNums (html "'\u200b'")) = Some (VStr [c_marker]) /\
  json_number_literal [] = false /\
  valueToHTML (VStr [c_marker]) (lit "<root>") = num_token [] /\
  valueToHTML (VStr [c_marker]) (lit "<root>") <> string_token [c_marker] /\
  json_number_literal (lit " 12 ") = false /\
  valueToHTML (VStr (c_marker :: lit " 12 ")) (lit "<root>") = num_token (lit " 12 ").
Proof.
  repeat split; try reflexivity. vm_compute. discriminate.
Qed.

(** C10.  For a key that is not a bare identifier the loop of [objectToHTML]
    emits a label marked [quoted] with an empty [title] and renders the value
    with the empty path: the item does not depend on the path of the parent,
    so every path in the subtree of that key is rebuilt from the empty
    string. *)
Theorem non_bare_key_resets_path
        (prop : jsstring) (v : value) (rest : list (jsstring * value))
        (numProps : nat) (path output : jsstring) :
  isBareProp prop = false ->
  objectToHTML_loop valueToHTML ((prop, v) :: rest) numProps path output
  = objectToHTML_loop valueToHTML rest (numProps - 1) path
      (output
         ++ html "<li><span class='prop quoted' title=''><span class='q'>&quot;</span>"
         ++ jsString prop ++ html "<span class='q'>&quot;</span></span>: "
         ++ valueToHTML v []
         ++ (if 1 <? numProps then lit "," else []) ++ html "</li>").
Proof.
  intros H. cbn [objectToHTML_loop]. rewrite H.
  f_equal. change (htmlEncode []) with (@nil char16).
  destruct (1 <? numProps); repeat rewrite <- app_assoc; reflexivity.
Qed.

Lemma non_bare_key_resets_path_witness :
  isBareProp (lit "a b") = false /\
  objectToHTML [(lit "a b", VArr [VNull])] (lit "<root>")
  = html "<span class='collapser'></span>{<ul class='obj collapsible'>"
      ++ html "<li><span class='prop quoted' title=''><span class='q'>&quot;</span>"
      ++ jsString (lit "a b") ++ html "<span class='q'>&quot;</span></span>: "
      ++ valueToHTML (VArr [VNull]) [] ++ html "</li>" ++ html "</ul>}".
Proof.
  split; [reflexivity|].
  unfold objectToHTML. cbn [valueToHTML length Nat.eqb].
  rewrite (@non_bare_key_resets_path (lit "a b") (VArr [VNull]) [] 1 (lit "<root>") []);
    [|reflexivity].
  reflexivity.
Defined.

(* ================================================================== *)
(** * Order of the rendered items *)
(* ================================================================== *)

Lemma slice_stringify (s : jsstring) : slice_1_m1 (JSON_stringify s) = quote_body s.
Proof.
  unfold slice_1_m1, JSON_stringify. cbn [app tl].
  now rewrite removelast_last.
Qed.

Lemma jsString_quote_body (s : jsstring) : jsString s = htmlEncode (quote_body s).
Proof. unfold jsString. now rewrite slice_stringify. Qed.

Lemma arrayToHTML_loop_items (path : jsstring) (rest : list value) :
  forall (i len : nat) (output : jsstring),
    len = i + length rest ->
    arrayToHTML_loop valueToHTML len rest i path output
    = output ++ join_items (array_items path rest i).
Proof.
  induction rest as [|x rest IH]; intros i len output Hlen.
  - cbn. now rewrite app_nil_r.
  - cbn [arrayToHTML_loop array_items join_items].
    cbn [length] in Hlen.
    rewrite (IH (S i) len) by lia.
    destruct rest as [|y rest].
    + cbn [length] in Hlen.
      replace (i <? len - 1) with false by (symmetry; apply Nat.ltb_ge; lia).
      cbn [is_nil_list array_items join_items]. now rewrite !app_nil_r, <- !app_assoc.
    + cbn [length] in Hlen.
      replace (i <? len - 1) with true by (symmetry; apply Nat.ltb_lt; lia).
      cbn [is_nil_list array_items]. now rewrite <- !app_assoc.
Qed.

Lemma objectToHTML_loop_items (path : jsstring) (rest : list (jsstring * value)) :
  forall (numProps : nat) (output : jsstring),
    numProps = length rest ->
    objectToHTML_loop valueToHTML rest numProps path output
    = output ++ join_items (List.map (prop_item path) rest).
Proof.
  induction rest as [|[prop v] rest IH]; intros numProps output Hlen.
  - cbn. now rewrite app_nil_r.
  - cbn [objectToHTML_loop List.map join_items].
    cbn [length] in Hlen.
    rewrite (IH (numProps - 1)) by lia.
    rewrite slice_stringify.
    change (html "<li><span class='prop") with (html "<li>" ++ html "<span class='prop").
    destruct rest as [|y rest].
    + cbn [length] in Hlen. subst numProps.
      cbn [Nat.ltb Nat.leb is_nil_list List.map join_items]. unfold prop_item, sub_path.
      now rewrite !app_nil_r, <- !app_assoc.
    + cbn [length] in Hlen. subst numProps.
      cbn [Nat.ltb Nat.leb List.map is_nil_list].
      set (J := join_items _). unfold prop_item, sub_path.
      now rewrite <- !app_assoc.
Qed.

Lemma has_key_false_iff (k : jsstring) (props : list (jsstring * value)) :
  has_key k props = false <-> ~ In k (List.map fst props).
Proof.
  induction props as [|[k' v'] r IH]; cbn.
  - tauto.
  - unfold jseqb. destruct (list_eq_dec N.eq_dec k k') as [->|N]; cbn.
    + split; [discriminate | intros H; exfalso; apply H; now left].
    + rewrite IH. split; [intros H [E|E]; [congruence|tauto] | tauto].
Qed.

Lemma obj_of_members_plain (members acc : list (jsstring * value)) :
  NoDup (List.map fst (acc ++ members)) ->
  (forall k, In k (List.map fst members) -> is_array_index k = false) ->
  fold_left (fun o kv => obj_define o (fst kv) (snd kv)) members acc = acc ++ members.
Proof.
  revert acc. induction members as [|[k v] ms IH]; intros acc ND NI.
  - cbn. now rewrite app_nil_r.
  - cbn [fold_left fst snd].
    assert (Hk : has_key k acc = false).
    { apply has_key_false_iff. intros Hin.
      rewrite map_app in ND. cbn in ND.
      apply NoDup_remove_2 in ND. apply ND. apply in_or_app. now left. }
    unfold obj_define. rewrite Hk, (NI k) by (now left).
    rewrite IH.
    + now rewrite <- app_assoc.
    + now rewrite <- app_assoc.
    + intros k' Hk'. apply NI. now right.
Qed.

(** ** Property creation keeps the enumeration order *)

Lemma obj_replace_keys (k : jsstring) (v : value) (ps : list (jsstring * value)) :
  List.map fst (obj_replace k v ps) = List.map fst ps.
Proof.
  induction ps as [|[k' v'] r IH]; [reflexivity|].
  cbn [obj_replace]. destruct (jseqb k k'); cbn [List.map fst]; [reflexivity | now rewrite IH].
Qed.

Lemma obj_insert_index_keys (P : jsstring -> Prop) (k : jsstring) (v : value)
      (ps : list (jsstring * value)) :
  P k -> Forall P (List.map fst ps) -> Forall P (List.map fst (obj_insert_index k v ps)).
Proof.
  intros Hk. induction ps as [|[k' v'] r IH]; intros H; cbn [obj_insert_index].
  - constructor; [exact Hk | constructor].
  - cbn [List.map fst] in H. inversion H as [|x l Hx Hl]; subst.
    destruct (is_array_index k' && N.ltb (digits_value k') (digits_value k)).
    + cbn [List.map fst]. constructor; [exact Hx | now apply IH].
    + cbn [List.map fst]. constructor; [exact Hk | exact H].
Qed.

Lemma obj_insert_index_ordered (k : jsstring) (v : value) (ps : list (jsstring * value)) :
  is_array_index k = true -> enum_ordered ps -> enum_ordered (obj_insert_index k v ps).
Proof.
  intros Hk. unfold enum_ordered.
  induction ps as [|[k' v'] r IH]; intros H; cbn [obj_insert_index].
  - cbn. constructor; constructor.
  - cbn [List.map fst] in H. apply StronglySorted_inv in H. destruct H as [Hr Hall].
    destruct (is_array_index k' && N.ltb (digits_value k') (digits_value k)) eqn:C.
    + apply andb_true_iff in C. destruct C as [C1 C2]. apply N.ltb_lt in C2.
      cbn [List.map fst]. constructor; [now apply IH|].
      apply obj_insert_index_keys; [|exact Hall].
      intros _. split; [exact C1 | lia].
    + cbn [List.map fst]. constructor; [constructor; assumption|].
      assert (Hkk' : enum_before k k').
      { intros Hi. split; [exact Hk|]. rewrite Hi in C. cbn [andb] in C.
        apply N.ltb_ge in C. exact C. }
      constructor; [exact Hkk'|].
      rewrite Forall_forall in Hall |- *. intros x Hx Hi.
      destruct (Hall x Hx Hi) as [Hi' Hle]. destruct (Hkk' Hi') as [_ Hle'].
      split; [exact Hk | lia].
Qed.

Lemma obj_append_ordered (k : jsstring) (v : value) (ps : list (jsstring * value)) :
  is_array_index k = false -> enum_ordered ps -> enum_ordered (ps ++ [(k, v)]).
Proof.
  intros Hk. unfold enum_ordered.
  induction ps as [|[k' v'] r IH]; intros H.
  - cbn. constructor; constructor.
  - cbn [List.map fst app] in *. apply StronglySorted_inv in H. destruct H as [Hr Hall].
    constructor; [now apply IH|].
    rewrite map_app. apply Forall_app. split; [exact Hall|].
    constructor; [|constructor]. intros Hi. cbn [fst] in Hi. congruence.
Qed.

Lemma obj_define_ordered (k : jsstring) (v : value) (ps : list (jsstring * value)) :
  enum_ordered ps -> enum_ordered (obj_define ps k v).
Proof.
  intros H. unfold obj_define. destruct (has_key k ps).
  - unfold enum_ordered. now rewrite obj_replace_keys.
  - destruct (is_array_index k) eqn:Hi.
    + now apply obj_insert_index_ordered.
    + now apply obj_append_ordered.
Qed.

Lemma obj_of_members_ordered (members : list (jsstring * value)) :
  enum_ordered (obj_of_members members).
Proof.
  unfold obj_of_members.
  assert (H : forall acc, enum_ordered acc ->
                          enum_ordered (fold_left (fun o kv => obj_define o (fst kv) (snd kv))
                                                  members acc)).
  { induction members as [|[k v] ms IH]; intros acc Hacc; [exact Hacc|].
    cbn [fold_left]. apply IH. now apply obj_define_ordered. }
  apply H. constructor.
Qed.

Lemma objectToHTML_in_order (props : list (jsstring * value)) (path : jsstring) :
  props <> [] -> objectToHTML props path = object_in_order props path.
Proof.
  intros NE. unfold objectToHTML, object_in_order. cbn [valueToHTML].
  destruct props as [|p props]; [congruence|]. cbn [length Nat.eqb].
  rewrite objectToHTML_loop_items by reflexivity. reflexivity.
Qed.

Lemma arrayToHTML_in_order (elems : list value) (path : jsstring) :
  elems <> [] -> arrayToHTML elems path = array_in_order elems path.
Proof.
  intros NE. unfold arrayToHTML, array_in_order. cbn [valueToHTML].
  destruct elems as [|x elems]; [congruence|]. cbn [length Nat.eqb].
  rewrite arrayToHTML_loop_items by reflexivity. reflexivity.
Qed.

(** C9 fails as stated: in the document [{"b": true, "1": null}] the key [b]
    is inserted first, and the key [1], an array index, is rendered first. *)
Lemma integer_like_key_rendered_first :
  let members := [(lit "b", VBool true); (lit "1", VNull)] in
  JSON_parse (fun l => l) (safeStringEncodeNums (html "{'b': true, '1': null}"))
  = Some (VObj (obj_of_members members))
  /\ objectToHTML (obj_of_members members) (lit "<root>")
     = object_in_order [(lit "1", VNull); (lit "b", VBool true)] (lit "<root>")
  /\ objectToHTML (obj_of_members members) (lit "<root>")
     <> object_in_order members (lit "<root>").
Proof.
  cbv zeta. split; [reflexivity|]. split; [reflexivity|].
  vm_compute. discriminate.
Qed.

(* ================================================================== *)
(** * HTML escaping *)
(* ================================================================== *)

Lemma htmlEncode_unit (c : char16) : htmlEncode [c] = html_entity c.
Proof.
  unfold html_entity, htmlEncode, replace_all_char. cbn [flat_map].
  destruct (N.eqb_spec c c_amp) as [->|Na]; [reflexivity|].
  cbn [app flat_map].
  destruct (N.eqb_spec c c_quote) as [->|Nq]; [reflexivity|].
  cbn [app flat_map].
  destruct (N.eqb_spec c c_lt) as [->|Nl]; [reflexivity|].
  cbn [app flat_map].
  destruct (N.eqb_spec c c_gt) as [->|Ng]; reflexivity.
Qed.

Lemma htmlEncode_cons (c : char16) (t : jsstring) :
  htmlEncode (c :: t) = html_entity c ++ htmlEncode t.
Proof.
  change (c :: t) with ([c] ++ t). now rewrite htmlEncode_app, htmlEncode_unit.
Qed.














(* ================================================================== *)
(** * The encoder: matches and quote parity *)
(* ================================================================== *)

Lemma span_spec (p : char16 -> bool) (s : jsstring) :
  s = fst (span p s) ++ snd (span p s)
  /\ forallb p (fst (span p s)) = true
  /\ match snd (span p s) with [] => True | c :: _ => p c = false end.
Proof.
  induction s as [|c r IH]; cbn [span].
  - now cbn.
  - destruct (p c) eqn:E.
    + destruct (span p r) as [a b]. cbn [fst snd] in *.
      destruct IH as (H1 & H2 & H3). repeat split.
      * cbn. now rewrite <- H1.
      * cbn. now rewrite E, H2.
      * exact H3.
    + cbn. auto.
Qed.

Lemma span_eq (p : char16 -> bool) (s a b : jsstring) :
  span p s = (a, b) ->
  s = a ++ b /\ forallb p a = true /\ match b with [] => True | c :: _ => p c = false end.
Proof.
  intros E. pose proof (span_spec p s) as H. now rewrite E in H.
Qed.

Lemma is_digit_num (c : char16) : is_digit c = true -> num_char c = true.
Proof. unfold num_char. now intros ->. Qed.

Lemma digits_num (d : jsstring) : forallb is_digit d = true -> forallb num_char d = true.
Proof.
  induction d as [|c d IH]; cbn; [auto|].
  intros H. apply andb_true_iff in H. destruct H as [H1 H2].
  now rewrite (is_digit_num _ H1), IH.
Qed.

Lemma num_char_plain (c : char16) : num_char c = true -> plain_char c = true.
Proof.
  unfold num_char, is_digit, is_sign, is_e, in_range, plain_char, c_quote, c_bslash.
  intros H.
  destruct (N.eqb_spec c 34) as [->|]; [discriminate|].
  destruct (N.eqb_spec c 92) as [->|]; [discriminate|].
  destruct (N.ltb_spec c 32) as [L|]; [|reflexivity].
  exfalso.
  destruct (N.leb_spec 48 c); [lia|]. cbn [andb orb] in H.
  destruct (N.eqb_spec c 43); [lia|]. destruct (N.eqb_spec c 45); [lia|].
  destruct (N.eqb_spec c 46); [lia|]. destruct (N.eqb_spec c 101); [lia|].
  destruct (N.eqb_spec c 69); [lia|]. discriminate.
Qed.

Lemma num_chars_plain (m : jsstring) : forallb num_char m = true -> forallb plain_char m = true.
Proof.
  induction m as [|c m IH]; cbn; [auto|].
  intros H. apply andb_true_iff in H. destruct H as [H1 H2].
  now rewrite (num_char_plain _ H1), IH.
Qed.

Lemma forallb_app_true (p : char16 -> bool) (a b : jsstring) :
  forallb p a = true -> forallb p b = true -> forallb p (a ++ b) = true.
Proof. intros. rewrite forallb_app. now apply andb_true_iff. Qed.

Lemma re_minus_spec (s m r : jsstring) :
  re_minus s = (m, r) -> s = m ++ r /\ forallb num_char m = true.
Proof.
  unfold re_minus. destruct s as [|c s'].
  - intros [= <- <-]. now cbn.
  - destruct (N.eqb_spec c 45) as [->|N]; intros [= <- <-]; now cbn.
Qed.

Lemma re_int_spec (s m r : jsstring) :
  re_int s = Some (m, r) -> s = m ++ r /\ forallb num_char m = true /\ m <> [].
Proof.
  unfold re_int. destruct s as [|c s']; [discriminate|].
  destruct (N.eqb_spec c 48) as [->|N].
  - intros [= <- <-]. split; [|split]; [reflexivity | reflexivity | discriminate].
  - destruct (in_range 49 57 c) eqn:R; [|discriminate].
    destruct (span is_digit s') as [d r'] eqn:E. intros [= <- <-].
    apply span_eq in E. destruct E as (E1 & E2 & _).
    split; [|split]; [now rewrite E1 | | discriminate].
    cbn [forallb]. rewrite (digits_num _ E2), andb_true_r.
    apply is_digit_num. unfold is_digit, in_range in *.
    apply andb_true_iff in R. destruct R as [R1 R2].
    apply N.leb_le in R1, R2. apply andb_true_iff. split; apply N.leb_le; lia.
Qed.

Lemma re_frac_spec (s m r : jsstring) :
  re_frac s = (m, r) -> s = m ++ r /\ forallb num_char m = true.
Proof.
  unfold re_frac. destruct s as [|c s']; [intros [= <- <-]; now cbn|].
  destruct (N.eqb_spec c 46) as [->|N]; [|intros [= <- <-]; now cbn].
  destruct (span is_digit s') as [d r'] eqn:E.
  apply span_eq in E. destruct E as (E1 & E2 & _).
  destruct (is_nil d); intros [= <- <-]; [now cbn|].
  split; [now rewrite E1|]. cbn [forallb]. now rewrite (digits_num _ E2).
Qed.

Lemma is_sign_num (c : char16) : is_sign c = true -> num_char c = true.
Proof. unfold num_char. intros ->. now rewrite orb_true_r. Qed.

Lemma is_e_num (c : char16) : is_e c = true -> num_char c = true.
Proof. unfold num_char. intros ->. now rewrite !orb_true_r. Qed.

Lemma re_sign_spec (s m r : jsstring) :
  re_sign s = (m, r) -> s = m ++ r /\ forallb num_char m = true.
Proof.
  unfold re_sign. destruct s as [|c s']; [intros [= <- <-]; now cbn|].
  destruct (is_sign c) eqn:S; intros [= <- <-]; [|now cbn].
  split; [reflexivity|]. cbn [forallb]. now rewrite (is_sign_num _ S).
Qed.

Lemma re_exp_spec (s m r : jsstring) :
  re_exp s = (m, r) -> s = m ++ r /\ forallb num_char m = true.
Proof.
  unfold re_exp. destruct s as [|c s']; [intros [= <- <-]; now cbn|].
  destruct (is_e c) eqn:Ec; [|intros [= <- <-]; now cbn].
  destruct (re_sign s') as [sg r1] eqn:Es.
  destruct (span is_digit r1) as [d r2] eqn:Ed.
  apply re_sign_spec in Es. destruct Es as [Es1 Es2].
  apply span_eq in Ed. destruct Ed as (Ed1 & Ed2 & _).
  destruct (is_nil d); intros [= <- <-]; [now cbn|].
  split.
  - rewrite Es1, Ed1. cbn. now rewrite <- app_assoc.
  - cbn [forallb]. rewrite (forallb_app_true _ _ _ Es2 (digits_num _ Ed2)), andb_true_r.
    now apply is_e_num.
Qed.

(** A match of [numberFinder] is a non-empty prefix of the text made of
    the characters of numbers. *)
Lemma numberFinder_at_num (s m r : jsstring) :
  numberFinder_at s = Some (m, r) ->
  s = m ++ r /\ forallb num_char m = true /\ m <> [].
Proof.
  unfold numberFinder_at.
  destruct (re_minus s) as [mm r0] eqn:E0.
  destruct (re_int r0) as [[i r1]|] eqn:E1; [|discriminate].
  destruct (re_frac r1) as [f r2] eqn:E2.
  destruct (re_exp r2) as [e r3] eqn:E3.
  intros [= <- <-].
  apply re_minus_spec in E0. apply re_int_spec in E1.
  apply re_frac_spec in E2. apply re_exp_spec in E3.
  destruct E0 as [A0 B0], E1 as (A1 & B1 & C1), E2 as [A2 B2], E3 as [A3 B3].
  split; [|split].
  - rewrite A0, A1, A2, A3. now rewrite <- !app_assoc.
  - repeat apply forallb_app_true; assumption.
  - destruct mm; [|discriminate]. destruct i; [congruence|discriminate].
Qed.

Lemma numberFinder_at_spec (s m r : jsstring) :
  numberFinder_at s = Some (m, r) ->
  s = m ++ r /\ forallb plain_char m = true /\ m <> [].
Proof.
  intros H. apply numberFinder_at_num in H. destruct H as (H1 & H2 & H3).
  split; [|split]; auto. now apply num_chars_plain.
Qed.

Lemma numberFinder_exec_spec (s : jsstring) :
  forall (i k : nat) (m r : jsstring),
    numberFinder_exec s i = Some (k, m, r) ->
    exists pre, s = pre ++ m ++ r /\ k = i + length pre
                /\ forallb plain_char m = true /\ m <> [].
Proof.
  induction s as [|c s IH]; intros i k m r; cbn [numberFinder_exec].
  - destruct (numberFinder_at []) as [[m' r']|] eqn:E; [|discriminate].
    intros [= <- <- <-]. apply numberFinder_at_spec in E.
    exists []. cbn. rewrite Nat.add_0_r. tauto.
  - destruct (numberFinder_at (c :: s)) as [[m' r']|] eqn:E.
    + intros [= <- <- <-]. apply numberFinder_at_spec in E.
      exists []. cbn [app length]. rewrite Nat.add_0_r. tauto.
    + intros H. apply IH in H. destruct H as (pre & H1 & H2 & H3 & H4).
      exists (c :: pre). cbn [app length]. rewrite H1. repeat split; auto. lia.
Qed.

Lemma skipn_length_app (a b : jsstring) : skipn (length a) (a ++ b) = b.
Proof. now rewrite skipn_app, skipn_all, Nat.sub_diag. Qed.

Lemma firstn_length_app (a b : jsstring) : firstn (length a) (a ++ b) = a.
Proof. now rewrite firstn_app, firstn_all, Nat.sub_diag, firstn_O, app_nil_r. Qed.

Lemma numberFinder_matches_in (vs : jsstring) (fuel : nat) :
  forall (s done : jsstring),
    vs = done ++ s ->
    matches_in vs (length done) (numberFinder_matches fuel s (length done)).
Proof.
  induction fuel as [|fuel IH]; intros s done Hvs; cbn [numberFinder_matches].
  - constructor.
  - destruct (numberFinder_exec s (length done)) as [[[index m] r]|] eqn:E; [|constructor].
    apply numberFinder_exec_spec in E. destruct E as (pre & E1 & E2 & E3 & E4).
    assert (Hpre : firstn index vs = done ++ pre).
    { rewrite Hvs, E1, app_assoc, E2, <- length_app. apply firstn_length_app. }
    constructor; auto.
    + lia.
    + exists r. rewrite Hpre. split.
      * rewrite Hvs, E1. now rewrite <- app_assoc.
      * rewrite length_app. lia.
    + replace (index + length m) with (length ((done ++ pre) ++ m))
        by (rewrite !length_app; lia).
      apply IH. rewrite Hvs, E1. now rewrite <- !app_assoc.
Qed.

(** ** The loops of [isInsideQuotes] as a left-to-right scan *)

Lemma lookback_loop_negb (str : jsstring) (n : nat) :
  forall e, lookback_loop str n (negb e) = negb (lookback_loop str n e).
Proof.
  induction n as [|n IH]; intros e; cbn [lookback_loop]; [reflexivity|].
  destruct (N.eqb _ _); [apply IH | reflexivity].
Qed.

Lemma lookback_loop_prefix (a b : jsstring) (n : nat) :
  forall e, n <= length a -> lookback_loop (a ++ b) n e = lookback_loop a n e.
Proof.
  induction n as [|n IH]; intros e Hn; cbn [lookback_loop]; [reflexivity|].
  rewrite app_nth1 by lia. destruct (N.eqb _ _); [apply IH; lia | reflexivity].
Qed.

Lemma odd_run_snoc (a : jsstring) (c : char16) :
  odd_run (a ++ [c]) = if N.eqb c c_bslash then negb (odd_run a) else false.
Proof.
  unfold odd_run. rewrite length_app. cbn [length]. rewrite Nat.add_1_r.
  cbn [lookback_loop]. rewrite nth_middle.
  destruct (N.eqb c c_bslash); [|reflexivity].
  change true with (negb false). rewrite lookback_loop_negb.
  now rewrite lookback_loop_prefix by lia.
Qed.

Lemma quotes_loop_scan (b : jsstring) :
  forall (a : jsstring) (q : bool),
    quotes_loop (a ++ b) (length b) (length a) q = fst (scan b (q, odd_run a))
    /\ odd_run (a ++ b) = snd (scan b (q, odd_run a)).
Proof.
  induction b as [|c b IH]; intros a q.
  - cbn. now rewrite app_nil_r.
  - cbn [length quotes_loop]. rewrite nth_middle.
    replace (a ++ c :: b) with ((a ++ [c]) ++ b) by (now rewrite <- app_assoc).
    replace (S (length a)) with (length (a ++ [c])) by (rewrite length_app; cbn; lia).
    rewrite lookback_loop_prefix by (rewrite length_app; lia).
    rewrite lookback_loop_prefix by lia.
    fold (odd_run a).
    unfold scan. cbn [fold_left scan_step]. fold (scan b).
    specialize (IH (a ++ [c])). rewrite odd_run_snoc in IH.
    destruct (N.eqb_spec c c_quote) as [->|Nq].
    + change (N.eqb c_quote c_bslash) with false in IH.
      destruct (odd_run a); cbn [negb]; apply IH.
    + destruct (N.eqb c c_bslash); apply IH.
Qed.

Lemma isInsideQuotes_scan (w : bool) (str : jsstring) :
  isInsideQuotes w str = xorb w (fst (scan str (false, false))).
Proof.
  unfold isInsideQuotes.
  pose proof (quotes_loop_scan str [] false) as [H _]. cbn [app length] in H.
  change (odd_run []) with false in H. rewrite H.
  destruct w; [|reflexivity]. now destruct (fst _).
Qed.

Lemma scan_app (a b : jsstring) (st : bool * bool) : scan (a ++ b) st = scan b (scan a st).
Proof. unfold scan. apply fold_left_app. Qed.

Lemma scan_xorb (s : jsstring) :
  forall (q e : bool),
    scan s (q, e) = (xorb q (fst (scan s (false, e))), snd (scan s (false, e))).
Proof.
  induction s as [|c s IH]; intros q e.
  - cbn. now rewrite xorb_false_r.
  - unfold scan. cbn [fold_left scan_step]. fold (scan s).
    destruct (N.eqb c c_quote).
    + destruct e.
      * apply IH.
      * rewrite (IH (negb q)), (IH (negb false)). cbn [negb fst snd].
        f_equal. now destruct q, (fst (scan s (false, false))).
    + destruct (N.eqb c c_bslash); apply IH.
Qed.

Lemma scan_plain (m : jsstring) :
  forallb plain_char m = true -> m <> [] ->
  forall q e, scan m (q, e) = (q, false).
Proof.
  induction m as [|c m IH]; [congruence|].
  intros H _ q e. cbn [forallb] in H. apply andb_true_iff in H. destruct H as [Hc Hm].
  unfold plain_char in Hc. apply andb_true_iff in Hc. destruct Hc as [Hc _].
  apply andb_true_iff in Hc. destruct Hc as [Hq Hb].
  apply negb_true_iff in Hq, Hb.
  unfold scan. cbn [fold_left scan_step]. rewrite Hq, Hb. fold (scan m).
  destruct m as [|d m]; [reflexivity|]. apply IH; [exact Hm | discriminate].
Qed.

Lemma substring_0 (s : jsstring) (n : nat) : substring s 0 n = firstn n s.
Proof.
  unfold substring. cbn [Nat.min skipn]. rewrite Nat.max_0_l, Nat.sub_0_r.
  destruct (Nat.le_gt_cases n (length s)).
  - now rewrite Nat.min_l.
  - rewrite Nat.min_r by lia. now rewrite !firstn_all2 by lia.
Qed.

Lemma substring_between (pre mid post : jsstring) :
  substring (pre ++ mid ++ post) (length pre) (length pre + length mid) = mid.
Proof.
  unfold substring. rewrite !length_app.
  replace (Nat.min (length pre) (length pre + (length mid + length post)))
    with (length pre) by lia.
  replace (Nat.min (length pre + length mid) (length pre + (length mid + length post)))
    with (length pre + length mid) by lia.
  replace (Nat.min (length pre) (length pre + length mid)) with (length pre) by lia.
  replace (Nat.max (length pre) (length pre + length mid))
    with (length pre + length mid) by lia.
  replace (length pre + length mid - length pre) with (length mid) by lia.
  rewrite skipn_app, skipn_all, Nat.sub_diag. cbn [skipn app].
  rewrite firstn_app, firstn_all, Nat.sub_diag. cbn. now rewrite app_nil_r.
Qed.

Lemma rescan_inside_scan (vs : jsstring) (index : nat) :
  rescan_inside vs index = fst (scan (firstn index vs) (false, false)).
Proof.
  unfold rescan_inside. now rewrite isInsideQuotes_scan, substring_0.
Qed.

(** ** The state carried between the calls *)

Lemma firstn_split (vs : jsstring) (lo index : nat) :
  lo <= index -> index <= length vs ->
  firstn index vs = firstn lo vs ++ substring vs lo index.
Proof.
  intros H1 H2. unfold substring.
  replace (Nat.min lo (length vs)) with lo by lia.
  replace (Nat.min index (length vs)) with index by lia.
  replace (Nat.min lo index) with lo by lia.
  replace (Nat.max lo index) with index by lia.
  rewrite <- (firstn_skipn lo vs) at 1.
  rewrite firstn_app, firstn_firstn, length_firstn.
  replace (Nat.min index lo) with lo by lia.
  now replace (Nat.min lo (length vs)) with lo by lia.
Qed.

Lemma replaceNumbers_step (vs : jsstring) (st : enc_state) (index : nat) (m : jsstring) :
  enc_inv vs st ->
  startIndex st <= index ->
  (exists post, vs = firstn index vs ++ m ++ post /\ length (firstn index vs) = index) ->
  forallb plain_char m = true -> m <> [] ->
  replaceNumbers vs st m index
  = (if rescan_inside vs index then m else wrap_number m,
     {| wasInQuotes := rescan_inside vs index; startIndex := index + length m |})
  /\ enc_inv vs {| wasInQuotes := rescan_inside vs index; startIndex := index + length m |}.
Proof.
  intros Inv Hlo (post & Hvs & Hlen) Hplain Hne.
  assert (Hle : index <= length vs).
  { rewrite <- Hlen. rewrite length_firstn. lia. }
  assert (Hcls : isInsideQuotes (wasInQuotes st) (substring vs (startIndex st) index)
                 = rescan_inside vs index).
  { rewrite rescan_inside_scan, isInsideQuotes_scan.
    rewrite (firstn_split vs Hlo Hle), scan_app. unfold enc_inv in Inv. rewrite Inv.
    now rewrite (scan_xorb _ (wasInQuotes st) false). }
  split.
  - unfold replaceNumbers. now rewrite Hcls.
  - unfold enc_inv. cbn [startIndex wasInQuotes].
    assert (Hpre : firstn (index + length m) vs = firstn index vs ++ m).
    { rewrite Hvs at 1. rewrite <- Hlen at 1.
      rewrite firstn_app_2. now rewrite firstn_length_app. }
    rewrite Hpre, scan_app, rescan_inside_scan.
    destruct (scan (firstn index vs) (false, false)) as [q e]. cbn [fst].
    now apply scan_plain.
Qed.

Lemma callbacks_rescan (vs : jsstring) (ms : list (nat * jsstring)) :
  forall st,
    enc_inv vs st -> matches_in vs (startIndex st) ms ->
    callbacks vs ms st
    = List.map (fun im : nat * jsstring =>
                  (fst im, snd im, rescan_inside vs (fst im),
                   if rescan_inside vs (fst im) then snd im else wrap_number (snd im))) ms.
Proof.
  induction ms as [|[index m] ms IH]; intros st Inv Hms; [reflexivity|].
  inversion Hms as [|lo i m' ms' Hlo Hat Hplain Hne Hrest]; subst.
  destruct (replaceNumbers_step Inv Hlo Hat Hplain Hne) as [E Inv'].
  cbn [callbacks List.map fst snd]. rewrite E. cbn [wasInQuotes].
  f_equal. now apply IH.
Qed.

Lemma replace_matches_rescan_eq (vs : jsstring) (ms : list (nat * jsstring)) :
  forall st next acc,
    enc_inv vs st -> matches_in vs (startIndex st) ms ->
    replace_matches vs ms st next acc = replace_matches_rescan vs ms next acc.
Proof.
  induction ms as [|[index m] ms IH]; intros st next acc Inv Hms; [reflexivity|].
  inversion Hms as [|lo i m' ms' Hlo Hat Hplain Hne Hrest]; subst.
  destruct (replaceNumbers_step Inv Hlo Hat Hplain Hne) as [E Inv'].
  cbn [replace_matches replace_matches_rescan]. rewrite E.
  now apply IH.
Qed.

Lemma encoder_matches_in (vs : jsstring) : matches_in vs 0 (encoder_matches vs).
Proof.
  unfold encoder_matches. apply (@numberFinder_matches_in vs (S (length vs)) vs []).
  reflexivity.
Qed.

Lemma enc_inv_init (vs : jsstring) : enc_inv vs enc_init.
Proof. reflexivity. Qed.

(** C5.  For every input text, the classification each call of
    [replaceNumbers] computes from the carried state (the offset where the
    previous match ended and the parity so far) is the classification a scan
    of the whole prefix up to the match gives, from offset 0 and starting
    outside a string; hence the encoder and the encoder that scans from the
    start for every match return the same text. *)
Theorem incremental_scan_is_rescan (jsonString : jsstring) :
  (forall index m inside replacement,
      In (index, m, inside, replacement) (encoder_callbacks jsonString) ->
      inside = rescan_inside (double_markers jsonString) index)
  /\ List.map (fun cb => fst (fst (fst cb))) (encoder_callbacks jsonString)
     = List.map fst (encoder_matches (double_markers jsonString))
  /\ safeStringEncodeNums jsonString = safeStringEncodeNums_rescan jsonString.
Proof.
  unfold encoder_callbacks.
  rewrite (callbacks_rescan (enc_inv_init _) (encoder_matches_in _)).
  split; [|split].
  - intros index m inside replacement Hin.
    apply in_map_iff in Hin. destruct Hin as ([i m'] & E & _).
    cbn [fst snd] in E. now inversion E; subst.
  - rewrite map_map. apply map_ext. now intros [i m].
  - unfold safeStringEncodeNums, safeStringEncodeNums_rescan.
    apply replace_matches_rescan_eq; [apply enc_inv_init | apply encoder_matches_in].
Qed.

Lemma incremental_scan_is_rescan_witness :
  In (33, lit "42", true, lit "42")
     (encoder_callbacks (html "{'a': 'totally not a number like 42 here', 'b': 7}"))
  /\ true = rescan_inside
              (double_markers (html "{'a': 'totally not a number like 42 here', 'b': 7}")) 33.
Proof.
  assert (H : In (33, lit "42", true, lit "42")
                 (encoder_callbacks (html "{'a': 'totally not a number like 42 here', 'b': 7}"))).
  { vm_compute. tauto. }
  split; [exact H|].
  exact (proj1 (incremental_scan_is_rescan _) _ _ _ _ H).
Defined.

(** ** Numbers inside string literals *)

Lemma quote_parity_scan (s : jsstring) :
  forall (before : jsstring) (q : bool),
    quote_parity_from before s q = fst (scan s (q, Nat.odd (backslash_run before))).
Proof.
  induction s as [|c s IH]; intros before q; [reflexivity|].
  cbn [quote_parity_from]. rewrite IH.
  unfold scan. cbn [fold_left scan_step backslash_run].
  destruct (N.eqb_spec c c_quote) as [->|Nq].
  - change (N.eqb c_quote c_bslash) with false. cbn [andb].
    rewrite <- Nat.negb_odd. now destruct (Nat.odd (backslash_run before)).
  - cbn [andb]. destruct (N.eqb c c_bslash); [|reflexivity].
    now rewrite Nat.odd_succ, <- Nat.negb_odd.
Qed.

Lemma inside_string_rescan (vs : jsstring) (index : nat) :
  inside_string (firstn index vs) = rescan_inside vs index.
Proof.
  unfold inside_string. now rewrite quote_parity_scan, rescan_inside_scan.
Qed.

Lemma replace_matches_assemble (vs : jsstring) (ms : list (nat * jsstring)) :
  forall st next acc,
    replace_matches vs ms st next acc = assemble vs (callbacks vs ms st) next acc.
Proof.
  induction ms as [|[index m] ms IH]; intros st next acc; [reflexivity|].
  cbn [replace_matches callbacks].
  destruct (replaceNumbers vs st m index) as [replacement st'].
  cbn [assemble]. apply IH.
Qed.

(** ** The encoder as a fold over the matches *)

Lemma numberFinder_exec_shift (s : jsstring) :
  forall i,
    numberFinder_exec s i
    = match numberFinder_exec s 0 with
      | Some (k, m, r) => Some (i + k, m, r)
      | None => None
      end.
Proof.
  induction s as [|c s IH]; intros i; cbn [numberFinder_exec].
  - destruct (numberFinder_at []) as [[m r]|]; [now rewrite Nat.add_0_r | reflexivity].
  - destruct (numberFinder_at (c :: s)) as [[m r]|]; [now rewrite Nat.add_0_r|].
    rewrite (IH (S i)), (IH 1).
    destruct (numberFinder_exec s 0) as [[[k m] r]|]; [|reflexivity].
    f_equal. f_equal. f_equal. lia.
Qed.

Lemma replace_matches_fold (vs : jsstring) (fuel : nat) :
  forall (s done acc : jsstring) (st : enc_state),
    vs = done ++ s ->
    startIndex st = length done ->
    enc_inv vs st ->
    replace_matches vs (numberFinder_matches fuel s (length done)) st (length done) acc
    = acc ++ encode_fold fuel s (wasInQuotes st, false).
Proof.
  induction fuel as [|fuel IH]; intros s done acc st Hvs Hst Inv.
  - cbn. unfold substring_from. now rewrite Hvs, skipn_length_app.
  - cbn [numberFinder_matches encode_fold].
    rewrite numberFinder_exec_shift.
    destruct (numberFinder_exec s 0) as [[[k m] r]|] eqn:E.
    2:{ cbn. unfold substring_from. now rewrite Hvs, skipn_length_app. }
    apply numberFinder_exec_spec in E. destruct E as (pre & E1 & E2 & E3 & E4).
    cbn [Nat.add] in E2. subst k.
    assert (Hf : firstn (length done + length pre) vs = done ++ pre).
    { rewrite Hvs, E1, app_assoc, <- length_app. apply firstn_length_app. }
    assert (Hat : exists post, vs = firstn (length done + length pre) vs ++ m ++ post
                               /\ length (firstn (length done + length pre) vs)
                                  = length done + length pre).
    { exists r. rewrite Hf. split; [rewrite Hvs, E1; now rewrite <- app_assoc|].
      now rewrite length_app. }
    cbn [replace_matches].
    destruct (@replaceNumbers_step vs st (length done + length pre) m Inv
                ltac:(lia) Hat E3 E4) as [Erep Inv'].
    rewrite Erep.
    assert (Hpre : firstn (length pre) s = pre).
    { rewrite E1. apply firstn_length_app. }
    assert (Hq : rescan_inside vs (length done + length pre)
                 = fst (scan pre (wasInQuotes st, false))).
    { rewrite rescan_inside_scan, Hf, scan_app.
      unfold enc_inv in Inv. rewrite Hst, Hvs, firstn_length_app in Inv. now rewrite Inv. }
    rewrite Hpre, <- Hq.
    replace (length done + length pre + length m) with (length ((done ++ pre) ++ m))
      by (rewrite !length_app; lia).
    etransitivity; [apply (IH r ((done ++ pre) ++ m))|].
    + rewrite Hvs, E1. now rewrite <- !app_assoc.
    + reflexivity.
    + replace (length ((done ++ pre) ++ m)) with (length done + length pre + length m)
        by (rewrite !length_app; lia).
      exact Inv'.
    + cbn [wasInQuotes].
      assert (Hsub : substring vs (length done) (length done + length pre) = pre).
      { rewrite Hvs, E1. apply substring_between. }
      rewrite Hsub. now rewrite <- !app_assoc.
Qed.

Lemma safeStringEncodeNums_fold (jsonString : jsstring) :
  safeStringEncodeNums jsonString = encode_from (double_markers jsonString) (false, false).
Proof.
  unfold safeStringEncodeNums, encode_from.
  exact (@replace_matches_fold (double_markers jsonString) _ (double_markers jsonString)
           [] [] enc_init eq_refl eq_refl (enc_inv_init _)).
Qed.

Lemma encode_fold_fuel (f1 : nat) :
  forall (f2 : nat) (s : jsstring) (st : bool * bool),
    length s < f1 -> length s < f2 -> encode_fold f1 s st = encode_fold f2 s st.
Proof.
  induction f1 as [|f1 IH]; intros f2 s st H1 H2; [lia|].
  destruct f2 as [|f2]; [lia|].
  cbn [encode_fold].
  destruct (numberFinder_exec s 0) as [[[k m] r]|] eqn:E; [|reflexivity].
  apply numberFinder_exec_spec in E. destruct E as (pre & E1 & _ & _ & E4).
  assert (length r < length s).
  { rewrite E1, !length_app. destruct m; [congruence|cbn; lia]. }
  cbv zeta. f_equal. f_equal. apply IH; lia.
Qed.

Lemma encode_from_nil (st : bool * bool) : encode_from [] st = [].
Proof. reflexivity. Qed.

Lemma numberFinder_exec_here (s m r : jsstring) :
  numberFinder_at s = Some (m, r) -> numberFinder_exec s 0 = Some (0, m, r).
Proof. intros H. destruct s; cbn [numberFinder_exec]; now rewrite H. Qed.

(** At a match: it is wrapped or copied, and the scan goes on after it. *)
Lemma encode_from_match (s m r : jsstring) (q e : bool) :
  numberFinder_at s = Some (m, r) ->
  encode_from s (q, e) = (if q then m else wrap_number m) ++ encode_from r (q, false).
Proof.
  intros H. unfold encode_from.
  change (encode_fold (S (length s)) s (q, e))
    with (match numberFinder_exec s 0 with
          | None => s
          | Some (k, m, r) =>
              let q' := fst (scan (firstn k s) (q, e)) in
              firstn k s ++ (if q' then m else wrap_number m)
                ++ encode_fold (length s) r (q', false)
          end).
  rewrite (numberFinder_exec_here _ H). cbn [firstn app scan fold_left fst]. cbv zeta.
  f_equal. apply numberFinder_at_spec in H. destruct H as (H1 & _ & H3).
  apply encode_fold_fuel; [|lia].
  rewrite H1, length_app. destruct m; [congruence | cbn; lia].
Qed.

(** At a character where no match starts: it is copied and scanned. *)
Lemma encode_from_char (c : char16) (s : jsstring) (st : bool * bool) :
  numberFinder_at (c :: s) = None ->
  encode_from (c :: s) st = c :: encode_from s (scan_step st c).
Proof.
  intros H. unfold encode_from. cbn [length].
  change (encode_fold (S (S (length s))) (c :: s) st)
    with (match numberFinder_exec (c :: s) 0 with
          | None => c :: s
          | Some (k, m, r) =>
              let q := fst (scan (firstn k (c :: s)) st) in
              firstn k (c :: s) ++ (if q then m else wrap_number m)
                ++ encode_fold (S (length s)) r (q, false)
          end).
  cbn [numberFinder_exec]. rewrite H, numberFinder_exec_shift.
  change (encode_fold (S (length s)) s (scan_step st c))
    with (match numberFinder_exec s 0 with
          | None => s
          | Some (k, m, r) =>
              let q := fst (scan (firstn k s) (scan_step st c)) in
              firstn k s ++ (if q then m else wrap_number m)
                ++ encode_fold (length s) r (q, false)
          end).
  destruct (numberFinder_exec s 0) as [[[k m] r]|] eqn:E; [|reflexivity].
  apply numberFinder_exec_spec in E. destruct E as (pre & E1 & _ & _ & E4).
  assert (length r < length s).
  { rewrite E1, !length_app. destruct m; [congruence|cbn; lia]. }
  cbn [Nat.add firstn app]. cbv zeta.
  change (scan (c :: firstn k s) st) with (scan (firstn k s) (scan_step st c)).
  f_equal. f_equal. f_equal. apply encode_fold_fuel; lia.
Qed.

(** The bound on the number of matches is never reached: every match takes
    at least one character. *)
Lemma numberFinder_matches_fuel (f1 : nat) :
  forall (f2 : nat) (s : jsstring) (i : nat),
    length s < f1 -> length s < f2 ->
    numberFinder_matches f1 s i = numberFinder_matches f2 s i.
Proof.
  induction f1 as [|f1 IH]; intros f2 s i H1 H2; [lia|].
  destruct f2 as [|f2]; [lia|].
  cbn [numberFinder_matches].
  destruct (numberFinder_exec s i) as [[[k m] r]|] eqn:E; [|reflexivity].
  apply numberFinder_exec_spec in E. destruct E as (pre & E1 & _ & _ & E4).
  assert (length r < length s).
  { rewrite E1, !length_app. destruct m; [congruence|cbn; lia]. }
  f_equal. apply IH; lia.
Qed.

(* ================================================================== *)
(** * The encoder on valid documents *)
(* ================================================================== *)

Lemma no_match_at_inert (c : char16) (s : jsstring) :
  inert c = true -> numberFinder_at (c :: s) = None.
Proof.
  unfold inert, numberFinder_at, re_minus, re_int, is_digit, in_range.
  intros H. repeat (apply andb_true_iff in H; destruct H as [H ?]).
  apply negb_true_iff in H. rewrite H.
  destruct (N.eqb_spec c 48) as [->|N48]; [discriminate|].
  destruct (N.leb_spec 49 c); cbn [andb]; [|reflexivity].
  destruct (N.leb_spec c 57); [|reflexivity].
  exfalso. destruct (N.leb_spec 48 c); [|lia]. destruct (N.leb_spec c 57); [|lia]. discriminate.
Qed.

Lemma scan_step_inert (c : char16) :
  inert c = true -> scan_step (false, false) c = (false, false).
Proof.
  unfold inert, scan_step. intros H. repeat (apply andb_true_iff in H; destruct H as [H ?]).
  rewrite negb_true_iff in *. now rewrite H0, H1.
Qed.

(** Outside a string, characters that start no number are copied. *)
Lemma encode_from_inert (a s : jsstring) :
  forallb inert a = true ->
  encode_from (a ++ s) (false, false) = a ++ encode_from s (false, false).
Proof.
  induction a as [|c a IH]; [reflexivity|].
  cbn [forallb app]. intros H. apply andb_true_iff in H. destruct H as [Hc Ha].
  rewrite encode_from_char by (now apply no_match_at_inert).
  rewrite scan_step_inert by exact Hc. now rewrite IH.
Qed.

Lemma ws_inert (w : jsstring) : is_ws w = true -> forallb inert w = true.
Proof.
  unfold is_ws. induction w as [|c w IH]; [reflexivity|].
  cbn [forallb]. intros H. apply andb_true_iff in H. destruct H as [Hc Hw].
  rewrite (IH Hw), andb_true_r.
  unfold is_json_ws in Hc.
  repeat (apply orb_true_iff in Hc; destruct Hc as [Hc|Hc]);
    apply N.eqb_eq in Hc; subst c; reflexivity.
Qed.

Lemma encode_from_quote (s : jsstring) :
  encode_from (c_quote :: s) (false, false) = c_quote :: encode_from s (true, false).
Proof. now rewrite encode_from_char. Qed.

(** ** Inside a string literal *)

Lemma split_at_close_plain (m r : jsstring) :
  forallb plain_char m = true -> m <> [] ->
  forall e, split_at_close (m ++ r) e = map_fst (app m) (split_at_close r false).
Proof.
  induction m as [|c m IH]; [congruence|].
  intros H _ e. cbn [forallb] in H. apply andb_true_iff in H. destruct H as [Hc Hm].
  unfold plain_char in Hc. apply andb_true_iff in Hc. destruct Hc as [Hc _].
  apply andb_true_iff in Hc. destruct Hc as [Hq Hb]. apply negb_true_iff in Hq, Hb.
  cbn [app split_at_close]. rewrite Hq, Hb.
  destruct m as [|d m].
  - cbn [app]. now destruct (split_at_close r false) as [[a b]|].
  - rewrite (IH Hm ltac:(discriminate) false).
    now destruct (split_at_close r false) as [[a b]|].
Qed.

Lemma encode_in_string (n : nat) :
  forall (s : jsstring) (e : bool) (pre post : jsstring),
    length s <= n ->
    split_at_close s e = Some (pre, post) ->
    encode_from s (true, e) = pre ++ c_quote :: encode_from post (false, false).
Proof.
  induction n as [|n IH]; intros s e pre post Hlen Hsplit.
  - destruct s; [discriminate | cbn in Hlen; lia].
  - destruct (numberFinder_at s) as [[m r]|] eqn:E.
    + rewrite (@encode_from_match s m r true e E).
      apply numberFinder_at_spec in E. destruct E as (E1 & E2 & E3).
      rewrite E1, (@split_at_close_plain m r E2 E3) in Hsplit.
      destruct (split_at_close r false) as [[a b]|] eqn:Er; [|discriminate].
      cbn [map_fst] in Hsplit. injection Hsplit as <- <-.
      rewrite (IH r false a b); [now rewrite <- app_assoc | | exact Er].
      rewrite E1, length_app in Hlen. destruct m; [congruence | cbn in Hlen; lia].
    + destruct s as [|c s]; [discriminate|].
      rewrite (@encode_from_char c s (true, e) E).
      cbn [split_at_close] in Hsplit. cbn [length] in Hlen.
      unfold scan_step.
      destruct (N.eqb_spec c c_quote) as [->|Nq].
      * destruct e.
        -- destruct (split_at_close s false) as [[a b]|] eqn:Es; [|discriminate].
           cbn [map_fst] in Hsplit. injection Hsplit as <- <-.
           rewrite (IH s false a b); [reflexivity | lia | exact Es].
        -- injection Hsplit as <- <-. reflexivity.
      * destruct (N.eqb c c_bslash).
        -- destruct (split_at_close s (negb e)) as [[a b]|] eqn:Es; [|discriminate].
           cbn [map_fst] in Hsplit. injection Hsplit as <- <-.
           rewrite (IH s (negb e) a b); [reflexivity | lia | exact Es].
        -- destruct (split_at_close s false) as [[a b]|] eqn:Es; [|discriminate].
           cbn [map_fst] in Hsplit. injection Hsplit as <- <-.
           rewrite (IH s false a b); [reflexivity | lia | exact Es].
Qed.

Lemma hex_value_plain (c : char16) (v : N) :
  hex_value c = Some v -> N.eqb c c_quote = false /\ N.eqb c c_bslash = false.
Proof.
  unfold hex_value, is_digit, in_range, c_quote, c_bslash. intros H.
  destruct (N.eqb_spec c 34) as [->|]; [discriminate|].
  destruct (N.eqb_spec c 92) as [->|]; [discriminate|]. auto.
Qed.

Lemma split_at_close_items (items : list sitem) (rest : jsstring) :
  forallb sitem_ok items = true ->
  split_at_close (items_text items ++ c_quote :: rest) false = Some (items_text items, rest).
Proof.
  induction items as [|i items IH]; [reflexivity|].
  cbn [forallb]. intros H. apply andb_true_iff in H. destruct H as [Hi Hr].
  specialize (IH Hr). unfold items_text in *. cbn [flat_map]. rewrite <- app_assoc.
  destruct i as [c|e|h1 h2 h3 h4]; cbn [sitem_ok sitem_text app] in *.
  - apply andb_true_iff in Hi. destruct Hi as [Hi Hb].
    apply andb_true_iff in Hi. destruct Hi as [_ Hq]. apply negb_true_iff in Hq, Hb.
    cbn [split_at_close]. rewrite Hq, Hb, IH. reflexivity.
  - cbn [split_at_close]. change (N.eqb c_bslash c_quote) with false.
    change (N.eqb c_bslash c_bslash) with true. cbn [negb].
    destruct (N.eqb_spec e c_quote) as [->|Nq]; [now rewrite IH|].
    destruct (N.eqb_spec e c_bslash) as [->|Nb]; cbn [negb]; now rewrite IH.
  - destruct (hex4 h1 h2 h3 h4) eqn:E; [|discriminate].
    unfold hex4 in E.
    destruct (hex_value h1) eqn:E1; [|discriminate].
    destruct (hex_value h2) eqn:E2; [|discriminate].
    destruct (hex_value h3) eqn:E3; [|discriminate].
    destruct (hex_value h4) eqn:E4; [|discriminate].
    apply hex_value_plain in E1, E2, E3, E4.
    destruct E1 as [A1 B1], E2 as [A2 B2], E3 as [A3 B3], E4 as [A4 B4].
    cbn [split_at_close]. change (N.eqb c_bslash c_quote) with false.
    change (N.eqb c_bslash c_bslash) with true.
    change (N.eqb 117 c_quote) with false. change (N.eqb 117 c_bslash) with false.
    cbn [negb]. rewrite A1, B1, A2, B2, A3, B3, A4, B4, IH. reflexivity.
Qed.

(** A string literal is copied as it is, and the scan leaves it outside. *)
Lemma encode_from_string (items : list sitem) (rest : jsstring) :
  forallb sitem_ok items = true ->
  encode_from (string_text items ++ rest) (false, false)
  = string_text items ++ encode_from rest (false, false).
Proof.
  intros H. unfold string_text. cbn [app]. rewrite <- app_assoc. cbn [app].
  rewrite encode_from_quote.
  rewrite (@encode_in_string _ _ false (items_text items) rest (Nat.le_refl _)
             (split_at_close_items _ rest H)).
  now rewrite <- app_assoc.
Qed.

(** ** Number tokens *)

Lemma delimited_not_digit (rest : jsstring) :
  delimited rest = true ->
  match rest with
  | [] => True
  | c :: _ => is_digit c = false /\ N.eqb c 46 = false /\ is_e c = false
  end.
Proof.
  destruct rest as [|c r]; [auto|]. cbn [delimited]. intros H.
  apply negb_true_iff in H. apply orb_false_iff in H. destruct H as [H He].
  apply orb_false_iff in H. tauto.
Qed.

Lemma span_digits_app (a rest d r : jsstring) :
  span is_digit a = (d, r) -> delimited rest = true ->
  span is_digit (a ++ rest) = (d, r ++ rest).
Proof.
  intros H Hd. apply delimited_not_digit in Hd.
  revert d r H. induction a as [|c a IH]; intros d r H.
  - cbn in H. injection H as <- <-. cbn [app].
    destruct rest as [|x rest]; [reflexivity|]. cbn [span]. now destruct Hd as [-> _].
  - cbn [span app] in *. destruct (is_digit c).
    + destruct (span is_digit a) as [d' r'] eqn:E. injection H as <- <-.
      now rewrite (IH d' r' eq_refl).
    + now injection H as <- <-.
Qed.

Lemma re_int_app (s i r rest : jsstring) :
  re_int s = Some (i, r) -> delimited rest = true ->
  re_int (s ++ rest) = Some (i, r ++ rest).
Proof.
  unfold re_int. destruct s as [|c s]; [discriminate|]. cbn [app].
  destruct (N.eqb c 48); [now intros [= <- <-]|].
  destruct (in_range 49 57 c); [|discriminate].
  destruct (span is_digit s) as [d r'] eqn:E. intros [= <- <-] Hd.
  now rewrite (@span_digits_app _ _ _ _ E Hd).
Qed.

Lemma lex_frac_app (s f r rest : jsstring) :
  lex_frac s = Some (f, r) -> delimited rest = true ->
  re_frac (s ++ rest) = (f, r ++ rest) /\ lex_frac (s ++ rest) = Some (f, r ++ rest).
Proof.
  unfold lex_frac, re_frac. intros H Hd. destruct s as [|c s].
  - injection H as <- <-. cbn [app]. apply delimited_not_digit in Hd.
    destruct rest as [|x rest]; [auto|]. destruct Hd as (_ & -> & _). auto.
  - cbn [app]. destruct (N.eqb c 46).
    + destruct (span is_digit s) as [d r'] eqn:E.
      rewrite (@span_digits_app _ _ _ _ E Hd).
      destruct (is_nil d); [discriminate|]. injection H as <- <-. auto.
    + injection H as <- <-. auto.
Qed.

Lemma lex_exp_app (s e rest : jsstring) :
  lex_exp s = Some (e, []) -> delimited rest = true ->
  re_exp (s ++ rest) = (e, rest) /\ lex_exp (s ++ rest) = Some (e, rest).
Proof.
  unfold lex_exp, re_exp. intros H Hd. destruct s as [|c s].
  - injection H as <-. cbn [app]. apply delimited_not_digit in Hd.
    destruct rest as [|x rest]; [auto|]. destruct Hd as (_ & _ & ->). auto.
  - cbn [app]. destruct (is_e c); [|discriminate].
    destruct (re_sign s) as [sg r1] eqn:Es.
    destruct (span is_digit r1) as [d r2] eqn:Ed.
    destruct (is_nil d) eqn:Nd; [discriminate|]. injection H as H1 H2. subst e r2.
    assert (Es' : re_sign (s ++ rest) = (sg, r1 ++ rest)).
    { unfold re_sign in *. destruct s as [|x s].
      - injection Es as <- <-. cbn in Ed. inversion Ed; subst. discriminate.
      - cbn [app]. destruct (is_sign x); now injection Es as <- <-. }
    rewrite Es', (@span_digits_app _ _ _ _ Ed Hd), Nd. auto.
Qed.

Lemma re_minus_app (s m r rest : jsstring) :
  re_minus s = (m, r) -> s <> [] -> re_minus (s ++ rest) = (m, r ++ rest).
Proof.
  unfold re_minus. destruct s as [|c s]; [congruence|]. cbn [app].
  destruct (N.eqb c 45); now intros [= <- <-].
Qed.

(** A number literal followed by a delimiter is one match of the pattern,
    and one number token of the parser. *)
Lemma number_token (l rest : jsstring) :
  json_number_literal l = true -> delimited rest = true ->
  numberFinder_at (l ++ rest) = Some (l, rest)
  /\ lex_number (l ++ rest) = Some (l, rest)
  /\ forallb num_char l = true /\ l <> [].
Proof.
  unfold json_number_literal. intros H Hd.
  destruct (lex_number l) as [[x r]|] eqn:E; [|discriminate].
  destruct r; [|discriminate]. clear H.
  assert (Hnum : numberFinder_at l = Some (x, [])).
  { unfold lex_number in E. unfold numberFinder_at.
    destruct (re_minus l) as [mm r0]. destruct (re_int r0) as [[i r1]|]; [|discriminate].
    destruct (lex_frac r1) as [[f r2]|] eqn:Ef; [|discriminate].
    destruct (lex_exp r2) as [[e r3]|] eqn:Ee; [|discriminate].
    injection E as <- ->.
    destruct (@lex_frac_app _ _ _ [] Ef eq_refl) as [Hf _]. rewrite !app_nil_r in Hf. rewrite Hf.
    destruct (@lex_exp_app _ _ [] Ee eq_refl) as [He _]. rewrite !app_nil_r in He. now rewrite He. }
  apply numberFinder_at_num in Hnum. destruct Hnum as (Hl & Hchars & Hne).
  rewrite app_nil_r in Hl. subst x.
  unfold lex_number in E. unfold numberFinder_at, lex_number.
  destruct (re_minus l) as [mm r0] eqn:Em.
  destruct (re_int r0) as [[i r1]|] eqn:Ei; [|discriminate].
  destruct (lex_frac r1) as [[f r2]|] eqn:Ef; [|discriminate].
  destruct (lex_exp r2) as [[e r3]|] eqn:Ee; [|discriminate].
  injection E as El ->.
  rewrite (@re_minus_app _ _ _ rest Em Hne), (@re_int_app _ _ _ _ Ei Hd).
  destruct (@lex_frac_app _ _ _ rest Ef Hd) as [Hf1 Hf2].
  destruct (@lex_exp_app _ _ rest Ee Hd) as [He1 He2].
  assert (Hf1' : re_frac (r1 ++ rest) = (f, r2 ++ rest)) by exact Hf1.
  rewrite Hf1', Hf2, He1, He2, El. auto.
Qed.

Lemma delimited_ws (w rest : jsstring) (c : char16) :
  is_ws w = true -> inert c = true -> N.eqb c 46 = false -> is_e c = false ->
  delimited (w ++ c :: rest) = true.
Proof.
  intros Hw Hc H46 He. destruct w as [|x w]; cbn [app delimited].
  - unfold inert in Hc. apply andb_true_iff in Hc. destruct Hc as [Hc _].
    apply andb_true_iff in Hc. destruct Hc as [Hc _].
    apply andb_true_iff in Hc. destruct Hc as [_ Hdig].
    apply negb_true_iff in Hdig. now rewrite Hdig, H46, He.
  - cbn [is_ws forallb] in Hw. apply andb_true_iff in Hw. destruct Hw as [Hx _].
    unfold is_json_ws in Hx.
    repeat (apply orb_true_iff in Hx; destruct Hx as [Hx|Hx]);
      apply N.eqb_eq in Hx; subst x; reflexivity.
Qed.

Lemma delimited_ws_end (w : jsstring) : is_ws w = true -> delimited w = true.
Proof.
  intros Hw. destruct w as [|x w]; [reflexivity|]. cbn [delimited].
  cbn [is_ws forallb] in Hw. apply andb_true_iff in Hw. destruct Hw as [Hx _].
  unfold is_json_ws in Hx.
  repeat (apply orb_true_iff in Hx; destruct Hx as [Hx|Hx]);
    apply N.eqb_eq in Hx; subst x; reflexivity.
Qed.

(** ** Doubling the markers of a document *)

Lemma double_markers_app (a b : jsstring) :
  double_markers (a ++ b) = double_markers a ++ double_markers b.
Proof. unfold double_markers, replace_all_char. apply flat_map_app. Qed.

Lemma double_markers_id (w : jsstring) :
  forallb no_marker w = true -> double_markers w = w.
Proof.
  induction w as [|c w IH]; [reflexivity|].
  cbn [forallb]. intros H. apply andb_true_iff in H. destruct H as [Hc Hw].
  change (c :: w) with ([c] ++ w). rewrite double_markers_app, (IH Hw).
  unfold no_marker in Hc. apply negb_true_iff in Hc.
  unfold double_markers, replace_all_char. cbn [flat_map]. now rewrite Hc.
Qed.

Lemma forallb_impl (p q : char16 -> bool) (w : jsstring) :
  (forall c, p c = true -> q c = true) -> forallb p w = true -> forallb q w = true.
Proof.
  intros Hpq. induction w as [|c w IH]; [reflexivity|].
  cbn [forallb]. intros H. apply andb_true_iff in H. destruct H as [Hc Hw].
  now rewrite (Hpq _ Hc), IH.
Qed.

Lemma ws_no_marker (w : jsstring) : is_ws w = true -> forallb no_marker w = true.
Proof.
  apply forallb_impl. intros c Hc. unfold is_json_ws in Hc.
  repeat (apply orb_true_iff in Hc; destruct Hc as [Hc|Hc]);
    apply N.eqb_eq in Hc; subst c; reflexivity.
Qed.

Lemma plain_small_no_marker (c : char16) : (c < 128)%N -> no_marker c = true.
Proof.
  intros H. unfold no_marker, c_marker. destruct (N.eqb_spec c 8203); [lia | reflexivity].
Qed.

Lemma num_char_small (c : char16) : num_char c = true -> (c < 128)%N.
Proof.
  unfold num_char, is_digit, is_sign, is_e, in_range. intros H.
  repeat (apply orb_true_iff in H; destruct H as [H|H]);
    try (apply N.eqb_eq in H; subst c; reflexivity).
  apply andb_true_iff in H. destruct H as [_ H]. apply N.leb_le in H. lia.
Qed.

Lemma num_no_marker (l : jsstring) : forallb num_char l = true -> forallb no_marker l = true.
Proof.
  apply forallb_impl. intros c Hc. apply plain_small_no_marker. now apply num_char_small.
Qed.

Lemma simple_escape_small (e u : char16) : simple_escape e = Some u -> (e < 128)%N.
Proof.
  unfold simple_escape, c_quote, c_bslash. intros H.
  repeat match type of H with
         | (if N.eqb e ?k then _ else _) = _ =>
             destruct (N.eqb_spec e k); [subst e; reflexivity|]
         end.
  discriminate.
Qed.

Lemma hex_value_small (c : char16) (v : N) : hex_value c = Some v -> (c < 128)%N.
Proof.
  unfold hex_value, is_digit, in_range. intros H.
  destruct (N.leb_spec 48 c); cbn [andb] in H.
  - destruct (N.leb_spec c 57); [lia|].
    destruct (N.leb_spec 65 c); cbn [andb] in H.
    + destruct (N.leb_spec c 70); [lia|].
      destruct (N.leb_spec 97 c); cbn [andb] in H; [|discriminate].
      destruct (N.leb_spec c 102); [lia|discriminate].
    + destruct (N.leb_spec 97 c); cbn [andb] in H; [|discriminate]. lia.
  - lia.
Qed.

Lemma double_markers_unit (c : char16) :
  double_markers [c] = if N.eqb c c_marker then [c_marker; c_marker] else [c].
Proof.
  unfold double_markers, replace_all_char. cbn [flat_map].
  destruct (N.eqb c c_marker); reflexivity.
Qed.

Lemma double_items_text (items : list sitem) :
  forallb sitem_ok items = true ->
  double_markers (items_text items) = items_text (double_items items).
Proof.
  induction items as [|i items IH]; [reflexivity|].
  cbn [forallb]. intros H. apply andb_true_iff in H. destruct H as [Hi Hr].
  unfold items_text, double_items in *. cbn [flat_map].
  rewrite double_markers_app, flat_map_app, (IH Hr). f_equal.
  destruct i as [c|e|h1 h2 h3 h4]; cbn [sitem_ok sitem_text double_item flat_map app] in *.
  - rewrite double_markers_unit. destruct (N.eqb_spec c c_marker) as [->|]; reflexivity.
  - destruct (simple_escape e) eqn:E; [|discriminate].
    apply double_markers_id. cbn [forallb].
    now rewrite (plain_small_no_marker (simple_escape_small _ E)).
  - destruct (hex4 h1 h2 h3 h4) eqn:E; [|discriminate]. unfold hex4 in E.
    destruct (hex_value h1) eqn:E1; [|discriminate].
    destruct (hex_value h2) eqn:E2; [|discriminate].
    destruct (hex_value h3) eqn:E3; [|discriminate].
    destruct (hex_value h4) eqn:E4; [|discriminate].
    apply double_markers_id. cbn [forallb].
    now rewrite (plain_small_no_marker (hex_value_small _ E1)),
      (plain_small_no_marker (hex_value_small _ E2)),
      (plain_small_no_marker (hex_value_small _ E3)),
      (plain_small_no_marker (hex_value_small _ E4)).
Qed.

Lemma double_string_text (items : list sitem) :
  forallb sitem_ok items = true ->
  double_markers (string_text items) = string_text (double_items items).
Proof.
  intros H. unfold string_text. rewrite !double_markers_app, (double_items_text _ H).
  reflexivity.
Qed.

Lemma double_markers_ws (w : jsstring) : is_ws w = true -> double_markers w = w.
Proof. intros H. apply double_markers_id. now apply ws_no_marker. Qed.

Ltac split_wf H :=
  repeat match type of H with
         | (_ && _) = true => let H' := fresh "W" in
                              apply andb_true_iff in H; destruct H as [H H']
         end.

Lemma double_markers_text :
  (forall t, wf_text t = true -> double_markers (text_of t) = text_of (double_tree t))
  /\ (forall es, wf_elems es = true ->
                 double_markers (elems_text es) = elems_text (map_elems TNum es))
  /\ (forall ms, wf_members ms = true ->
                 double_markers (members_text ms) = members_text (map_members TNum ms)).
Proof.
  apply jtext_mutind; unfold double_tree;
    cbn [wf_text wf_elems wf_members text_of elems_text members_text
           map_tree map_elems map_members]; intros.
  - reflexivity.
  - reflexivity.
  - reflexivity.
  - apply double_markers_id, num_no_marker.
    now destruct (@number_token l [] H eq_refl) as (_ & _ & Hc & _).
  - now apply double_string_text.
  - rewrite !double_markers_app, (double_markers_ws _ H). reflexivity.
  - rewrite !double_markers_app, (H H0). reflexivity.
  - rewrite !double_markers_app, (double_markers_ws _ H). reflexivity.
  - rewrite !double_markers_app, (H H0). reflexivity.
  - split_wf H0.
    now rewrite !double_markers_app, (H W0), (double_markers_ws _ H0), (double_markers_ws _ W).
  - split_wf H1.
    rewrite !double_markers_app, (H W1), (H0 W), (double_markers_ws _ H1),
      (double_markers_ws _ W0). reflexivity.
  - split_wf H0.
    rewrite !double_markers_app, (H W0), (double_string_text _ W3),
      (double_markers_ws _ H0), (double_markers_ws _ W2), (double_markers_ws _ W1),
      (double_markers_ws _ W). reflexivity.
  - split_wf H1.
    rewrite !double_markers_app, (H W1), (H0 W), (double_string_text _ W4),
      (double_markers_ws _ H1), (double_markers_ws _ W3), (double_markers_ws _ W2),
      (double_markers_ws _ W0). reflexivity.
Qed.

(** ** The encoded text of a document *)

Lemma double_items_ok (items : list sitem) :
  forallb sitem_ok items = true -> forallb sitem_ok (double_items items) = true.
Proof.
  induction items as [|i items IH]; [reflexivity|].
  cbn [forallb]. intros H. apply andb_true_iff in H. destruct H as [Hi Hr].
  unfold double_items in *. cbn [flat_map]. rewrite forallb_app, (IH Hr), andb_true_r.
  destruct i as [c|e|h1 h2 h3 h4]; cbn [double_item forallb]; try now rewrite Hi.
  destruct (N.eqb c c_marker); cbn [forallb]; now rewrite Hi.
Qed.

Lemma items_text_chars (l : jsstring) : items_text (List.map SChar l) = l.
Proof. induction l as [|c l IH]; [reflexivity|]. cbn. now f_equal. Qed.

Lemma tagged_number_text (l : jsstring) : string_text (tagged_number l) = wrap_number l.
Proof.
  unfold string_text, tagged_number, wrap_number.
  change (items_text (SChar c_marker :: List.map SChar l))
    with (c_marker :: items_text (List.map SChar l)).
  now rewrite items_text_chars.
Qed.

Lemma delimited_closer (w rest : jsstring) (c : char16) :
  is_ws w = true -> closer c = true -> delimited (w ++ c :: rest) = true.
Proof.
  intros Hw Hc. unfold closer in Hc. apply andb_true_iff in Hc. destruct Hc as [Hc He].
  apply andb_true_iff in Hc. destruct Hc as [Hc H46].
  apply negb_true_iff in He, H46. now apply delimited_ws.
Qed.

Lemma closer_inert (c : char16) : closer c = true -> inert c = true.
Proof.
  unfold closer. intros H. apply andb_true_iff in H. destruct H as [H _].
  apply andb_true_iff in H. tauto.
Qed.

Lemma encode_from_closer (c : char16) (s : jsstring) :
  closer c = true ->
  encode_from (c :: s) (false, false) = c :: encode_from s (false, false).
Proof.
  intros H. apply closer_inert in H.
  apply (@encode_from_inert [c] s). cbn [forallb]. now rewrite H.
Qed.

Lemma lit_rbracket : lit "]" = [93%N].
Proof. reflexivity. Qed.

Lemma lit_rbrace : lit "}" = [125%N].
Proof. reflexivity. Qed.

Lemma lit_comma : lit "," = [44%N].
Proof. reflexivity. Qed.

Lemma encode_text :
  (forall t, wf_text t = true ->
             forall rest, delimited rest = true ->
                          encode_from (text_of (double_tree t) ++ rest) (false, false)
                          = text_of (encode_tree t) ++ encode_from rest (false, false))
  /\ (forall es, wf_elems es = true ->
                 forall c rest, closer c = true ->
                                encode_from (elems_text (map_elems TNum es) ++ c :: rest) (false, false)
                                = elems_text (map_elems (fun l => TStr (tagged_number l)) es)
                                    ++ encode_from (c :: rest) (false, false))
  /\ (forall ms, wf_members ms = true ->
                 forall c rest, closer c = true ->
                                encode_from (members_text (map_members TNum ms) ++ c :: rest) (false, false)
                                = members_text (map_members (fun l => TStr (tagged_number l)) ms)
                                    ++ encode_from (c :: rest) (false, false)).
Proof.
  apply jtext_mutind; unfold double_tree, encode_tree;
    cbn [wf_text wf_elems wf_members text_of elems_text members_text
           map_tree map_elems map_members].
  - intros _ rest _. now apply encode_from_inert.
  - intros _ rest _. now apply encode_from_inert.
  - intros _ rest _. now apply encode_from_inert.
  - intros l Hl rest Hd.
    destruct (number_token l rest Hl Hd) as (Hm & _).
    rewrite (@encode_from_match _ _ _ false false Hm). now rewrite tagged_number_text.
  - intros items Hi rest _. apply encode_from_string. now apply double_items_ok.
  - intros w Hw rest _. rewrite <- !app_assoc.
    rewrite (@encode_from_inert (lit "[") _ eq_refl).
    rewrite (@encode_from_inert w _ (ws_inert _ Hw)).
    now rewrite (@encode_from_inert (lit "]") _ eq_refl).
  - intros es IH Hes rest _. rewrite <- !app_assoc.
    rewrite (@encode_from_inert (lit "[") _ eq_refl).
    rewrite lit_rbracket. cbn [app]. rewrite (IH Hes 93%N rest eq_refl).
    now rewrite (@encode_from_closer 93%N rest eq_refl).
  - intros w Hw rest _. rewrite <- !app_assoc.
    rewrite (@encode_from_inert (lit "{") _ eq_refl).
    rewrite (@encode_from_inert w _ (ws_inert _ Hw)).
    now rewrite (@encode_from_inert (lit "}") _ eq_refl).
  - intros ms IH Hms rest _. rewrite <- !app_assoc.
    rewrite (@encode_from_inert (lit "{") _ eq_refl).
    rewrite lit_rbrace. cbn [app]. rewrite (IH Hms 125%N rest eq_refl).
    now rewrite (@encode_from_closer 125%N rest eq_refl).
  - intros w1 v IHv w2 H c rest Hc. split_wf H. rewrite <- !app_assoc.
    rewrite (@encode_from_inert w1 _ (ws_inert _ H)).
    rewrite (IHv W0 _ (@delimited_closer _ rest c W Hc)).
    now rewrite (@encode_from_inert w2 _ (ws_inert _ W)).
  - intros w1 v IHv w2 es IHes H c rest Hc. split_wf H. rewrite <- !app_assoc.
    rewrite (@encode_from_inert w1 _ (ws_inert _ H)).
    rewrite lit_comma. cbn [app].
    rewrite (IHv W1 _ (@delimited_closer w2 _ 44%N W0 eq_refl)).
    rewrite (@encode_from_inert w2 _ (ws_inert _ W0)).
    rewrite (@encode_from_closer 44%N _ eq_refl).
    now rewrite (IHes W c rest Hc).
  - intros w1 k w2 w3 v IHv w4 H c rest Hc. split_wf H. rewrite <- !app_assoc.
    rewrite (@encode_from_inert w1 _ (ws_inert _ H)).
    rewrite (@encode_from_string _ _ (double_items_ok _ W3)).
    rewrite (@encode_from_inert w2 _ (ws_inert _ W2)).
    rewrite (@encode_from_inert (lit ":") _ eq_refl).
    rewrite (@encode_from_inert w3 _ (ws_inert _ W1)).
    rewrite (IHv W0 _ (@delimited_closer _ rest c W Hc)).
    now rewrite (@encode_from_inert w4 _ (ws_inert _ W)).
  - intros w1 k w2 w3 v IHv w4 ms IHms H c rest Hc. split_wf H. rewrite <- !app_assoc.
    rewrite (@encode_from_inert w1 _ (ws_inert _ H)).
    rewrite (@encode_from_string _ _ (double_items_ok _ W4)).
    rewrite (@encode_from_inert w2 _ (ws_inert _ W3)).
    rewrite (@encode_from_inert (lit ":") _ eq_refl).
    rewrite (@encode_from_inert w3 _ (ws_inert _ W2)).
    rewrite lit_comma. cbn [app].
    rewrite (IHv W1 _ (@delimited_closer w4 _ 44%N W0 eq_refl)).
    rewrite (@encode_from_inert w4 _ (ws_inert _ W0)).
    rewrite (@encode_from_closer 44%N _ eq_refl).
    now rewrite (IHms W c rest Hc).
Qed.

(** The encoder on a valid document: the white space around it is kept,
    every number literal is wrapped, every marker of a string is doubled,
    and nothing else changes. *)
Lemma safeStringEncodeNums_document (t : jtext) (w1 w2 : jsstring) :
  wf_text t = true -> is_ws w1 = true -> is_ws w2 = true ->
  safeStringEncodeNums (w1 ++ text_of t ++ w2) = w1 ++ text_of (encode_tree t) ++ w2.
Proof.
  intros Ht H1 H2. rewrite safeStringEncodeNums_fold.
  rewrite !double_markers_app, (double_markers_ws _ H1), (double_markers_ws _ H2).
  rewrite (proj1 double_markers_text t Ht).
  rewrite (@encode_from_inert w1 _ (ws_inert _ H1)).
  rewrite (proj1 encode_text t Ht w2 (delimited_ws_end _ H2)).
  rewrite <- (app_nil_r w2) at 1.
  rewrite (@encode_from_inert w2 [] (ws_inert _ H2)), encode_from_nil.
  now rewrite app_nil_r.
Qed.

(* ================================================================== *)
(** * The parser on valid documents *)
(* ================================================================== *)

Lemma skip_ws_app (w s : jsstring) : is_ws w = true -> skip_ws (w ++ s) = skip_ws s.
Proof.
  unfold is_ws, skip_ws. induction w as [|c w IH]; [reflexivity|].
  cbn [forallb app drop_while]. intros H. apply andb_true_iff in H. destruct H as [Hc Hw].
  rewrite Hc. now apply IH.
Qed.

Lemma skip_ws_stop (c : char16) (s : jsstring) :
  is_json_ws c = false -> skip_ws (c :: s) = c :: s.
Proof. unfold skip_ws. cbn [drop_while]. now intros ->. Qed.

Lemma parse_string_body_items (items : list sitem) (rest : jsstring) :
  forallb sitem_ok items = true ->
  forall acc,
    parse_string_body (items_text items ++ c_quote :: rest) acc
    = Some (acc ++ string_value items, rest).
Proof.
  induction items as [|i items IH]; intros H acc.
  - cbn. now rewrite app_nil_r.
  - cbn [forallb] in H. apply andb_true_iff in H. destruct H as [Hi Hr].
    specialize (IH Hr). unfold items_text, string_value in *. cbn [flat_map].
    rewrite <- !app_assoc.
    destruct i as [c|e|h1 h2 h3 h4]; cbn [sitem_ok sitem_text sitem_value app] in *.
    + apply andb_true_iff in Hi. destruct Hi as [Hi Hb].
      apply andb_true_iff in Hi. destruct Hi as [Hlt Hq].
      apply negb_true_iff in Hlt, Hq, Hb.
      cbn [parse_string_body]. rewrite Hq, Hb, Hlt, IH. now rewrite <- app_assoc.
    + destruct (simple_escape e) as [u|] eqn:E; [|discriminate].
      cbn [parse_string_body]. change (N.eqb c_bslash c_quote) with false.
      change (N.eqb c_bslash c_bslash) with true.
      destruct (N.eqb_spec e 117) as [->|_]; [discriminate|].
      rewrite E, IH. now rewrite <- app_assoc.
    + destruct (hex4 h1 h2 h3 h4) as [u|] eqn:E; [|discriminate].
      cbn [parse_string_body]. change (N.eqb c_bslash c_quote) with false.
      change (N.eqb c_bslash c_bslash) with true. change (N.eqb 117 117) with true.
      rewrite E, IH. now rewrite <- app_assoc.
Qed.

Lemma parse_string_text (items : list sitem) (rest : jsstring) :
  forallb sitem_ok items = true ->
  parse_string_body (items_text items ++ c_quote :: rest) [] = Some (string_value items, rest).
Proof. intros H. exact (@parse_string_body_items items rest H []). Qed.

Lemma num_char_first (c : char16) :
  num_char c = true ->
  is_json_ws c = false /\ N.eqb c 123 = false /\ N.eqb c 91 = false
  /\ N.eqb c c_quote = false /\ N.eqb c 93 = false /\ N.eqb c 125 = false
  /\ N.eqb c 116 = false /\ N.eqb c 102 = false /\ N.eqb c 110 = false.
Proof.
  unfold num_char, is_digit, is_sign, is_e, in_range. intros H.
  repeat (apply orb_true_iff in H; destruct H as [H|H]);
    try (apply N.eqb_eq in H; subst c; repeat split; reflexivity).
  apply andb_true_iff in H. destruct H as [H1 H2]. apply N.leb_le in H1, H2.
  unfold is_json_ws, c_quote.
  repeat match goal with
         | |- context [N.eqb c ?k] => destruct (N.eqb_spec c k); [lia|]
         end.
  repeat split; reflexivity.
Qed.

Lemma lit_lbracket : lit "[" = [91%N].
Proof. reflexivity. Qed.

Lemma lit_lbrace : lit "{" = [123%N].
Proof. reflexivity. Qed.

Lemma lit_colon : lit ":" = [58%N].
Proof. reflexivity. Qed.

Lemma need_pos (t : jtext) : 1 <= need t.
Proof. destruct t; cbn; lia. Qed.

Section ParserOnDocuments.
Variable number_shown : jsstring -> jsstring.

Lemma parse_atom_number (l rest : jsstring) :
  json_number_literal l = true -> delimited rest = true ->
  parse_atom number_shown (l ++ rest) = Some (VNum (number_shown l), rest).
Proof.
  intros Hl Hd. destruct (@number_token l rest Hl Hd) as (_ & Hlex & Hc & Hne).
  destruct l as [|c l]; [congruence|]. cbn [forallb] in Hc.
  apply andb_true_iff in Hc. destruct Hc as [Hc _].
  destruct (@num_char_first _ Hc) as (_ & _ & _ & _ & _ & _ & Ht & Hf & Hn).
  unfold parse_atom. cbn [app lit List.map list_ascii_of_string strip_prefix].
  change (N_of_ascii "t") with 116%N. change (N_of_ascii "f") with 102%N.
  change (N_of_ascii "n") with 110%N.
  rewrite Ht, Hf, Hn. cbn [app] in Hlex. now rewrite Hlex.
Qed.

(** The first character of the text of a value. *)
Lemma text_first (t : jtext) :
  wf_text t = true ->
  exists c s, text_of t = c :: s /\ is_json_ws c = false
              /\ N.eqb c 93 = false /\ N.eqb c 125 = false.
Proof.
  destruct t; cbn [wf_text text_of]; intros H;
    try (eexists; eexists; split; [reflexivity | repeat split; reflexivity]).
  destruct (@number_token l [] H eq_refl) as (_ & _ & Hc & Hne).
  destruct l as [|c l]; [congruence|]. cbn [forallb] in Hc.
  apply andb_true_iff in Hc. destruct Hc as [Hc _].
  destruct (@num_char_first _ Hc) as (Hw & _ & _ & _ & H93 & H125 & _).
  exists c, l. auto.
Qed.

Lemma parse_text :
  (forall t, wf_text t = true ->
             forall fuel rest, need t <= fuel -> delimited rest = true ->
                               parse_value number_shown fuel (text_of t ++ rest)
                               = Some (value_of number_shown t, rest))
  /\ (forall es, wf_elems es = true ->
                 forall fuel rest acc,
                   need_elems es <= fuel ->
                   parse_elements number_shown fuel (elems_text es ++ 93%N :: rest) acc
                   = Some (VArr (acc ++ elems_values number_shown es), rest))
  /\ (forall ms, wf_members ms = true ->
                 forall fuel rest acc,
                   need_members ms <= fuel ->
                   parse_members number_shown fuel (members_text ms ++ 125%N :: rest) acc
                   = Some (VObj (members_object number_shown ms acc), rest)).
Proof.
  apply jtext_mutind;
    cbn [wf_text wf_elems wf_members text_of elems_text members_text
           value_of elems_values members_object need need_elems need_members].
  - intros _ [|fuel] rest Hf _; [lia|]. reflexivity.
  - intros _ [|fuel] rest Hf _; [lia|]. reflexivity.
  - intros _ [|fuel] rest Hf _; [lia|]. reflexivity.
  - intros l Hl [|fuel] rest Hf Hd; [lia|].
    pose proof (@parse_atom_number l rest Hl Hd) as Hatom.
    destruct (@number_token l rest Hl Hd) as (_ & _ & Hc & Hne).
    destruct l as [|c l]; [congruence|]. cbn [forallb] in Hc.
    apply andb_true_iff in Hc. destruct Hc as [Hc _].
    destruct (@num_char_first _ Hc) as (Hw & H123 & H91 & Hq & _).
    cbn [parse_value app]. rewrite (@skip_ws_stop _ _ Hw), H123, H91, Hq. exact Hatom.
  - intros items Hi [|fuel] rest Hf _; [lia|].
    unfold string_text. rewrite <- !app_assoc. cbn [parse_value app].
    rewrite (@skip_ws_stop c_quote _ eq_refl). cbn [N.eqb Pos.eqb c_quote].
    now rewrite (@parse_string_text items rest Hi).
  - intros w Hw [|fuel] rest Hf _; [lia|].
    rewrite <- !app_assoc, lit_lbracket, lit_rbracket. cbn [parse_value app].
    rewrite (@skip_ws_stop 91%N _ eq_refl). cbn [N.eqb Pos.eqb].
    rewrite (@skip_ws_app _ _ Hw), (@skip_ws_stop 93%N _ eq_refl). reflexivity.
  - intros es IH Hes [|fuel] rest Hf _; [lia|].
    rewrite <- !app_assoc, lit_lbracket, lit_rbracket. cbn [parse_value app].
    rewrite (@skip_ws_stop 91%N _ eq_refl). cbn [N.eqb Pos.eqb].
    match goal with
    | |- context [skip_ws ?x] =>
        assert (Hfirst : exists c s, skip_ws x = c :: s /\ N.eqb c 93 = false)
    end.
    { destruct es as [w1 v w2|w1 v w2 es']; cbn [wf_elems elems_text] in *; split_wf Hes.
      - destruct (@text_first v W0) as (c & s & E & Hw & H93 & _).
        rewrite <- !app_assoc, (@skip_ws_app _ _ Hes), E. cbn [app].
        rewrite (@skip_ws_stop _ _ Hw). eauto.
      - destruct (@text_first v W1) as (c & s & E & Hw & H93 & _).
        rewrite <- !app_assoc, (@skip_ws_app _ _ Hes), E. cbn [app].
        rewrite (@skip_ws_stop _ _ Hw). eauto. }
    destruct Hfirst as (c & s & E & H93). rewrite E, H93.
    apply (IH Hes fuel rest []). lia.
  - intros w Hw [|fuel] rest Hf _; [lia|].
    rewrite <- !app_assoc, lit_lbrace, lit_rbrace. cbn [parse_value app].
    rewrite (@skip_ws_stop 123%N _ eq_refl). cbn [N.eqb Pos.eqb].
    rewrite (@skip_ws_app _ _ Hw), (@skip_ws_stop 125%N _ eq_refl). reflexivity.
  - intros ms IH Hms [|fuel] rest Hf _; [lia|].
    rewrite <- !app_assoc, lit_lbrace, lit_rbrace. cbn [parse_value app].
    rewrite (@skip_ws_stop 123%N _ eq_refl). cbn [N.eqb Pos.eqb].
    match goal with
    | |- context [skip_ws ?x] => assert (Hfirst : exists s, skip_ws x = c_quote :: s)
    end.
    { destruct ms as [w1 k w2 w3 v w4|w1 k w2 w3 v w4 ms'];
        cbn [wf_members members_text] in *; split_wf Hms.
      - rewrite <- !app_assoc, (@skip_ws_app _ _ Hms). unfold string_text. cbn [app].
        rewrite (@skip_ws_stop c_quote _ eq_refl). eauto.
      - rewrite <- !app_assoc, (@skip_ws_app _ _ Hms). unfold string_text. cbn [app].
        rewrite (@skip_ws_stop c_quote _ eq_refl). eauto. }
    destruct Hfirst as (s & E). rewrite E. change (N.eqb c_quote 125) with false.
    apply (IH Hms fuel rest []). lia.
  - intros w1 v IHv w2 H [|fuel] rest acc Hf; [lia|]. split_wf H.
    rewrite <- !app_assoc. cbn [parse_elements].
    assert (Hv : parse_value number_shown fuel (w1 ++ text_of v ++ w2 ++ 93%N :: rest)
                 = Some (value_of number_shown v, w2 ++ 93%N :: rest)).
    { destruct fuel as [|fuel]; [pose proof (need_pos v); lia|].
      pose proof (IHv W0 (S fuel) (w2 ++ 93%N :: rest) ltac:(lia)
                      (@delimited_closer w2 rest 93%N W eq_refl)) as P.
      cbn [parse_value] in P |- *. rewrite (@skip_ws_app _ _ H). exact P. }
    rewrite Hv, (@skip_ws_app _ _ W), (@skip_ws_stop 93%N _ eq_refl). reflexivity.
  - intros w1 v IHv w2 es IHes H [|fuel] rest acc Hf; [lia|]. split_wf H.
    rewrite <- !app_assoc, lit_comma. cbn [parse_elements app].
    assert (Hv : parse_value number_shown fuel
                   (w1 ++ text_of v ++ w2 ++ 44%N :: elems_text es ++ 93%N :: rest)
                 = Some (value_of number_shown v,
                         w2 ++ 44%N :: elems_text es ++ 93%N :: rest)).
    { destruct fuel as [|fuel]; [pose proof (need_pos v); lia|].
      pose proof (IHv W1 (S fuel) (w2 ++ 44%N :: elems_text es ++ 93%N :: rest) ltac:(lia)
                      (@delimited_closer w2 _ 44%N W0 eq_refl)) as P.
      cbn [parse_value] in P |- *. rewrite (@skip_ws_app _ _ H). exact P. }
    rewrite Hv, (@skip_ws_app _ _ W0), (@skip_ws_stop 44%N _ eq_refl).
    etransitivity; [apply (IHes W fuel rest (acc ++ [value_of number_shown v])); lia|].
    now rewrite <- app_assoc.
  - intros w1 k w2 w3 v IHv w4 H [|fuel] rest acc Hf; [lia|]. split_wf H.
    rewrite <- !app_assoc, lit_colon. cbn [parse_members].
    rewrite (@skip_ws_app _ _ H). unfold string_text. rewrite <- !app_assoc. cbn [app].
    rewrite (@skip_ws_stop c_quote _ eq_refl).
    rewrite (@parse_string_text k _ W3).
    rewrite (@skip_ws_app _ _ W2), (@skip_ws_stop 58%N _ eq_refl).
    assert (Hv : parse_value number_shown fuel (w3 ++ text_of v ++ w4 ++ 125%N :: rest)
                 = Some (value_of number_shown v, w4 ++ 125%N :: rest)).
    { destruct fuel as [|fuel]; [pose proof (need_pos v); lia|].
      pose proof (IHv W0 (S fuel) (w4 ++ 125%N :: rest) ltac:(lia)
                      (@delimited_closer w4 rest 125%N W eq_refl)) as P.
      cbn [parse_value] in P |- *. rewrite (@skip_ws_app _ _ W1). exact P. }
    rewrite Hv, (@skip_ws_app _ _ W), (@skip_ws_stop 125%N _ eq_refl). reflexivity.
  - intros w1 k w2 w3 v IHv w4 ms IHms H [|fuel] rest acc Hf; [lia|]. split_wf H.
    rewrite <- !app_assoc, lit_colon, lit_comma. cbn [parse_members].
    rewrite (@skip_ws_app _ _ H). unfold string_text. rewrite <- !app_assoc. cbn [app].
    rewrite (@skip_ws_stop c_quote _ eq_refl).
    rewrite (@parse_string_text k _ W4).
    rewrite (@skip_ws_app _ _ W3), (@skip_ws_stop 58%N _ eq_refl).
    set (tail := members_text ms ++ 125%N :: rest).
    assert (Hv : parse_value number_shown fuel (w3 ++ text_of v ++ w4 ++ 44%N :: tail)
                 = Some (value_of number_shown v, w4 ++ 44%N :: tail)).
    { destruct fuel as [|fuel]; [pose proof (need_pos v); lia|].
      pose proof (IHv W1 (S fuel) (w4 ++ 44%N :: tail) ltac:(lia)
                      (@delimited_closer w4 tail 44%N W0 eq_refl)) as P.
      cbn [parse_value] in P |- *. rewrite (@skip_ws_app _ _ W2). exact P. }
    rewrite Hv, (@skip_ws_app _ _ W0), (@skip_ws_stop 44%N _ eq_refl). unfold tail.
    apply (IHms W fuel rest). lia.
Qed.

End ParserOnDocuments.

Lemma need_le_length :
  (forall t, wf_text t = true -> need t <= length (text_of t))
  /\ (forall es, wf_elems es = true -> need_elems es <= S (length (elems_text es)))
  /\ (forall ms, wf_members ms = true -> need_members ms <= S (length (members_text ms))).
Proof.
  apply jtext_mutind;
    cbn [wf_text wf_elems wf_members text_of elems_text members_text
           need need_elems need_members]; intros;
    try (split_wf H0); try (split_wf H1);
    repeat match goal with
           | IH : wf_text ?v = true -> _, W : wf_text ?v = true |- _ => specialize (IH W)
           | IH : wf_elems ?v = true -> _, W : wf_elems ?v = true |- _ => specialize (IH W)
           | IH : wf_members ?v = true -> _, W : wf_members ?v = true |- _ => specialize (IH W)
           end;
    unfold string_text; repeat rewrite length_app; cbn [length lit List.map list_ascii_of_string];
    try lia.
  destruct (@number_token l [] H eq_refl) as (_ & _ & _ & Hne).
  destruct l; [congruence | cbn; lia].
Qed.

Lemma tagged_number_ok (l : jsstring) :
  forallb num_char l = true -> forallb sitem_ok (tagged_number l) = true.
Proof.
  intros H. unfold tagged_number. cbn [forallb sitem_ok].
  change (negb (N.ltb c_marker 32) && negb (N.eqb c_marker c_quote)
          && negb (N.eqb c_marker c_bslash)) with true.
  cbn [andb]. induction l as [|c l IH]; [reflexivity|].
  cbn [forallb List.map] in *. apply andb_true_iff in H. destruct H as [Hc Hl].
  rewrite (IH Hl), andb_true_r. apply num_char_plain in Hc.
  unfold plain_char in Hc. cbn [sitem_ok].
  apply andb_true_iff in Hc. destruct Hc as [Hc Hlt].
  apply andb_true_iff in Hc. destruct Hc as [Hq Hb]. now rewrite Hq, Hb, Hlt.
Qed.

Lemma wf_encode_tree :
  (forall t, wf_text t = true -> wf_text (encode_tree t) = true)
  /\ (forall es, wf_elems es = true ->
                 wf_elems (map_elems (fun l => TStr (tagged_number l)) es) = true)
  /\ (forall ms, wf_members ms = true ->
                 wf_members (map_members (fun l => TStr (tagged_number l)) ms) = true).
Proof.
  apply jtext_mutind; unfold encode_tree;
    cbn [wf_text wf_elems wf_members map_tree map_elems map_members]; intros; auto.
  - apply tagged_number_ok. now destruct (@number_token l [] H eq_refl) as (_ & _ & Hc & _).
  - now apply double_items_ok.
  - split_wf H0. now rewrite H0, (H W0), W.
  - split_wf H1. now rewrite H1, (H W1), W0, (H0 W).
  - split_wf H0. now rewrite H0, (double_items_ok _ W3), W2, W1, (H W0), W.
  - split_wf H1. now rewrite H1, (double_items_ok _ W4), W3, W2, (H W1), W0, (H0 W).
Qed.

Section Pipeline.
Variable number_shown : jsstring -> jsstring.

Lemma parse_value_skip (fuel : nat) (w s : jsstring) :
  is_ws w = true ->
  parse_value number_shown fuel (w ++ s) = parse_value number_shown fuel s.
Proof.
  intros H. destruct fuel; [reflexivity|]. cbn [parse_value].
  now rewrite (@skip_ws_app _ _ H).
Qed.

(** [JSON.parse] accepts every valid document and returns its value. *)
Lemma JSON_parse_document (t : jtext) (w1 w2 : jsstring) :
  wf_text t = true -> is_ws w1 = true -> is_ws w2 = true ->
  JSON_parse number_shown (w1 ++ text_of t ++ w2) = Some (value_of number_shown t).
Proof.
  intros Ht H1 H2. unfold JSON_parse.
  rewrite (@parse_value_skip _ _ _ H1).
  rewrite (proj1 (parse_text number_shown) t Ht _ w2).
  - pose proof (@skip_ws_app w2 [] H2) as E. rewrite app_nil_r in E. now rewrite E.
  - pose proof (proj1 need_le_length t Ht). rewrite !length_app. lia.
  - now apply delimited_ws_end.
Qed.

(** Encoding and parsing a valid document yields the value of its encoded
    tree: the shape of the document with every number a marker-prefixed
    string and every marker of a string doubled. *)
Lemma pipeline_value (t : jtext) (w1 w2 : jsstring) :
  wf_text t = true -> is_ws w1 = true -> is_ws w2 = true ->
  JSON_parse number_shown (safeStringEncodeNums (w1 ++ text_of t ++ w2))
  = Some (value_of number_shown (encode_tree t)).
Proof.
  intros Ht H1 H2. rewrite (@safeStringEncodeNums_document t w1 w2 Ht H1 H2).
  apply JSON_parse_document; auto. now apply (proj1 wf_encode_tree).
Qed.

End Pipeline.

(* ================================================================== *)
(** * Numbers after encoding, parsing and rendering *)
(* ================================================================== *)






Lemma re_int_digits (s i r : jsstring) :
  re_int s = Some (i, r) -> s = i ++ r /\ forallb is_digit i = true /\ i <> [].
Proof.
  unfold re_int. destruct s as [|c s']; [discriminate|].
  destruct (N.eqb_spec c 48) as [->|N].
  - intros [= <- <-]. split; [|split]; [reflexivity | reflexivity | discriminate].
  - destruct (in_range 49 57 c) eqn:R; [|discriminate].
    destruct (span is_digit s') as [d r'] eqn:E. intros [= <- <-].
    apply span_eq in E. destruct E as (E1 & E2 & _).
    split; [|split]; [now rewrite E1 | | discriminate].
    cbn [forallb]. rewrite E2, andb_true_r. unfold is_digit, in_range in *.
    apply andb_true_iff in R. destruct R as [R1 R2].
    apply N.leb_le in R1, R2. apply andb_true_iff. split; apply N.leb_le; lia.
Qed.










(** ** Values with the same rendering *)









Section SameRendering.
Variable number_shown : jsstring -> jsstring.


End SameRendering.

(* ================================================================== *)
(** * Markers after encoding, parsing and rendering *)
(* ================================================================== *)

Lemma drop_while_snoc (p : char16 -> bool) (a : jsstring) (c : char16) :
  p c = false -> drop_while p (a ++ [c]) = drop_while p a ++ [c].
Proof.
  intros Hc. induction a as [|x a IH]; cbn [app drop_while].
  - now rewrite Hc.
  - destruct (p x); [exact IH | reflexivity].
Qed.

Lemma trim_marker (r : jsstring) :
  trim (c_marker :: r) = c_marker :: rev (drop_while is_js_space (rev r)).
Proof.
  unfold trim. cbn [drop_while]. change (is_js_space c_marker) with false. cbv iota.
  cbn [rev]. rewrite drop_while_snoc by reflexivity.
  now rewrite rev_app_distr.
Qed.

(** A string that starts with the marker is not a number for [ToNumber]. *)
Lemma isNaN_marker (r : jsstring) : isNaN (c_marker :: r) = true.
Proof.
  unfold isNaN. rewrite trim_marker. cbn [is_nil].
  set (t := rev (drop_while is_js_space (rev r))).
  apply negb_true_iff. unfold str_numeric_literal.
  apply orb_false_iff. split; [|reflexivity].
  change (strip_sign (c_marker :: t)) with (c_marker :: t).
  unfold str_unsigned_decimal, jseqb.
  destruct (list_eq_dec N.eq_dec (c_marker :: t) (lit "Infinity")) as [E|_]; [discriminate|].
  reflexivity.
Qed.

Lemma valueToHTML_doubled (s path : jsstring) :
  valueToHTML (VStr (double_markers s)) path = quoted_token (double_markers s).
Proof.
  destruct s as [|c s]; [reflexivity|].
  change (c :: s) with ([c] ++ s). rewrite double_markers_app, double_markers_unit.
  destruct (N.eqb_spec c c_marker) as [->|Nc].
  - cbn [app]. rewrite valueToHTML_marker, isNaN_marker. reflexivity.
  - cbn [app valueToHTML]. apply N.eqb_neq in Nc. unfold c_marker in Nc. rewrite Nc.
    reflexivity.
Qed.

Lemma count_markers_app (a b : jsstring) :
  count_markers (a ++ b) = count_markers a + count_markers b.
Proof. unfold count_markers. apply count_occ_app. Qed.

Lemma count_markers_small (s : jsstring) :
  Forall (fun c => (c < 128)%N) s -> count_markers s = 0.
Proof.
  induction 1 as [|c s Hc Hs IH]; [reflexivity|].
  unfold count_markers in *. cbn [count_occ].
  destruct (N.eq_dec c c_marker) as [->|_]; [unfold c_marker in Hc; lia | exact IH].
Qed.

Lemma count_markers_double (s : jsstring) :
  count_markers (double_markers s) = 2 * count_markers s.
Proof.
  induction s as [|c s IH]; [reflexivity|].
  change (c :: s) with ([c] ++ s).
  rewrite double_markers_app, !count_markers_app, IH, double_markers_unit.
  destruct (N.eqb_spec c c_marker) as [->|Nc]; [cbn; lia|].
  unfold count_markers. cbn [count_occ]. destruct (N.eq_dec c c_marker); [congruence|]. lia.
Qed.

Lemma count_markers_entity (c : char16) : count_markers (html_entity c) = count_markers [c].
Proof.
  unfold html_entity.
  destruct (N.eqb_spec c c_amp) as [->|]; [reflexivity|].
  destruct (N.eqb_spec c c_quote) as [->|]; [reflexivity|].
  destruct (N.eqb_spec c c_lt) as [->|]; [reflexivity|].
  destruct (N.eqb_spec c c_gt) as [->|]; reflexivity.
Qed.

Lemma count_markers_htmlEncode (t : jsstring) :
  count_markers (htmlEncode t) = count_markers t.
Proof.
  induction t as [|c t IH]; [reflexivity|].
  rewrite htmlEncode_cons. change (c :: t) with ([c] ++ t).
  now rewrite !count_markers_app, IH, count_markers_entity.
Qed.

Lemma hex_digit_small (n : N) : (n < 16)%N -> (hex_digit n < 128)%N.
Proof. unfold hex_digit. intros H. destruct (N.ltb_spec n 10); lia. Qed.

Lemma count_markers_escape (c : char16) : count_markers (unicode_escape c) = 0.
Proof.
  apply count_markers_small. unfold unicode_escape, c_bslash.
  repeat constructor; try lia; apply hex_digit_small; apply N.mod_lt; lia.
Qed.

Lemma count_markers_other (c : char16) : c <> c_marker -> count_markers [c] = 0.
Proof.
  intros H. unfold count_markers. cbn [count_occ].
  destruct (N.eq_dec c c_marker); [congruence | reflexivity].
Qed.

Lemma count_markers_unit (c : char16) : count_markers (quote_unit c) = count_markers [c].
Proof.
  unfold quote_unit, c_quote, c_bslash.
  repeat match goal with
         | |- context [if N.eqb c ?k then _ else _] =>
             destruct (N.eqb_spec c k) as [->|]; [reflexivity|]
         end.
  destruct (N.ltb_spec c 32).
  - rewrite count_markers_escape, count_markers_other; [reflexivity|]. unfold c_marker. lia.
  - destruct (is_lead_surrogate c || is_trail_surrogate c) eqn:S; [|reflexivity].
    rewrite count_markers_escape, count_markers_other; [reflexivity|].
    unfold is_lead_surrogate, is_trail_surrogate, in_range in S.
    apply orb_true_iff in S. unfold c_marker.
    destruct S as [S|S]; apply andb_true_iff in S; destruct S as [S _];
      apply N.leb_le in S; lia.
Qed.

Lemma count_markers_quote_body (n : nat) :
  forall s, length s <= n -> count_markers (quote_body s) = count_markers s.
Proof.
  induction n as [|n IH]; intros s Hn.
  - destruct s; [reflexivity | cbn in Hn; lia].
  - destruct s as [|c [|d r]]; [reflexivity | apply count_markers_unit |].
    cbn [length] in Hn.
    change (quote_body (c :: d :: r))
      with (if is_lead_surrogate c && is_trail_surrogate d
            then c :: d :: quote_body r
            else quote_unit c ++ quote_body (d :: r)).
    destruct (is_lead_surrogate c && is_trail_surrogate d).
    + change (c :: d :: quote_body r) with ([c; d] ++ quote_body r).
      change (c :: d :: r) with ([c; d] ++ r).
      rewrite !count_markers_app, IH by lia. reflexivity.
    + change (c :: d :: r) with ([c] ++ d :: r).
      rewrite !count_markers_app, count_markers_unit, IH by (cbn [length]; lia).
      reflexivity.
Qed.

Lemma count_markers_jsString (s : jsstring) : count_markers (jsString s) = count_markers s.
Proof.
  rewrite jsString_quote_body, count_markers_htmlEncode.
  apply (@count_markers_quote_body (length s) s). lia.
Qed.

Lemma simple_escape_value (e u : char16) : simple_escape e = Some u -> (u < 128)%N.
Proof.
  unfold simple_escape, c_quote, c_bslash. intros H.
  repeat match type of H with
         | (if ?b then _ else _) = _ => destruct b; [injection H as <-; reflexivity|]
         end.
  discriminate.
Qed.

Lemma double_items_value (items : list sitem) :
  forallb sitem_ok items = true -> literal_markers items = true ->
  string_value (double_items items) = double_markers (string_value items).
Proof.
  unfold literal_markers.
  induction items as [|i items IH]; [reflexivity|].
  cbn [forallb]. intros H L. apply andb_true_iff in H. destruct H as [Hi Hr].
  apply andb_true_iff in L. destruct L as [Li Lr].
  unfold string_value, double_items in *. cbn [flat_map].
  rewrite flat_map_app, double_markers_app, (IH Hr Lr). f_equal.
  destruct i as [c|e|h1 h2 h3 h4]; cbn [sitem_ok sitem_value double_item flat_map app] in *.
  - rewrite double_markers_unit. destruct (N.eqb_spec c c_marker) as [->|]; reflexivity.
  - destruct (simple_escape e) as [u|] eqn:E; [|discriminate].
    symmetry. apply double_markers_id. cbn [forallb app].
    now rewrite (@plain_small_no_marker u (@simple_escape_value e u E)).
  - destruct (hex4 h1 h2 h3 h4) as [u|] eqn:E; [|discriminate].
    symmetry. apply double_markers_id. cbn [forallb app]. unfold no_marker. now rewrite Li.
Qed.

(* ================================================================== *)
(** * The renderer on a bounded stack *)
(* ================================================================== *)






(** ** The room a document needs *)











(* ================================================================== *)
(** * What reaches the page *)
(* ================================================================== *)

(** ** Equal strings *)

Lemma jseqb_refl (a : jsstring) : jseqb a a = true.
Proof. unfold jseqb. now destruct (list_eq_dec N.eq_dec a a). Qed.

Lemma jseqb_eq (a b : jsstring) : jseqb a b = true <-> a = b.
Proof. unfold jseqb. destruct (list_eq_dec N.eq_dec a b); split; congruence. Qed.

(** ** Parts of a page *)










Lemma occurs_trans (x y z : value) : occurs_in x y -> occurs_in y z -> occurs_in x z.
Proof.
  intros Hxy Hyz. induction Hyz as [|elems v Hin Ho IH|props k v Hin Ho IH].
  - exact Hxy.
  - eapply occurs_elem; eauto.
  - eapply occurs_prop; eauto.
Qed.

(** ** The members an object keeps *)









(* ================================================================== *)
(** * Encode, parse, render *)
(* ================================================================== *)







(** C2, as the code has it.  Encoding and parsing a valid document deliver
    the value of the encoded tree, in which every marker written in a string
    literal is doubled.  A string whose markers are all written as they are
    comes out with each marker twice, and it is rendered as a string, quoted
    (inside a hyperlink for a URL), never as a number: the renderer strips
    no marker, so the quoted text holds twice the markers of the original. *)
Theorem markers_stay_doubled (number_shown : jsstring -> jsstring) :
  (forall (t : jtext) (w1 w2 : jsstring),
      wf_text t = true -> is_ws w1 = true -> is_ws w2 = true ->
      JSON_parse number_shown (safeStringEncodeNums (w1 ++ text_of t ++ w2))
      = Some (value_of number_shown (encode_tree t)))
  /\ (forall (items : list sitem) (path : jsstring),
         forallb sitem_ok items = true -> literal_markers items = true ->
         let s := string_value items in
         value_of number_shown (encode_tree (TStr items)) = VStr (double_markers s)
         /\ valueToHTML (VStr (double_markers s)) path = quoted_token (double_markers s)
         /\ count_markers (jsString (double_markers s)) = 2 * count_markers s).
Proof.
  split.
  - intros t w1 w2. apply pipeline_value.
  - intros items path Hok Hlit s. split; [|split].
    + unfold encode_tree. cbn [map_tree value_of].
      now rewrite (double_items_value _ Hok Hlit).
    + apply valueToHTML_doubled.
    + now rewrite count_markers_jsString, count_markers_double.
Qed.

Lemma markers_stay_doubled_witness :
  JSON_parse (fun l => l) (safeStringEncodeNums (html " ['a" ++ [c_marker] ++ html "b', 1] "))
  = Some (VArr [VStr (lit "a" ++ [c_marker; c_marker] ++ lit "b"); VStr (c_marker :: lit "1")])
  /\ valueToHTML (VStr (double_markers [c_marker])) (lit "<root>")
     = quoted_token (double_markers [c_marker])
  /\ count_markers (jsString (double_markers [c_marker])) = 2 * count_markers [c_marker].
Proof.
  split.
  - exact (proj1 (markers_stay_doubled (fun l => l))
             (TArr (ECons [] (TStr [SChar 97%N; SChar c_marker; SChar 98%N]) []
                      (EOne (lit " ") (TNum (lit "1")) [])))
             (lit " ") (lit " ") eq_refl eq_refl eq_refl).
  - exact (proj2 (proj2 (markers_stay_doubled (fun l => l)) [SChar c_marker] (lit "<root>")
                    eq_refl eq_refl)).
Defined.

(** C2 fails as stated: the document made of a string literal holding
    exactly one marker is rendered as a quoted string holding two. *)
Lemma single_marker_rendered_twice :
  JSON_parse (fun l => l) [c_quote; c_marker; c_quote] = Some (VStr [c_marker])
  /\ render_document (fun l => l) [c_quote; c_marker; c_quote]
     = Some (html "<div id='json'>" ++ string_token [c_marker; c_marker] ++ html "</div>")
  /\ count_markers (string_token [c_marker; c_marker]) = 2
  /\ count_markers (string_token [c_marker; c_marker]) <> 1.
Proof.
  split; [reflexivity|]. split; [reflexivity|]. split; [reflexivity|].
  vm_compute. discriminate.
Qed.

(* ================================================================== *)
(** * Numbers inside string literals *)
(* ================================================================== *)

Lemma quoted_token_first (c : char16) (r path : jsstring) :
  N.eqb c c_marker = false -> valueToHTML (VStr (c :: r)) path = quoted_token (c :: r).
Proof.
  intros H. cbn [valueToHTML]. unfold c_marker in H. rewrite H. reflexivity.
Qed.

Lemma quoted_token_marker (r path : jsstring) :
  valueToHTML (VStr (c_marker :: r)) path
  = if negb (isNaN r) then num_token (htmlEncode r) else quoted_token (c_marker :: r).
Proof.
  rewrite valueToHTML_marker. unfold quoted_token. rewrite is_url_marker.
  now destruct (isNaN r).
Qed.

(** How the value of a string literal of the encoded text is rendered: as a
    number when the literal begins with an escape sequence for the marker
    and goes on with a text that is numeric for [isNaN], and as a quoted
    string in every other case. *)
Lemma string_literal_rendering (items : list sitem) (path : jsstring) :
  forallb sitem_ok items = true ->
  valueToHTML (VStr (string_value (double_items items))) path
  = if escaped_marker_first items && negb (isNaN (tl (string_value (double_items items))))
    then num_token (htmlEncode (tl (string_value (double_items items))))
    else quoted_token (string_value (double_items items)).
Proof.
  destruct items as [|i items]; [reflexivity|].
  cbn [forallb]. intros H. apply andb_true_iff in H. destruct H as [Hi _].
  unfold string_value, double_items. cbn [flat_map]. rewrite flat_map_app.
  fold (double_items items). fold (string_value (double_items items)).
  destruct i as [c|e|a b c d]; cbn [escaped_marker_first andb].
  - cbn [double_item]. destruct (N.eqb c c_marker) eqn:E.
    + apply N.eqb_eq in E. subst c. cbn [flat_map sitem_value app].
      rewrite quoted_token_marker, isNaN_marker. reflexivity.
    + cbn [flat_map sitem_value app]. now apply quoted_token_first.
  - cbn [double_item flat_map sitem_value sitem_ok] in *.
    destruct (simple_escape e) as [u|] eqn:E; [|discriminate].
    cbn [app]. apply quoted_token_first.
    pose proof (@simple_escape_value e u E) as Hu.
    apply N.eqb_neq. unfold c_marker. lia.
  - cbn [double_item flat_map sitem_value sitem_ok] in *.
    destruct (hex4 a b c d) as [u|] eqn:E; [|discriminate].
    cbn [app tl]. destruct (N.eqb u c_marker) eqn:Eu.
    + apply N.eqb_eq in Eu. subst u. cbn [andb]. apply quoted_token_marker.
    + cbn [andb]. now apply quoted_token_first.
Qed.

(** C4, as the code has it.  The text the encoder returns is assembled from
    the answers of [replaceNumbers], and for every match of the number
    pattern that lies inside a string literal by quote parity (a quote
    preceded by an odd run of backslashes does not toggle) the answer is the
    match itself, left untouched; a match outside is wrapped.  The value of
    a string literal is then rendered as one quoted string, unless the
    literal begins with an escape sequence that stands for the marker and
    goes on with a text that is numeric for [isNaN]: that value is rendered
    as a number.  The document of the specification is returned as it is
    and its value renders as one quoted string. *)
Theorem number_inside_string_untouched :
  (forall (jsonString : jsstring) index m inside replacement,
      In (index, m, inside, replacement) (encoder_callbacks jsonString) ->
      inside = inside_string (firstn index (double_markers jsonString))
      /\ (inside = true -> replacement = m)
      /\ (inside = false -> replacement = wrap_number m))
  /\ (forall jsonString : jsstring,
         safeStringEncodeNums jsonString
         = assemble (double_markers jsonString) (encoder_callbacks jsonString) 0 [])
  /\ (forall (number_shown : jsstring -> jsstring) (items : list sitem) (path : jsstring),
         forallb sitem_ok items = true ->
         let s := string_value (double_items items) in
         value_of number_shown (encode_tree (TStr items)) = VStr s
         /\ valueToHTML (VStr s) path
            = if escaped_marker_first items && negb (isNaN (tl s))
              then num_token (htmlEncode (tl s))
              else quoted_token s)
  /\ (let doc := html "{'a': 'totally not a number like 42 here'}" in
      let v := VStr (lit "totally not a number like 42 here") in
      safeStringEncodeNums doc = doc
      /\ JSON_parse (fun l => l) (safeStringEncodeNums doc) = Some (VObj [(lit "a", v)])
      /\ valueToHTML v (lit "<root>.a") = string_token (lit "totally not a number like 42 here")).
Proof.
  split; [|split; [|split]].
  - intros jsonString index m inside replacement Hin.
    rewrite inside_string_rescan.
    unfold encoder_callbacks in Hin.
    rewrite (callbacks_rescan (enc_inv_init _) (encoder_matches_in _)) in Hin.
    apply in_map_iff in Hin. destruct Hin as ([i m'] & E & _).
    cbn [fst snd] in E. inversion E; subst. clear E.
    split; [reflexivity|]. split; intros ->; reflexivity.
  - intros jsonString. unfold safeStringEncodeNums, encoder_callbacks.
    apply replace_matches_assemble.
  - intros number_shown items path Hok s. split; [reflexivity|].
    now apply string_literal_rendering.
  - cbv zeta. repeat split; reflexivity.
Qed.

Lemma number_inside_string_untouched_witness :
  In (7, lit "42", true, lit "42") (encoder_callbacks (html "['like 42 here', 7]"))
  /\ true = inside_string (firstn 7 (double_markers (html "['like 42 here', 7]")))
  /\ (true = true -> lit "42" = lit "42")
  /\ valueToHTML (VStr (lit "like 42 here")) (lit "<root>[0]")
     = string_token (lit "like 42 here").
Proof.
  assert (H : In (7, lit "42", true, lit "42")
                 (encoder_callbacks (html "['like 42 here', 7]"))).
  { vm_compute. tauto. }
  split; [exact H|].
  destruct (proj1 number_inside_string_untouched _ _ _ _ _ H) as (H1 & H2 & _).
  split; [exact H1|]. split; [exact H2|].
  exact (proj2 (proj1 (proj2 (proj2 number_inside_string_untouched)) (fun l => l)
                  (List.map SChar (lit "like 42 here")) (lit "<root>[0]") eq_refl)).
Defined.

(** C4 fails as stated: in the document whose member [a] is the string
    literal made of the escape sequence for the marker followed by 42, both
    matches of the number pattern lie inside the string and are left
    untouched, the encoded text is the document itself, and the value, the
    marker followed by 42, is rendered as the number 42, not as a quoted
    string. *)
Lemma escaped_marker_string_rendered_as_number :
  let doc := html "{'a': '" ++ [c_bslash] ++ lit "u200b42" ++ html "'}" in
  encoder_callbacks doc
  = [(9, lit "200", true, lit "200"); (13, lit "42", true, lit "42")]
  /\ safeStringEncodeNums doc = doc
  /\ JSON_parse (fun l => l) (safeStringEncodeNums doc)
     = Some (VObj [(lit "a", VStr (c_marker :: lit "42"))])
  /\ valueToHTML (VStr (c_marker :: lit "42")) (lit "<root>.a")
     = html "<span class='num'>42</span>"
  /\ valueToHTML (VStr (c_marker :: lit "42")) (lit "<root>.a")
     <> string_token (c_marker :: lit "42").
Proof.
  cbv zeta. repeat split; try reflexivity.
  vm_compute. discriminate.
Qed.

(* ================================================================== *)
(** * The object of a document, member by member *)
(* ================================================================== *)

Lemma obj_of_members_snoc (ms : list (jsstring * value)) (k : jsstring) (v : value) :
  obj_of_members (ms ++ [(k, v)]) = obj_define (obj_of_members ms) k v.
Proof. unfold obj_of_members. now rewrite fold_left_app. Qed.

Lemma has_key_In (k : jsstring) (ps : list (jsstring * value)) :
  has_key k ps = true <-> In k (List.map fst ps).
Proof.
  destruct (has_key k ps) eqn:E.
  - split; [intros _|reflexivity].
    destruct (in_dec (list_eq_dec N.eq_dec) k (List.map fst ps)) as [I|I]; [exact I|].
    apply has_key_false_iff in I. congruence.
  - apply has_key_false_iff in E. split; [discriminate | tauto].
Qed.

Lemma obj_insert_index_keys_iff (k : jsstring) (v : value) (ps : list (jsstring * value))
      (x : jsstring) :
  In x (List.map fst (obj_insert_index k v ps)) <-> x = k \/ In x (List.map fst ps).
Proof.
  induction ps as [|[k' v'] r IH]; cbn [obj_insert_index].
  - cbn. intuition.
  - destruct (_ && _); cbn [List.map fst In]; [rewrite IH|]; intuition.
Qed.

Lemma obj_define_keys_iff (ps : list (jsstring * value)) (k : jsstring) (v : value)
      (x : jsstring) :
  In x (List.map fst (obj_define ps k v)) <-> x = k \/ In x (List.map fst ps).
Proof.
  unfold obj_define. destruct (has_key k ps) eqn:E.
  - rewrite obj_replace_keys. apply has_key_In in E. split; [tauto|].
    intros [->|H]; assumption.
  - destruct (is_array_index k); [apply obj_insert_index_keys_iff|].
    rewrite map_app, in_app_iff. cbn. intuition.
Qed.

Lemma obj_insert_index_NoDup (k : jsstring) (v : value) (ps : list (jsstring * value)) :
  ~ In k (List.map fst ps) -> NoDup (List.map fst ps) ->
  NoDup (List.map fst (obj_insert_index k v ps)).
Proof.
  induction ps as [|[k' v'] r IH]; intros Hk ND; cbn [obj_insert_index].
  - cbn. constructor; [easy | constructor].
  - cbn [List.map fst] in Hk, ND. inversion ND as [|x l Hx Hl]; subst.
    destruct (_ && _); cbn [List.map fst].
    + constructor.
      * rewrite obj_insert_index_keys_iff. intros [->|H]; [apply Hk; now left | contradiction].
      * apply IH; [|exact Hl]. intros H. apply Hk. now right.
    + constructor; [exact Hk | exact ND].
Qed.

Lemma obj_define_NoDup (ps : list (jsstring * value)) (k : jsstring) (v : value) :
  NoDup (List.map fst ps) -> NoDup (List.map fst (obj_define ps k v)).
Proof.
  intros ND. unfold obj_define. destruct (has_key k ps) eqn:E.
  - now rewrite obj_replace_keys.
  - apply has_key_false_iff in E. destruct (is_array_index k).
    + now apply obj_insert_index_NoDup.
    + rewrite map_app. cbn [List.map fst]. apply NoDup_app; [exact ND | | ].
      * constructor; [easy | constructor].
      * intros x Hx [<-|[]]. contradiction.
Qed.

Lemma obj_insert_index_others (k : jsstring) (v : value) (ps : list (jsstring * value)) :
  is_array_index k = true ->
  filter other_key (List.map fst (obj_insert_index k v ps))
  = filter other_key (List.map fst ps).
Proof.
  intros Hk. induction ps as [|[k' v'] r IH]; cbn [obj_insert_index].
  - cbn. unfold other_key. now rewrite Hk.
  - destruct (_ && _); cbn [List.map fst filter].
    + now rewrite IH.
    + unfold other_key at 1. now rewrite Hk.
Qed.

Lemma jseqb_sym (a b : jsstring) : jseqb a b = jseqb b a.
Proof.
  destruct (jseqb a b) eqn:E.
  - apply jseqb_eq in E. subst b. symmetry. apply jseqb_refl.
  - destruct (jseqb b a) eqn:E'; [|reflexivity].
    apply jseqb_eq in E'. subst b. now rewrite jseqb_refl in E.
Qed.

Lemma first_keys_sub (ks : list jsstring) (x : jsstring) : In x (first_keys ks) -> In x ks.
Proof.
  induction ks as [|k r IH]; [easy|]. cbn [first_keys]. intros [H|H]; [now left|].
  apply filter_In in H. right. now apply IH.
Qed.

Lemma first_keys_snoc (ks : list jsstring) (k : jsstring) :
  first_keys (ks ++ [k])
  = if in_dec (list_eq_dec N.eq_dec) k ks then first_keys ks else first_keys ks ++ [k].
Proof.
  induction ks as [|a r IH]; [reflexivity|].
  cbn [app first_keys]. rewrite IH.
  destruct (in_dec (list_eq_dec N.eq_dec) k r) as [I|I].
  - destruct (in_dec (list_eq_dec N.eq_dec) k (a :: r)) as [_|N]; [reflexivity|].
    exfalso. apply N. now right.
  - rewrite filter_app. cbn [filter].
    destruct (in_dec (list_eq_dec N.eq_dec) k (a :: r)) as [[->|I']|N].
    + now rewrite jseqb_refl, app_nil_r.
    + contradiction.
    + destruct (jseqb a k) eqn:E.
      * apply jseqb_eq in E. subst a. exfalso. apply N. now left.
      * reflexivity.
Qed.

Lemma final_value_snoc (k : jsstring) (ms : list (jsstring * value)) (k' : jsstring)
      (v' : value) :
  final_value k (ms ++ [(k', v')])
  = if jseqb k k' then Some v' else final_value k ms.
Proof. unfold final_value. now rewrite fold_left_app. Qed.

Lemma obj_replace_In (k : jsstring) (v : value) (ps : list (jsstring * value))
      (x : jsstring) (w : value) :
  NoDup (List.map fst ps) -> In k (List.map fst ps) ->
  (In (x, w) (obj_replace k v ps) <-> (x = k /\ w = v) \/ (x <> k /\ In (x, w) ps)).
Proof.
  induction ps as [|[k1 v1] r IH]; intros ND Hk; [easy|].
  cbn [List.map fst] in ND, Hk. inversion ND as [|y l Hy Hl]; subst.
  cbn [obj_replace]. destruct (jseqb k k1) eqn:E.
  - apply jseqb_eq in E. subst k1. cbn [In]. split.
    + intros [H|H]; [inversion H; subst; now left|].
      right. split; [|now right]. intros ->. apply Hy.
      change k with (fst (k, w)). now apply in_map.
    + intros [[-> ->]|[N [H|H]]]; [now left | inversion H; congruence | now right].
  - assert (Nk : k <> k1) by (intros ->; now rewrite jseqb_refl in E).
    destruct Hk as [Hk|Hk]; [congruence|].
    cbn [In]. rewrite (IH Hl Hk). split.
    + intros [H|[H|[N H]]]; [|now left|].
      * inversion H; subst. right. split; [congruence | now left].
      * right. split; [exact N | now right].
    + intros [H|[N [H|H]]]; [right; now left | now left|].
      right. right. now split.
Qed.

Lemma obj_insert_index_In (k : jsstring) (v : value) (ps : list (jsstring * value))
      (kv : jsstring * value) :
  In kv (obj_insert_index k v ps) <-> kv = (k, v) \/ In kv ps.
Proof.
  induction ps as [|[k' v'] r IH]; cbn [obj_insert_index].
  - cbn. intuition.
  - destruct (_ && _); cbn [In]; [rewrite IH|]; intuition.
Qed.

Lemma obj_define_In (ps : list (jsstring * value)) (k : jsstring) (v : value)
      (x : jsstring) (w : value) :
  NoDup (List.map fst ps) ->
  (In (x, w) (obj_define ps k v) <-> (x = k /\ w = v) \/ (x <> k /\ In (x, w) ps)).
Proof.
  intros ND. unfold obj_define. destruct (has_key k ps) eqn:E.
  - apply obj_replace_In; [exact ND | now apply has_key_In].
  - apply has_key_false_iff in E.
    assert (Hx : In (x, w) ps -> x <> k).
    { intros H ->. apply E. change k with (fst (k, w)). now apply in_map. }
    destruct (is_array_index k).
    + rewrite obj_insert_index_In. split.
      * intros [H|H]; [inversion H; now left | right; split; [now apply Hx | exact H]].
      * intros [[-> ->]|[_ H]]; [now left | now right].
    + rewrite in_app_iff. cbn [In]. split.
      * intros [H|[H|[]]]; [right; split; [now apply Hx | exact H] | inversion H; now left].
      * intros [[-> ->]|[_ H]]; [right; now left | now left].
Qed.

(** The object of a document: its keys are those of the members, each once;
    the value of a key is that of its last member; the keys that are not
    array indices stand in the order of their first members. *)
Lemma obj_of_members_spec (members : list (jsstring * value)) :
  NoDup (List.map fst (obj_of_members members))
  /\ (forall k, In k (List.map fst (obj_of_members members)) <-> In k (List.map fst members))
  /\ (forall k v, In (k, v) (obj_of_members members) <-> final_value k members = Some v)
  /\ filter other_key (List.map fst (obj_of_members members))
     = first_keys (filter other_key (List.map fst members)).
Proof.
  induction members as [|[k v] ms (ND & K & V & F)] using rev_ind.
  - cbn. repeat split; try tauto; try constructor; try discriminate; easy.
  - rewrite obj_of_members_snoc.
    assert (K' : forall x, In x (List.map fst (obj_define (obj_of_members ms) k v))
                           <-> In x (List.map fst (ms ++ [(k, v)]))).
    { intros x. rewrite obj_define_keys_iff, K, map_app, in_app_iff. cbn. intuition. }
    split; [now apply obj_define_NoDup|]. split; [exact K'|]. split.
    + intros x w. rewrite (@obj_define_In (obj_of_members ms) k v x w ND), final_value_snoc, V.
      destruct (jseqb x k) eqn:E.
      * apply jseqb_eq in E. subst x. split.
        -- intros [[_ ->]|[N _]]; [reflexivity | congruence].
        -- intros H. inversion H. now left.
      * assert (N : x <> k) by (intros ->; now rewrite jseqb_refl in E).
        split; [intros [[-> _]|[_ H]]; [congruence | exact H] | intros H; now right].
    + rewrite map_app, filter_app. cbn [List.map fst filter].
      unfold obj_define. destruct (has_key k (obj_of_members ms)) eqn:E.
      * rewrite obj_replace_keys, F. apply has_key_In, K in E.
        destruct (other_key k) eqn:O; [|now rewrite app_nil_r].
        rewrite first_keys_snoc.
        destruct (in_dec _ _ _) as [_|N]; [reflexivity|].
        exfalso. apply N. apply filter_In. now split.
      * apply has_key_false_iff in E. rewrite K in E.
        unfold other_key at 2 3. destruct (is_array_index k) eqn:I; cbn [negb].
        -- now rewrite (@obj_insert_index_others k v _ I), F, app_nil_r.
        -- rewrite map_app, filter_app, F. cbn [List.map fst filter].
           unfold other_key at 2. rewrite I. cbn [negb].
           rewrite first_keys_snoc.
           destruct (in_dec _ _ _) as [H|_]; [|reflexivity].
           exfalso. apply E. apply filter_In in H. tauto.
Qed.

(** C9, as the code has it.  The object [JSON.parse] builds from the
    members of a document has each key once, with the value of the last
    member of that key; it is enumerated, and so rendered, with the keys
    that are array indices first, in ascending order, and then the other
    keys in the order of their first members, also when keys repeat and
    when both kinds of keys are there; when the keys are distinct and none
    is an array index this is the insertion order of the document.  The
    elements of an array are rendered in index order.  In both cases the
    items are joined by commas with none after the last item. *)
Theorem rendered_in_document_order :
  (forall members : list (jsstring * value),
      NoDup (List.map fst (obj_of_members members))
      /\ (forall k v, In (k, v) (obj_of_members members) <-> final_value k members = Some v)
      /\ enum_ordered (obj_of_members members)
      /\ filter other_key (List.map fst (obj_of_members members))
         = first_keys (filter other_key (List.map fst members)))
  /\ (forall (props : list (jsstring * value)) (path : jsstring),
         props <> [] -> objectToHTML props path = object_in_order props path)
  /\ (forall (members : list (jsstring * value)) (path : jsstring),
         members <> [] ->
         NoDup (List.map fst members) ->
         (forall k, In k (List.map fst members) -> is_array_index k = false) ->
         objectToHTML (obj_of_members members) path = object_in_order members path)
  /\ (forall (elems : list value) (path : jsstring),
         elems <> [] -> arrayToHTML elems path = array_in_order elems path).
Proof.
  split; [|split; [|split]].
  - intros members. destruct (obj_of_members_spec members) as (ND & _ & V & F).
    split; [exact ND|]. split; [exact V|]. split; [apply obj_of_members_ordered | exact F].
  - apply objectToHTML_in_order.
  - intros members path NE ND NI. unfold obj_of_members.
    rewrite obj_of_members_plain by assumption. cbn [app].
    now apply objectToHTML_in_order.
  - apply arrayToHTML_in_order.
Qed.

Lemma rendered_in_document_order_witness :
  objectToHTML (obj_of_members [(lit "b", VBool true); (lit "a", VNull)]) (lit "<root>")
  = object_in_order [(lit "b", VBool true); (lit "a", VNull)] (lit "<root>")
  /\ arrayToHTML [VNull; VBool true] (lit "<root>")
     = array_in_order [VNull; VBool true] (lit "<root>")
  /\ filter other_key
       (List.map fst (obj_of_members
                        [(lit "b", VNull); (lit "1", VBool true); (lit "a", VBool false);
                         (lit "b", VBool true)]))
     = [lit "b"; lit "a"].
Proof.
  split; [|split].
  - apply (proj1 (proj2 (proj2 rendered_in_document_order))).
    + discriminate.
    + repeat constructor; cbn; intuition discriminate.
    + intros k [<-|[<-|[]]]; reflexivity.
  - apply (proj2 (proj2 (proj2 rendered_in_document_order))). discriminate.
  - exact (proj2 (proj2 (proj2 (proj1 rendered_in_document_order
                                  [(lit "b", VNull); (lit "1", VBool true);
                                   (lit "a", VBool false); (lit "b", VBool true)])))).
Defined.

(* ================================================================== *)
(** * HTML escaping of what the pages show *)
(* ================================================================== *)






(* ================================================================== *)
(** * Further properties of the encoder *)
(* ================================================================== *)

Lemma numberFinder_at_digit (s m r : jsstring) :
  numberFinder_at s = Some (m, r) -> existsb is_digit s = true.
Proof.
  unfold numberFinder_at.
  destruct (re_minus s) as [mm r0] eqn:E0.
  destruct (re_int r0) as [[i r1]|] eqn:E1; [|discriminate].
  intros _. apply re_minus_spec in E0. destruct E0 as [-> _].
  apply re_int_digits in E1. destruct E1 as (-> & Hi & Hne).
  rewrite !existsb_app. destruct i as [|d i]; [congruence|].
  cbn [forallb] in Hi. apply andb_true_iff in Hi. destruct Hi as [Hd _].
  cbn [existsb]. rewrite Hd. cbn [orb]. now rewrite orb_true_r.
Qed.

Lemma numberFinder_exec_no_digit (s : jsstring) :
  forallb not_digit s = true -> forall i, numberFinder_exec s i = None.
Proof.
  induction s as [|c s IH]; intros H i; cbn [numberFinder_exec].
  - destruct (numberFinder_at []) as [[m r]|] eqn:E; [|reflexivity].
    apply numberFinder_at_digit in E. discriminate.
  - destruct (numberFinder_at (c :: s)) as [[m r]|] eqn:E.
    + apply numberFinder_at_digit in E. exfalso.
      apply existsb_exists in E. destruct E as (x & Hx & Hd).
      rewrite forallb_forall in H. specialize (H x Hx). unfold not_digit in H.
      rewrite Hd in H. discriminate.
    + cbn [forallb] in H. apply andb_true_iff in H. now apply IH.
Qed.

Lemma double_markers_no_digit (s : jsstring) :
  forallb not_digit s = true -> forallb not_digit (double_markers s) = true.
Proof.
  induction s as [|c s IH]; [reflexivity|].
  cbn [forallb]. intros H. apply andb_true_iff in H. destruct H as [Hc Hs].
  change (c :: s) with ([c] ++ s).
  rewrite double_markers_app, forallb_app, (IH Hs), andb_true_r, double_markers_unit.
  destruct (N.eqb c c_marker); cbn [forallb]; [reflexivity | now rewrite Hc].
Qed.

(** X1.  A text without any digit holds no number: the encoder only doubles
    its markers.  In particular the empty text is returned as it is. *)
Theorem encoder_without_digits (jsonString : jsstring) :
  forallb not_digit jsonString = true ->
  safeStringEncodeNums jsonString = double_markers jsonString.
Proof.
  intros H. apply double_markers_no_digit in H.
  rewrite safeStringEncodeNums_fold. unfold encode_from.
  cbn [encode_fold]. now rewrite (numberFinder_exec_no_digit _ H 0).
Qed.

Lemma encoder_without_digits_witness :
  safeStringEncodeNums (html "{'a" ++ [c_marker] ++ html "': [true, null, '-.e+']}")
  = html "{'a" ++ [c_marker; c_marker] ++ html "': [true, null, '-.e+']}".
Proof.
  exact (@encoder_without_digits
           (html "{'a" ++ [c_marker] ++ html "': [true, null, '-.e+']}") eq_refl).
Defined.

(** ** The length of the encoded text *)





(** ** Documents the encoder leaves as they are *)

Lemma double_items_plain (items : list sitem) :
  forallb item_no_marker items = true -> double_items items = items.
Proof.
  induction items as [|i items IH]; [reflexivity|].
  cbn [forallb]. intros H. apply andb_true_iff in H. destruct H as [Hi Hr].
  unfold double_items in *. cbn [flat_map]. rewrite (IH Hr).
  destruct i as [c| |]; cbn [double_item item_no_marker app] in *; try reflexivity.
  apply negb_true_iff in Hi. now rewrite Hi.
Qed.

Lemma encode_tree_plain :
  (forall t, plain_tree t = true -> encode_tree t = t)
  /\ (forall es, plain_elems es = true ->
                 map_elems (fun l => TStr (tagged_number l)) es = es)
  /\ (forall ms, plain_members ms = true ->
                 map_members (fun l => TStr (tagged_number l)) ms = ms).
Proof.
  apply jtext_mutind; unfold encode_tree;
    cbn [plain_tree plain_elems plain_members map_tree map_elems map_members];
    intros; try reflexivity; try discriminate.
  - now rewrite double_items_plain.
  - now rewrite H.
  - now rewrite H.
  - now rewrite H.
  - apply andb_true_iff in H1. destruct H1 as [A B]. now rewrite (H A), (H0 B).
  - apply andb_true_iff in H0. destruct H0 as [A B].
    now rewrite (double_items_plain _ A), (H B).
  - apply andb_true_iff in H1. destruct H1 as [A C].
    apply andb_true_iff in A. destruct A as [A B].
    now rewrite (double_items_plain _ A), (H B), (H0 C).
Qed.

(** X3.  A valid document without number values and without markers is
    returned by the encoder as it is: whatever looks like a number inside
    its strings and keys is left untouched. *)
Theorem encoder_keeps_plain_document (t : jtext) (w1 w2 : jsstring) :
  wf_text t = true -> plain_tree t = true -> is_ws w1 = true -> is_ws w2 = true ->
  safeStringEncodeNums (w1 ++ text_of t ++ w2) = w1 ++ text_of t ++ w2.
Proof.
  intros Ht Hp H1 H2.
  rewrite (@safeStringEncodeNums_document t w1 w2 Ht H1 H2).
  now rewrite (proj1 encode_tree_plain t Hp).
Qed.

Lemma encoder_keeps_plain_document_witness :
  safeStringEncodeNums (html "{'k1': ['v 2.5e3', '\'-7\\', true]}" ++ [c_lf])
  = html "{'k1': ['v 2.5e3', '\'-7\\', true]}" ++ [c_lf].
Proof.
  exact (@encoder_keeps_plain_document
           (TObj (MOne [] [SChar 107; SChar 49]%N [] (lit " ")
                    (TArr (ECons [] (TStr (List.map SChar (lit "v 2.5e3"))) []
                             (ECons (lit " ")
                                (TStr [SEsc 34; SChar 45; SChar 55; SEsc 92]%N) []
                                (EOne (lit " ") TTrue []))))
                    []))
           [] [c_lf] eq_refl eq_refl eq_refl eq_refl).
Defined.

(* ================================================================== *)
(** * Further properties of the renderer *)
(* ================================================================== *)

Lemma bare_rest_plain (c : char16) :
  is_bare_rest c = true ->
  quote_unit c = [c] /\ is_lead_surrogate c = false /\ html_entity c = [c].
Proof.
  unfold is_bare_rest, is_upper, is_lower, is_digit, in_range. intros H.
  assert (R : (c = 95 \/ c = 45 \/ c = 36 \/ (65 <= c <= 90) \/ (97 <= c <= 122)
               \/ (48 <= c <= 57))%N).
  { repeat (apply orb_true_iff in H; destruct H as [H|H]);
      try (apply N.eqb_eq in H; subst c; tauto);
      apply andb_true_iff in H; destruct H as [H1 H2]; apply N.leb_le in H1, H2; lia. }
  clear H.
  unfold quote_unit, html_entity, is_lead_surrogate, is_trail_surrogate, in_range,
    c_quote, c_bslash, c_amp, c_lt, c_gt.
  repeat match goal with
         | |- context [N.eqb c ?k] => destruct (N.eqb_spec c k); [lia|]
         | |- context [N.ltb c ?k] => destruct (N.ltb_spec c k); [lia|]
         | |- context [N.leb ?a ?b] => destruct (N.leb_spec a b); [try lia|try lia]
         end; cbn [andb orb]; auto.
Qed.

Lemma bare_first_rest (c : char16) : is_bare_first c = true -> is_bare_rest c = true.
Proof.
  unfold is_bare_first, is_bare_rest. intros H.
  repeat (apply orb_true_iff in H; destruct H as [H|H]); rewrite H;
    now rewrite ?orb_true_r.
Qed.

Lemma quote_body_cons (c : char16) (r : jsstring) :
  is_lead_surrogate c = false -> quote_body (c :: r) = quote_unit c ++ quote_body r.
Proof.
  intros H. destruct r as [|d r]; cbn [quote_body].
  - now rewrite app_nil_r.
  - now rewrite H.
Qed.

Lemma quote_body_bare (k : jsstring) : forallb is_bare_rest k = true -> quote_body k = k.
Proof.
  induction k as [|c k IH]; [reflexivity|].
  cbn [forallb]. intros H. apply andb_true_iff in H. destruct H as [Hc Hk].
  destruct (@bare_rest_plain c Hc) as (Hq & Hl & _).
  now rewrite (@quote_body_cons c k Hl), Hq, (IH Hk).
Qed.

Lemma htmlEncode_bare (k : jsstring) : forallb is_bare_rest k = true -> htmlEncode k = k.
Proof.
  induction k as [|c k IH]; [reflexivity|].
  cbn [forallb]. intros H. apply andb_true_iff in H. destruct H as [Hc Hk].
  destruct (@bare_rest_plain c Hc) as (_ & _ & He).
  now rewrite htmlEncode_cons, He, (IH Hk).
Qed.

Lemma bare_prop_chars (prop : jsstring) :
  isBareProp prop = true -> forallb is_bare_rest prop = true.
Proof.
  destruct prop as [|c r]; [discriminate|]. cbn [isBareProp forallb].
  intros H. apply andb_true_iff in H. destruct H as [Hc Hr].
  now rewrite (@bare_first_rest c Hc), Hr.
Qed.

(** X4.  For a bare key neither the JSON escaping nor the HTML encoding
    changes a character: the label shows the key itself, its tooltip is the
    path of the parent followed by a dot and the key, and the value is
    rendered at that path. *)
Theorem bare_key_extends_path
        (prop : jsstring) (v : value) (rest : list (jsstring * value))
        (numProps : nat) (path output : jsstring) :
  isBareProp prop = true ->
  objectToHTML_loop valueToHTML ((prop, v) :: rest) numProps path output
  = objectToHTML_loop valueToHTML rest (numProps - 1) path
      (output
         ++ html "<li><span class='prop' title='" ++ htmlEncode path ++ lit "." ++ prop
         ++ html "'><span class='q'>&quot;</span>" ++ prop
         ++ html "<span class='q'>&quot;</span></span>: "
         ++ valueToHTML v (path ++ lit "." ++ prop)
         ++ (if 1 <? numProps then lit "," else []) ++ html "</li>").
Proof.
  intros H. pose proof (@bare_prop_chars prop H) as Hc.
  cbn [objectToHTML_loop]. rewrite H, slice_stringify, jsString_quote_body.
  rewrite (@quote_body_bare prop Hc), (@htmlEncode_bare prop Hc).
  rewrite !htmlEncode_app, (@htmlEncode_bare prop Hc).
  change (htmlEncode (lit ".")) with (lit ".").
  f_equal. change (html "<li><span class='prop" ++ [] ++ html "' title='")
    with (html "<li><span class='prop' title='").
  destruct (1 <? numProps); repeat rewrite <- app_assoc; reflexivity.
Qed.

Lemma bare_key_extends_path_witness :
  objectToHTML [(lit "a-b", VNull)] (lit "<root>")
  = html "<span class='collapser'></span>{<ul class='obj collapsible'>"
      ++ html "<li><span class='prop' title='&lt;root&gt;.a-b'>"
      ++ html "<span class='q'>&quot;</span>a-b<span class='q'>&quot;</span></span>: "
      ++ valueToHTML VNull (lit "<root>.a-b") ++ html "</li>" ++ html "</ul>}".
Proof.
  unfold objectToHTML. cbn [valueToHTML length Nat.eqb].
  rewrite (@bare_key_extends_path (lit "a-b") VNull [] 1 (lit "<root>") [] eq_refl).
  reflexivity.
Defined.

Lemma strip_prefix_ci_split (p s rest : jsstring) :
  strip_prefix_ci p s = Some rest ->
  exists pre, s = pre ++ rest /\ Forall2 (fun a c => ci_eqb a c = true) p pre.
Proof.
  revert s. induction p as [|a p IH]; intros s H; cbn [strip_prefix_ci] in H.
  - exists []. inversion H; subst. split; [reflexivity|constructor].
  - destruct s as [|c s]; [discriminate|].
    destruct (ci_eqb a c) eqn:E; [|discriminate].
    destruct (IH _ H) as (pre & -> & F). exists (c :: pre). split; [reflexivity|].
    now constructor.
Qed.

Lemma ci_eqb_visible (a c : char16) :
  in_range 33 126 a = true -> ci_eqb a c = true -> in_range 33 126 c = true.
Proof.
  unfold ci_eqb, is_lower, in_range. intros Ha H.
  apply andb_true_iff in Ha. destruct Ha as [A1 A2]. apply N.leb_le in A1, A2.
  apply andb_true_iff. rewrite !N.leb_le.
  apply orb_true_iff in H. destruct H as [H|H].
  - apply N.eqb_eq in H. lia.
  - apply andb_true_iff in H. destruct H as [L H]. apply N.eqb_eq in H.
    apply andb_true_iff in L. destruct L as [L1 L2]. apply N.leb_le in L1, L2. lia.
Qed.

Lemma visible_not_space (c : char16) :
  in_range 33 126 c = true -> is_js_space c = false /\ N.eqb c 8203 = false.
Proof.
  unfold in_range, is_js_space. intros H.
  apply andb_true_iff in H. destruct H as [A1 A2]. apply N.leb_le in A1, A2.
  unfold in_range.
  repeat match goal with
         | |- context [N.eqb c ?k] => destruct (N.eqb_spec c k); [lia|]
         | |- context [N.leb ?a ?b] => destruct (N.leb_spec a b); [try lia|try lia]
         end; cbn [andb orb]; auto.
Qed.

Lemma ci_prefix_visible (p pre : jsstring) :
  forallb (in_range 33 126) p = true ->
  Forall2 (fun a c => ci_eqb a c = true) p pre ->
  forallb (in_range 33 126) pre = true.
Proof.
  intros Hp F. induction F as [|a c p pre E F IH]; [reflexivity|].
  cbn [forallb] in *. apply andb_true_iff in Hp. destruct Hp as [Ha Hp].
  now rewrite (@ci_eqb_visible a c Ha E), (IH Hp).
Qed.

Lemma is_url_shape (s : jsstring) :
  is_url s = true ->
  exists pre rest, s = pre ++ rest /\ 7 <= length pre /\ rest <> []
                   /\ forallb (in_range 33 126) pre = true
                   /\ forallb not_space rest = true.
Proof.
  unfold is_url. intros H. apply existsb_exists in H. destruct H as (scheme & Hin & H).
  destruct (strip_prefix_ci (lit scheme ++ lit "://") s) as [rest|] eqn:E; [|discriminate].
  apply andb_true_iff in H. destruct H as [Hne Hsp].
  destruct (@strip_prefix_ci_split _ s rest E) as (pre & -> & F).
  exists pre, rest. split; [reflexivity|].
  assert (V : forallb (in_range 33 126) (lit scheme ++ lit "://") = true
              /\ 7 <= length (lit scheme ++ lit "://")).
  { cbn [In] in Hin. destruct Hin as [<-|[<-|[<-|[]]]]; split; try reflexivity;
      cbn; lia. }
  destruct V as [V L]. rewrite (Forall2_length F) in L.
  repeat split; auto.
  - destruct rest; [discriminate|congruence].
  - exact (@ci_prefix_visible _ pre V F).
Qed.

(** X5.  A string that passes the URL test is rendered as a hyperlink
    around its quoted text, whatever the path; such a string holds no white
    space at all and is at least eight code units long. *)
Theorem url_string_is_link (s path : jsstring) :
  is_url s = true ->
  valueToHTML (VStr s) path = link_token s
  /\ forallb not_space s = true /\ 8 <= length s.
Proof.
  intros H. destruct (@is_url_shape s H) as (pre & rest & -> & L & NE & V & R).
  assert (Vs : forallb not_space pre = true).
  { clear L H. induction pre as [|c pre IH]; [reflexivity|].
    cbn [forallb] in *. apply andb_true_iff in V. destruct V as [Vc V].
    unfold not_space at 1. destruct (@visible_not_space c Vc) as [-> _].
    exact (IH V). }
  split; [|split].
  - destruct pre as [|c pre]; [cbn in L; lia|].
    cbn [forallb] in V. apply andb_true_iff in V. destruct V as [Vc _].
    destruct (@visible_not_space c Vc) as [_ M].
    cbn [valueToHTML app]. rewrite M. cbn [andb].
    change ((c :: pre) ++ rest) with (c :: pre ++ rest) in H. rewrite H. reflexivity.
  - rewrite forallb_app, Vs, R. reflexivity.
  - rewrite length_app. destruct rest; [congruence|]. cbn [length]. lia.
Qed.

Lemma url_string_is_link_witness :
  valueToHTML (VStr (lit "HTTPS://a.b/?x=<1>&y")) (lit ".u")
  = html "<a href='HTTPS://a.b/?x=&lt;1&gt;&amp;y'><span class='q'>&quot;</span>"
      ++ lit "HTTPS://a.b/?x=&lt;1&gt;&amp;y" ++ html "<span class='q'>&quot;</span></a>".
Proof.
  destruct (@url_string_is_link (lit "HTTPS://a.b/?x=<1>&y") (lit ".u") eq_refl) as [E _].
  rewrite E. reflexivity.
Defined.

Lemma join_items_ext (xs ys : list jsstring) : xs = ys -> join_items xs = join_items ys.
Proof. now intros ->. Qed.

Lemma array_items_path_free (elems : list value) :
  Forall (fun v => path_free v = true ->
                   forall p q, valueToHTML v p = valueToHTML v q) elems ->
  forallb path_free elems = true ->
  forall p q i, array_items p elems i = array_items q elems i.
Proof.
  induction 1 as [|x r Hx F IH]; intros Hf p q i; [reflexivity|].
  cbn [forallb] in Hf. apply andb_true_iff in Hf. destruct Hf as [Fx Fr].
  cbn [array_items]. f_equal; [apply (Hx Fx)|apply (IH Fr)].
Qed.

Lemma prop_items_path_free (props : list (jsstring * value)) (p q : jsstring) :
  forallb (fun kv => negb (isBareProp (fst kv))) props = true ->
  List.map (prop_item p) props = List.map (prop_item q) props.
Proof.
  induction props as [|[k v] r IH]; intros Hf; [reflexivity|].
  cbn [forallb fst] in Hf. apply andb_true_iff in Hf. destruct Hf as [Hk Hr].
  apply negb_true_iff in Hk.
  cbn [List.map]. f_equal; [|exact (IH Hr)].
  unfold prop_item, sub_path. rewrite Hk. reflexivity.
Qed.

(** X6.  The path is used only for the tooltips of bare keys: a value whose
    arrays hold only such values and whose objects have no bare key is
    rendered to the same markup at every path. *)
Theorem path_only_reaches_bare_keys (v : value) (p q : jsstring) :
  path_free v = true -> valueToHTML v p = valueToHTML v q.
Proof.
  revert p q.
  induction v as [| | | |l IH|props IH|] using value_nested_ind; intros p q Hf;
    try reflexivity.
  - destruct l as [|x l]; [reflexivity|].
    change (valueToHTML (VArr (x :: l)) p) with (arrayToHTML (x :: l) p).
    change (valueToHTML (VArr (x :: l)) q) with (arrayToHTML (x :: l) q).
    rewrite !arrayToHTML_in_order by discriminate.
    unfold array_in_order. do 3 f_equal. apply join_items_ext.
    apply array_items_path_free; [|exact Hf].
    eapply Forall_impl; [|exact IH]. cbn beta. intros a Ha Fa p' q'. now apply Ha.
  - destruct props as [|x l]; [reflexivity|].
    change (valueToHTML (VObj (x :: l)) p) with (objectToHTML (x :: l) p).
    change (valueToHTML (VObj (x :: l)) q) with (objectToHTML (x :: l) q).
    rewrite !objectToHTML_in_order by discriminate.
    unfold object_in_order. f_equal. f_equal. apply join_items_ext.
    apply prop_items_path_free. exact Hf.
Qed.

Lemma path_only_reaches_bare_keys_witness :
  valueToHTML (VArr [VObj [(lit "a b", VObj [(lit "c", VNull)])]; VNum (lit "1")]) (lit ".x")
  = valueToHTML (VArr [VObj [(lit "a b", VObj [(lit "c", VNull)])]; VNum (lit "1")]) [].
Proof.
  apply (@path_only_reaches_bare_keys
           (VArr [VObj [(lit "a b", VObj [(lit "c", VNull)])]; VNum (lit "1")])
           (lit ".x") []).
  reflexivity.
Defined.

(* ================================================================== *)
(** * Further properties of the error page *)
(* ================================================================== *)

Lemma htmlEncode_concat (ls : list jsstring) :
  htmlEncode (concat ls) = concat (List.map htmlEncode ls).
Proof.
  induction ls as [|x r IH]; [reflexivity|].
  cbn [concat List.map]. now rewrite htmlEncode_app, IH.
Qed.

Lemma char_at_firstn (line : jsstring) (i : nat) :
  htmlEncode_undef (char_at line i) = htmlEncode (firstn 1 (skipn i line)).
Proof.
  unfold char_at. revert line. induction i as [|i IH]; intros [|c r]; try reflexivity.
  cbn [nth_error skipn]. apply IH.
Qed.

Lemma highlightError_loop_plain (lines : list jsstring) (i : nat) (l c : N) (out : jsstring) :
  (forall j, i <= j < i + length lines -> N.of_nat j <> (l - 1)%N) ->
  highlightError_loop lines i l c out = out ++ htmlEncode (concat lines).
Proof.
  revert i out. induction lines as [|x r IH]; intros i out H.
  - cbn. now rewrite app_nil_r.
  - cbn [highlightError_loop concat].
    destruct (N.eqb_spec (N.of_nat i) (l - 1)) as [E|_].
    + exfalso. apply (H i); [cbn [length]; lia|exact E].
    + rewrite IH.
      * now rewrite htmlEncode_app, <- app_assoc.
      * intros j Hj. apply H. cbn [length]. lia.
Qed.

Lemma highlightError_loop_marked (before : list jsstring) (line : jsstring)
      (after : list jsstring) (i : nat) (l c : N) (out : jsstring) :
  N.of_nat (i + length before) = (l - 1)%N ->
  highlightError_loop (before ++ line :: after) i l c out
  = out ++ htmlEncode (concat before) ++ marked_line line c ++ htmlEncode (concat after).
Proof.
  revert i out. induction before as [|x r IH]; intros i out H.
  - cbn [app highlightError_loop concat length] in *. rewrite Nat.add_0_r in H.
    rewrite H, N.eqb_refl. rewrite highlightError_loop_plain.
    + unfold marked_line. rewrite substring_0, char_at_firstn. unfold substring_from.
      change (htmlEncode []) with (@nil N). cbn [app].
      repeat rewrite <- app_assoc. reflexivity.
    + intros j Hj. lia.
  - cbn [app highlightError_loop concat length] in *.
    destruct (N.eqb_spec (N.of_nat i) (l - 1)) as [E|_]; [lia|].
    rewrite IH by (rewrite <- H; f_equal; lia).
    now rewrite htmlEncode_app, <- !app_assoc.
Qed.

Lemma three_pieces (line : jsstring) (n : nat) :
  firstn n line ++ firstn 1 (skipn n line) ++ skipn (S n) line = line.
Proof.
  revert line. induction n as [|n IH]; intros [|x r]; try reflexivity.
  cbn [firstn skipn app]. f_equal. apply IH.
Qed.

Lemma falsy_nonzero (n : N) : n <> 0%N -> falsy (Some n) = false.
Proof. intros H. cbn. now apply N.eqb_neq. Qed.

(** X7.  When the error names a line of the text, exactly that line is
    wrapped: the lines before and after it are escaped as they are, and the
    line itself is cut into the part before the column, the character at the
    column and the part after it, which together are the whole line. *)
Theorem highlightError_marks_one_line
        (data : jsstring) (l c : N) (before : list jsstring) (line : jsstring)
        (after : list jsstring) :
  l <> 0%N -> c <> 0%N ->
  split_lines data [] = before ++ line :: after ->
  N.of_nat (length before) = (l - 1)%N ->
  highlightError data (Some l) (Some c)
  = htmlEncode (concat before) ++ marked_line line c ++ htmlEncode (concat after)
  /\ firstn (N.to_nat (c - 1)) line ++ firstn 1 (skipn (N.to_nat (c - 1)) line)
       ++ skipn (N.to_nat c) line = line.
Proof.
  intros Hl Hc Hs Hn. split.
  - unfold highlightError. rewrite (@falsy_nonzero l Hl), (@falsy_nonzero c Hc).
    cbn [orb]. rewrite Hs.
    now rewrite (@highlightError_loop_marked before line after 0 l c [] Hn).
  - replace (N.to_nat c) with (S (N.to_nat (c - 1))) by lia.
    apply three_pieces.
Qed.

Lemma highlightError_marks_one_line_witness :
  highlightError (lit "{" ++ [c_lf] ++ lit "a<b" ++ [c_lf] ++ lit "}") (Some 2%N) (Some 2%N)
  = htmlEncode (lit "{" ++ [c_lf])
      ++ html "<span class='errorline'>a<span class='errorcolumn'>&lt;</span>"
      ++ lit "b" ++ [c_lf] ++ html "</span>"
      ++ lit "}".
Proof.
  destruct (@highlightError_marks_one_line
              (lit "{" ++ [c_lf] ++ lit "a<b" ++ [c_lf] ++ lit "}") 2 2
              [lit "{" ++ [c_lf]] (lit "a<b" ++ [c_lf]) [lit "}"]) as [E _];
    [lia|lia|reflexivity|reflexivity|].
  rewrite E. reflexivity.
Defined.

Lemma split_lines_concat_len (n : nat) :
  forall (s cur : jsstring), length s <= n ->
  concat (split_lines s cur) = cur ++ filter not_separator s.
Proof.
  induction n as [|n IH]; intros s cur Hn.
  - destruct s; [|cbn in Hn; lia]. cbn. reflexivity.
  - destruct s as [|c r]; [cbn; reflexivity|].
    cbn [length] in Hn. cbn [split_lines filter]. unfold not_separator at 1.
    destruct (N.eqb_spec c 13) as [->|N13].
    + cbn [N.eqb Pos.eqb orb negb].
      destruct r as [|d r'].
      * cbn. now rewrite <- app_assoc.
      * assert (Hd : (match d with
                      | 10%N => (cur ++ [13%N; 10%N]) :: split_lines r' []
                      | _ => (cur ++ [13%N]) :: split_lines (d :: r') []
                      end)
                     = if N.eqb d 10 then (cur ++ [13%N; 10%N]) :: split_lines r' []
                       else (cur ++ [13%N]) :: split_lines (d :: r') []).
        { destruct d as [|p]; [reflexivity|].
          do 4 (destruct p as [p|p|]; try reflexivity). }
        rewrite Hd. destruct (N.eqb_spec d 10) as [->|N10].
        -- cbn [concat filter]. unfold not_separator at 1. cbn [N.eqb Pos.eqb orb negb].
           rewrite IH by (cbn [length] in Hn; lia).
           cbn [app]. now rewrite <- app_assoc.
        -- cbn [concat]. rewrite IH by lia. cbn [app]. now rewrite <- app_assoc.
    + destruct (N.eqb_spec c 10) as [->|N10].
      * cbn [N.eqb Pos.eqb orb negb concat]. rewrite IH by lia.
        cbn [app]. now rewrite <- app_assoc.
      * destruct (N.eqb c 8232 || N.eqb c 8233) eqn:E; cbn [negb].
        -- cbn [concat]. rewrite IH by lia. reflexivity.
        -- rewrite IH by lia. now rewrite <- app_assoc.
Qed.

Lemma split_lines_concat (s : jsstring) :
  concat (split_lines s []) = filter not_separator s.
Proof. exact (@split_lines_concat_len (length s) s [] (le_n _)). Qed.

(** X8.  When the error names a line beyond the last line of the text,
    nothing is wrapped, and the text shown is the escaped text without its
    characters U+2028 and U+2029: these end a line and belong to none. *)
Theorem highlightError_beyond_text (data : jsstring) (l c : N) :
  c <> 0%N -> (N.of_nat (length (split_lines data [])) < l)%N ->
  highlightError data (Some l) (Some c) = htmlEncode (filter not_separator data).
Proof.
  intros Hc Hl. unfold highlightError.
  rewrite (@falsy_nonzero l) by lia. rewrite (@falsy_nonzero c Hc). cbn [orb].
  rewrite highlightError_loop_plain.
  - now rewrite split_lines_concat.
  - intros j Hj. lia.
Qed.

Lemma highlightError_beyond_text_witness :
  highlightError (lit "[1," ++ [8232%N] ++ lit "<2]") (Some 3%N) (Some 1%N)
  = lit "[1,&lt;2]".
Proof.
  rewrite (@highlightError_beyond_text (lit "[1," ++ [8232%N] ++ lit "<2]") 3 1);
    [reflexivity|lia|vm_compute; reflexivity].
Defined.


Lemma strip_prefix_pat_suffix (p : list (option char16)) (s r : jsstring) :
  strip_prefix_pat p s = Some r -> exists pre, s = pre ++ r.
Proof.
  revert s. induction p as [|a p IH]; intros s H; cbn [strip_prefix_pat] in H.
  - exists []. now inversion H.
  - destruct s as [|c s]; [discriminate|].
    destruct (match a with Some x => N.eqb c x | None => negb (is_line_terminator c) end);
      [|discriminate].
    destruct (IH _ H) as (pre & ->). now exists (c :: pre).
Qed.






Lemma In_nul_of_htmlEncode (s : jsstring) : In c_nul (htmlEncode s) -> In c_nul s.
Proof.
  induction s as [|c s IH]; [now cbn|].
  rewrite htmlEncode_cons. intros H. apply in_app_or in H. destruct H as [H|H].
  - left. unfold html_entity in H.
    repeat match type of H with
           | In _ (if ?b then _ else _) => destruct b
           end;
      cbn in H; repeat (destruct H as [H|H]; try discriminate H); try easy.
  - right. now apply IH.
Qed.

Lemma remove_first_sub (pat s : jsstring) (x : char16) :
  In x (remove_first pat s) -> In x s.
Proof.
  induction s as [|c r IH]; cbn [remove_first].
  - destruct (strip_prefix_pat (exact pat) []) as [rest|] eqn:E; [|easy].
    destruct (strip_prefix_pat_suffix _ _ E) as (pre & Hp).
    intros H. rewrite Hp. apply in_or_app. now right.
  - destruct (strip_prefix_pat (exact pat) (c :: r)) as [rest|] eqn:E.
    + destruct (strip_prefix_pat_suffix _ _ E) as (pre & Hp).
      intros H. rewrite Hp. apply in_or_app. now right.
    + intros [H|H]; [now left|right; now apply IH].
Qed.

Lemma strip_JSON_parse_sub (s : jsstring) (x : char16) :
  In x (strip_JSON_parse s) -> In x s.
Proof.
  unfold strip_JSON_parse.
  destruct (strip_prefix_pat _ s) as [rest|] eqn:E; [|easy].
  destruct (strip_prefix_pat_suffix _ _ E) as (pre & Hp).
  intros H. rewrite Hp. apply in_or_app. now right.
Qed.

Lemma massageError_no_nul (error : Error) :
  ~ In c_nul (message error) -> ~ In c_nul (info_message (massageError error)).
Proof.
  intros H. unfold massageError.
  destruct (is_nil (message error)); [exact H|].
  destruct (line_column_exec _) as [[p1 p2]|]; [|exact H].
  cbn [info_message]. intros I. apply In_nul_of_htmlEncode in I.
  apply remove_first_sub, strip_JSON_parse_sub in I. now apply H.
Qed.

Lemma replace_first_nul (data : jsstring) :
  count_occ N.eq_dec data c_nul <= 1 ->
  ~ In c_nul (replace_first_char c_nul [c_fffd] data).
Proof.
  induction data as [|x r IH]; [now cbn|].
  cbn [replace_first_char count_occ]. intros H.
  destruct (N.eq_dec x c_nul) as [->|Nx].
  - rewrite N.eqb_refl. cbn [app]. intros [I|I]; [discriminate I|].
    apply (count_occ_not_In N.eq_dec) in I; [exact I|lia].
  - destruct (N.eqb_spec x c_nul) as [->|_]; [congruence|].
    intros [I|I]; [congruence|]. now apply IH.
Qed.

Lemma split_lines_sub (data : jsstring) (line : jsstring) (x : char16) :
  In line (split_lines data []) -> In x line -> In x data.
Proof.
  intros Hl Hx.
  assert (I : In x (concat (split_lines data []))).
  { apply in_concat. now exists line. }
  rewrite split_lines_concat in I. apply filter_In in I. tauto.
Qed.

Lemma In_firstn_sub (x : char16) (n : nat) (l : jsstring) : In x (firstn n l) -> In x l.
Proof. intros H. rewrite <- (firstn_skipn n l). apply in_or_app. now left. Qed.

Lemma In_skipn_sub (x : char16) (n : nat) (l : jsstring) : In x (skipn n l) -> In x l.
Proof. intros H. rewrite <- (firstn_skipn n l). apply in_or_app. now right. Qed.

Lemma highlightError_loop_no_nul (lines : list jsstring) (i : nat) (l c : N) (out : jsstring) :
  (forall line, In line lines -> ~ In c_nul line) -> ~ In c_nul out ->
  ~ In c_nul (highlightError_loop lines i l c out).
Proof.
  revert i out. induction lines as [|x r IH]; intros i out Hl Ho; [exact Ho|].
  cbn [highlightError_loop]. apply IH.
  - intros line Hin. apply Hl. now right.
  - assert (Hx : ~ In c_nul x) by (apply Hl; now left).
    destruct (N.eqb (N.of_nat i) (l - 1)).
    + rewrite substring_0, char_at_firstn. unfold substring_from.
      intros I. repeat (apply in_app_or in I; destruct I as [I|I]);
        try (now apply Ho);
        try (vm_compute in I; repeat (destruct I as [I|I]; try discriminate I); easy);
        apply In_nul_of_htmlEncode in I; apply Hx.
      * eapply In_firstn_sub; exact I.
      * apply In_firstn_sub in I. eapply In_skipn_sub; exact I.
      * eapply In_skipn_sub; exact I.
    + intros I. apply in_app_or in I. destruct I as [I|I]; [now apply Ho|].
      apply In_nul_of_htmlEncode in I. now apply Hx.
Qed.

Lemma highlightError_no_nul (data : jsstring) (l c : option N) :
  ~ In c_nul data -> ~ In c_nul (highlightError data l c).
Proof.
  intros H.
  assert (P : ~ In c_nul (htmlEncode data)).
  { intros I. now apply In_nul_of_htmlEncode in I. }
  unfold highlightError. destruct (falsy l || falsy c); [exact P|].
  destruct l as [l|]; [|exact P]. destruct c as [c|]; [|exact P].
  apply highlightError_loop_no_nul; [|easy].
  intros line Hin I. apply H. exact (@split_lines_sub data line c_nul Hin I).
Qed.

(** X10.  The replacement of the NUL character reaches its first
    occurrence: when the text holds at most one, and neither the message of
    the locale nor the message of the error holds any, the error page holds
    no NUL character, whatever position the error names. *)
Theorem errorPageBody_single_nul (errorParsing : jsstring) (error : Error) (data : jsstring) :
  ~ In c_nul errorParsing -> ~ In c_nul (message error) ->
  count_occ N.eq_dec data c_nul <= 1 ->
  ~ In c_nul (errorPageBody errorParsing error data).
Proof.
  intros He Hm Hd. unfold errorPageBody. cbv zeta.
  pose proof (@massageError_no_nul error Hm) as Hi.
  pose proof (@highlightError_no_nul _ (position (info_line (massageError error)))
                (position (info_column (massageError error)))
                (@replace_first_nul data Hd)) as Hh.
  destruct (negb (is_nil (info_message (massageError error))));
    intros I; repeat (apply in_app_or in I; destruct I as [I|I]);
    try (now apply He); try (now apply Hi); try (now apply Hh);
    vm_compute in I; repeat (destruct I as [I|I]; try discriminate I); easy.
Qed.

Lemma errorPageBody_single_nul_witness :
  ~ In c_nul (errorPageBody (lit "Error")
                {| message := lit "bad control character at line 1 column 2" |}
                (lit "[" ++ [c_nul] ++ lit "]")).
Proof.
  apply errorPageBody_single_nul.
  - vm_compute. intros H. repeat (destruct H as [H|H]; try discriminate H). exact H.
  - vm_compute. intros H. repeat (destruct H as [H|H]; try discriminate H). exact H.
  - vm_compute. lia.
Defined.

(* ================================================================== *)
(** * Properties of the background script *)
(* ================================================================== *)

Lemma strip_prefix_eq (p s r : jsstring) : strip_prefix p s = Some r -> s = p ++ r.
Proof.
  revert s. induction p as [|a p IH]; intros s H; cbn [strip_prefix] in H.
  - now inversion H.
  - destruct s as [|c s]; [discriminate|].
    destruct (N.eqb_spec c a) as [->|]; [|discriminate].
    cbn [app]. f_equal. now apply IH.
Qed.

Lemma strip_prefix_app (p r : jsstring) : strip_prefix p (p ++ r) = Some r.
Proof.
  induction p as [|a p IH]; [reflexivity|].
  cbn [app strip_prefix]. now rewrite N.eqb_refl.
Qed.

Lemma span_stop (p : char16 -> bool) (a : jsstring) (c : char16) (r : jsstring) :
  forallb p a = true -> p c = false -> span p (a ++ c :: r) = (a, c :: r).
Proof.
  intros Ha Hc. induction a as [|x a IH]; cbn [app span].
  - now rewrite Hc.
  - cbn [forallb] in Ha. apply andb_true_iff in Ha. destruct Ha as [Hx Ha].
    now rewrite Hx, (IH Ha).
Qed.

Lemma xml_end_spec (s : jsstring) :
  xml_end s = true <->
  exists rest, s = lit "xml" ++ rest /\ (rest = [] \/ exists r, rest = 59%N :: r).
Proof.
  unfold xml_end. split.
  - destruct (strip_prefix (lit "xml") s) as [r|] eqn:E; [|discriminate].
    apply strip_prefix_eq in E. intros H. exists r. split; [exact E|].
    destruct r as [|c r]; [now left|]. apply N.eqb_eq in H. subst c. right. now exists r.
  - intros (rest & -> & H). rewrite strip_prefix_app.
    destruct H as [->|(r & ->)]; reflexivity.
Qed.

(** X11.  The content type test accepts exactly the values that begin with
    text/xml, or with text/, a non-empty run of lower-case letters, a plus
    sign and xml, and that end there or go on with a semicolon. *)
Theorem jsonContentType_accepts (v : jsstring) :
  jsonContentType_test v = true <->
  exists sub rest,
    v = lit "text/" ++ sub ++ lit "xml" ++ rest
    /\ (sub = [] \/ exists letters, letters <> [] /\ forallb is_lower letters = true
                                   /\ sub = letters ++ lit "+")
    /\ (rest = [] \/ exists r, rest = 59%N :: r).
Proof.
  unfold jsonContentType_test. split.
  - destruct (strip_prefix (lit "text/") v) as [s|] eqn:E; [|discriminate].
    apply strip_prefix_eq in E. subst v. intros H.
    apply orb_true_iff in H. destruct H as [H|H].
    + unfold subtype_group in H.
      destruct (span is_lower s) as [letters r] eqn:Es.
      destruct (span_eq _ _ Es) as (-> & Hl & _).
      destruct letters as [|x letters]; [discriminate|]. cbn [is_nil] in H.
      destruct r as [|c r]; [discriminate|].
      destruct (N.eqb_spec c 43) as [->|]; [|discriminate].
      apply xml_end_spec in H. destruct H as (rest & -> & Hr).
      exists ((x :: letters) ++ lit "+"), rest. split; [|split; [|exact Hr]].
      * now rewrite <- !app_assoc.
      * right. exists (x :: letters). repeat split; auto. discriminate.
    + apply xml_end_spec in H. destruct H as (rest & -> & Hr).
      exists [], rest. split; [reflexivity|]. split; [now left|exact Hr].
  - intros (sub & rest & -> & Hs & Hr). rewrite strip_prefix_app.
    destruct Hs as [->|(letters & Hne & Hl & ->)].
    + apply orb_true_iff. right. apply xml_end_spec. now exists rest.
    + apply orb_true_iff. left. unfold subtype_group.
      rewrite <- app_assoc. change (lit "+" ++ lit "xml" ++ rest) with (43%N :: lit "xml" ++ rest).
      rewrite (@span_stop is_lower letters 43%N (lit "xml" ++ rest) Hl eq_refl).
      destruct letters as [|x letters]; [congruence|]. cbn [is_nil N.eqb Pos.eqb].
      apply xml_end_spec. now exists rest.
Qed.

Lemma as_html_done (h : header) : is_json_header (as_html h) = false.
Proof.
  unfold as_html. destruct (is_json_header h) eqn:E; [|exact E].
  unfold is_json_header. cbn [h_name h_value].
  change (json_header_value (Some (lit "text/html"))) with false.
  apply andb_false_r.
Qed.

Lemma detectJSON_loop_filtered (p : platform) (event : details) (headers : list header)
      (st : host) :
  browser_filter p = true ->
  detectJSON_loop p event headers st
  = (List.map as_html headers,
     {| jsonUrls := jsonUrls st;
        filters := filters st
                     ++ repeat (d_requestId event, d_url event)
                          (length (filter is_json_header headers)) |}).
Proof.
  intros Hp. revert st. induction headers as [|h rest IH]; intros st.
  - cbn. rewrite app_nil_r. now destruct st.
  - cbn [detectJSON_loop List.map filter]. unfold as_html at 1.
    fold (is_json_header h). destruct (is_json_header h).
    + rewrite Hp, IH. cbn [jsonUrls filters length repeat].
      rewrite <- app_assoc. reflexivity.
    + rewrite IH. reflexivity.
Qed.

(** X12.  When the response can be filtered, [detectJSON] leaves the list
    of URLs alone, rewrites the value of every matching content type header
    to text/html and keeps every other header, installs one filter for each
    header it rewrote, and the headers it returns hold no match any more. *)
Theorem detectJSON_filtered (p : platform) (event : details) (headers : list header)
        (st : host) :
  browser_filter p = true -> d_responseHeaders event = Some headers ->
  detectJSON p event st
  = (Some (List.map as_html headers),
     {| jsonUrls := jsonUrls st;
        filters := filters st
                     ++ repeat (d_requestId event, d_url event)
                          (length (filter is_json_header headers)) |})
  /\ List.map h_name (List.map as_html headers) = List.map h_name headers
  /\ filter is_json_header (List.map as_html headers) = [].
Proof.
  intros Hp Hh. split; [|split].
  - unfold detectJSON. rewrite Hh.
    now rewrite (@detectJSON_loop_filtered p event headers st Hp).
  - rewrite map_map. apply map_ext. intros h. unfold as_html.
    now destruct (is_json_header h).
  - induction headers as [|h rest IH] in |- *; [reflexivity|].
    cbn [List.map filter]. now rewrite as_html_done.
Qed.

Lemma detectJSON_filtered_witness :
  detectJSON {| browser_filter := true; chrome_filter := true |}
    {| d_requestId := 7; d_url := lit "http://h/a";
       d_responseHeaders :=
         Some [ {| h_name := lit "Server"; h_value := Some (lit "x") |};
                {| h_name := lit "Content-Type";
                   h_value := Some (lit "text/xml; charset=utf-8") |} ] |}
    {| jsonUrls := []; filters := [] |}
  = (Some [ {| h_name := lit "Server"; h_value := Some (lit "x") |};
            {| h_name := lit "Content-Type"; h_value := Some (lit "text/html") |} ],
     {| jsonUrls := []; filters := [(7%N, lit "http://h/a")] |}).
Proof.
  destruct (@detectJSON_filtered
              {| browser_filter := true; chrome_filter := true |}
              {| d_requestId := 7; d_url := lit "http://h/a";
                 d_responseHeaders :=
                   Some [ {| h_name := lit "Server"; h_value := Some (lit "x") |};
                          {| h_name := lit "Content-Type";
                             h_value := Some (lit "text/xml; charset=utf-8") |} ] |}
              [ {| h_name := lit "Server"; h_value := Some (lit "x") |};
                {| h_name := lit "Content-Type";
                   h_value := Some (lit "text/xml; charset=utf-8") |} ]
              {| jsonUrls := []; filters := [] |} eq_refl eq_refl) as [E _].
  rewrite E. reflexivity.
Defined.

Lemma set_has_app (u : jsstring) (s t : list jsstring) :
  set_has u (s ++ t) = set_has u s || set_has u t.
Proof. apply existsb_app. Qed.

Lemma set_has_add (u : jsstring) (s : list jsstring) : set_has u (set_add u s) = true.
Proof.
  unfold set_add. destruct (set_has u s) eqn:E; [exact E|].
  rewrite set_has_app. cbn. now rewrite jseqb_refl, orb_true_r.
Qed.

Lemma set_add_twice (u : jsstring) (s : list jsstring) :
  set_add u (set_add u s) = set_add u s.
Proof. unfold set_add at 1. now rewrite set_has_add. Qed.

Lemma set_has_delete (u : jsstring) (s : list jsstring) : set_has u (set_delete u s) = false.
Proof.
  unfold set_has, set_delete. induction s as [|x s IH]; [reflexivity|].
  cbn [filter]. destruct (jseqb u x) eqn:E; cbn [negb]; [exact IH|].
  cbn [existsb]. now rewrite E, IH.
Qed.

Lemma set_has_delete_other (u u' : jsstring) (s : list jsstring) :
  u' <> u -> set_has u' (set_delete u s) = set_has u' s.
Proof.
  intros N. unfold set_has, set_delete. induction s as [|x s IH]; [reflexivity|].
  cbn [filter existsb]. destruct (jseqb u x) eqn:E; cbn [negb].
  - apply jseqb_eq in E. subst x.
    destruct (jseqb u' u) eqn:E'; [apply jseqb_eq in E'; congruence|]. exact IH.
  - cbn [existsb]. now rewrite IH.
Qed.

Lemma set_delete_twice (u : jsstring) (s : list jsstring) :
  set_delete u (set_delete u s) = set_delete u s.
Proof.
  unfold set_delete. induction s as [|x s IH]; [reflexivity|].
  cbn [filter]. destruct (negb (jseqb u x)) eqn:E; [|exact IH].
  cbn [filter]. now rewrite E, IH.
Qed.

Lemma detectJSON_loop_unfiltered (p : platform) (event : details) (headers : list header)
      (st : host) :
  browser_filter p = false ->
  detectJSON_loop p event headers st
  = (headers,
     {| jsonUrls := if existsb is_json_header headers
                    then set_add (d_url event) (jsonUrls st) else jsonUrls st;
        filters := filters st |}).
Proof.
  intros Hp. revert st. induction headers as [|h rest IH]; intros st.
  - cbn. now destruct st.
  - cbn [detectJSON_loop existsb]. fold (is_json_header h).
    destruct (is_json_header h); cbn [orb].
    + rewrite Hp, IH. cbn [jsonUrls filters]. rewrite set_add_twice.
      now destruct (existsb is_json_header rest).
    + now rewrite IH.
Qed.

(** X13.  When the response cannot be filtered, [detectJSON] returns the
    headers as they are and installs no filter; the URL of the request joins
    the list of URLs exactly when some content type header matches, and it
    is listed once however many headers match. *)
Theorem detectJSON_unfiltered (p : platform) (event : details) (headers : list header)
        (st : host) :
  browser_filter p = false -> d_responseHeaders event = Some headers ->
  detectJSON p event st
  = (Some headers,
     {| jsonUrls := if existsb is_json_header headers
                    then set_add (d_url event) (jsonUrls st) else jsonUrls st;
        filters := filters st |}).
Proof.
  intros Hp Hh. unfold detectJSON. rewrite Hh.
  now rewrite (@detectJSON_loop_unfiltered p event headers st Hp).
Qed.

Lemma detectJSON_unfiltered_witness :
  detectJSON {| browser_filter := false; chrome_filter := false |}
    {| d_requestId := 7; d_url := lit "http://h/a";
       d_responseHeaders :=
         Some [ {| h_name := lit "content-type"; h_value := Some (lit "text/soap+xml") |};
                {| h_name := lit "CONTENT-TYPE"; h_value := Some (lit "text/xml") |} ] |}
    {| jsonUrls := [lit "http://h/b"]; filters := [] |}
  = (Some [ {| h_name := lit "content-type"; h_value := Some (lit "text/soap+xml") |};
            {| h_name := lit "CONTENT-TYPE"; h_value := Some (lit "text/xml") |} ],
     {| jsonUrls := [lit "http://h/b"; lit "http://h/a"]; filters := [] |}).
Proof.
  rewrite (@detectJSON_unfiltered
             {| browser_filter := false; chrome_filter := false |}
             {| d_requestId := 7; d_url := lit "http://h/a";
                d_responseHeaders :=
                  Some [ {| h_name := lit "content-type";
                            h_value := Some (lit "text/soap+xml") |};
                         {| h_name := lit "CONTENT-TYPE"; h_value := Some (lit "text/xml") |} ] |}
             [ {| h_name := lit "content-type"; h_value := Some (lit "text/soap+xml") |};
               {| h_name := lit "CONTENT-TYPE"; h_value := Some (lit "text/xml") |} ]
             {| jsonUrls := [lit "http://h/b"]; filters := [] |} eq_refl eq_refl).
  reflexivity.
Defined.

(** X14.  Without the filter interface, the listener answers for a URL that
    is not a local JSON file whether the URL is listed, and forgets it: the
    same question asked again is answered no and changes nothing more, and
    the answer for every other URL is what it was. *)
Theorem onMessage_answers_once (p : platform) (url : jsstring) (st : host) :
  chrome_filter p = false -> local_json url = false ->
  fst (onMessage p url st) = set_has url (jsonUrls st)
  /\ onMessage p url (snd (onMessage p url st)) = (false, snd (onMessage p url st))
  /\ forall url', url' <> url ->
       set_has url' (jsonUrls (snd (onMessage p url st))) = set_has url' (jsonUrls st).
Proof.
  intros Hp Hl. unfold local_json in Hl. unfold onMessage. rewrite Hl, Hp.
  cbn [fst snd jsonUrls filters]. split; [reflexivity|]. split.
  - now rewrite set_has_delete, set_delete_twice.
  - intros url' N. now apply set_has_delete_other.
Qed.

Lemma onMessage_answers_once_witness :
  fst (onMessage {| browser_filter := false; chrome_filter := false |} (lit "http://h/a")
         {| jsonUrls := [lit "http://h/a"; lit "http://h/b"]; filters := [] |}) = true
  /\ onMessage {| browser_filter := false; chrome_filter := false |} (lit "http://h/a")
       {| jsonUrls := [lit "http://h/b"]; filters := [] |}
     = (false, {| jsonUrls := [lit "http://h/b"]; filters := [] |}).
Proof.
  destruct (@onMessage_answers_once
              {| browser_filter := false; chrome_filter := false |} (lit "http://h/a")
              {| jsonUrls := [lit "http://h/a"; lit "http://h/b"]; filters := [] |}
              eq_refl eq_refl) as (A & B & _).
  split; [exact A|exact B].
Defined.

(** X15.  Without the filter interface the two halves meet: after
    [detectJSON] has seen the headers of a request, the listener answers yes
    for the URL of that request when some content type header matched, and
    otherwise what it would have answered before. *)
Theorem detected_then_asked (p : platform) (event : details) (headers : list header)
        (st : host) :
  browser_filter p = false -> chrome_filter p = false ->
  d_responseHeaders event = Some headers ->
  fst (onMessage p (d_url event) (snd (detectJSON p event st)))
  = existsb is_json_header headers || fst (onMessage p (d_url event) st).
Proof.
  intros Hb Hc Hh. unfold detectJSON. rewrite Hh.
  rewrite (@detectJSON_loop_unfiltered p event headers st Hb). cbn [snd].
  unfold onMessage. rewrite Hc.
  destruct (starts_with (lit "file://") (d_url event) && ends_with (lit ".json") (d_url event));
    cbn [fst]; [now rewrite orb_true_r|].
  cbn [jsonUrls]. destruct (existsb is_json_header headers); cbn [orb]; [|reflexivity].
  apply set_has_add.
Qed.

Lemma detected_then_asked_witness :
  fst (onMessage {| browser_filter := false; chrome_filter := false |} (lit "http://h/a")
         (snd (detectJSON {| browser_filter := false; chrome_filter := false |}
                 {| d_requestId := 7; d_url := lit "http://h/a";
                    d_responseHeaders :=
                      Some [ {| h_name := lit "Content-Type";
                                h_value := Some (lit "text/xml") |} ] |}
                 {| jsonUrls := []; filters := [] |})))
  = true.
Proof.
  exact (@detected_then_asked
             {| browser_filter := false; chrome_filter := false |}
             {| d_requestId := 7; d_url := lit "http://h/a";
                d_responseHeaders :=
                  Some [ {| h_name := lit "Content-Type"; h_value := Some (lit "text/xml") |} ] |}
             [ {| h_name := lit "Content-Type"; h_value := Some (lit "text/xml") |} ]
             {| jsonUrls := []; filters := [] |} eq_refl eq_refl eq_refl).
Defined.



(* ================================================================== *)
(** * Properties of the content script *)
(* ================================================================== *)










